(** * Suspense resources over promises: [wrapPromise], the fake end points
      and the reviewer-details controller

    The development embeds
    - [wrapPromise] (wrapPromise.ts, listed in "01 concurrent mode basics/Readme.md"),
    - the fake end points of "02 concurrent UI patterns/src/api/myEndPoints.ts",
    - [getNextId] and [handleClick] of the reviewer-details page,
    over an explicit model of the JavaScript run time they rely on: a heap of
    promise objects, the closure environments of [wrapPromise], the timer
    table of [setTimeout], the microtask queue and a logical clock. *)

From Stdlib Require Import ZArith String List Bool Lia PrimFloat.
From stdpp Require Import base list relations.

Set Default Proof Using "Type".

(** ** Data of the fake back end *)

(** interface CodeReviewer { name: string; id: number } *)
Record CodeReviewer := { rv_name : string; rv_id : Z }.

(** interface CodeReviewComment { id: number, text: string, reviewerId: number } *)
Record CodeReviewComment := { cm_id : Z; cm_reviewerId : Z; cm_text : string }.

Definition BE_REVIEWERS : list CodeReviewer :=
  [ {| rv_name := "Marioli"; rv_id := 3 |};
    {| rv_name := "Carlos"; rv_id := 5 |};
    {| rv_name := "Lucia"; rv_id := 7 |} ].

Definition BE_COMMENTS : list CodeReviewComment :=
  [ {| cm_id := 0; cm_reviewerId := 3;
       cm_text := "I do not like this true here, I will create a constant with a meaning name" |};
    {| cm_id := 1; cm_reviewerId := 3;
       cm_text := "From my point of view make the code less readable" |};
    {| cm_id := 2; cm_reviewerId := 3; cm_text := "What does it do?" |};
    {| cm_id := 3; cm_reviewerId := 5; cm_text := "Please, refactor to functional component" |};
    {| cm_id := 4; cm_reviewerId := 5; cm_text := "The trees do not let you see the forest" |};
    {| cm_id := 5; cm_reviewerId := 7; cm_text := "No comments" |} ].

(** The array literal inside [fetchUsersResponseToReviewer]. *)
Definition BE_RESPONSES : list CodeReviewComment :=
  [ {| cm_id := 0; cm_reviewerId := 3; cm_text := "WAT" |};
    {| cm_id := 0; cm_reviewerId := 5; cm_text := "I don't like trees" |};
    {| cm_id := 0; cm_reviewerId := 7; cm_text := "OK" |} ].

(** ** Values, completions and the heap *)

(** References into the heap: promise objects and [wrapPromise] closures are
    numbered in allocation order. *)
Abbreviation PromiseRef := nat (only parsing).
Abbreviation ResourceRef := nat (only parsing).

(** The JavaScript values that flow through the end points. A number is
    an IEEE 754 double, as in JavaScript: [+] on numbers is the addition
    of doubles, rounded to nearest even. *)
Inductive Value :=
| VUndefined
| VNumber (n : float)
| VReviewer (r : CodeReviewer)
| VReviewers (rs : list CodeReviewer)
| VComments (cs : list CodeReviewComment)
| VError (msg : string)
| VPromise (p : PromiseRef).

(** How a call ends: [return v] or [throw v]. *)
Inductive Completion :=
| Return (v : Value)
| Throw (v : Value).

(** A settled promise is fulfilled with a value or rejected with a reason. *)
Inductive Settled :=
| Fulfilled (v : Value)
| Rejected (e : Value).

(** The pair of handlers that [wrapPromise] passes to [promise.then]: both
    close over the variables [status] and [result] of one call (the
    environment [rx_env]); [rx_derived] is the promise that [then] returned. *)
Record Reaction := { rx_env : ResourceRef; rx_derived : PromiseRef }.

Inductive PromiseState :=
| Pending (reactions : list Reaction)
| Done (o : Settled).

(** A promise object. [p_open] tells that the resolving functions are in the
    hands of the environment; the promises built by the end points keep them
    inside their timer callback, the ones built by [then] inside the
    reaction job. *)
Record Promise := { p_state : PromiseState; p_open : bool }.

(** The variables of one call of [wrapPromise]: the parameter [promise] and
    the locals [status], [result] and [suspender]. *)
Record Env := {
  promise : PromiseRef;
  status : string;
  result : Value;
  suspender : PromiseRef
}.

(** The arrow functions handed to [setTimeout], one constructor per closure
    of myEndPoints.ts, with the variables each one captured. *)
Inductive Callback :=
| FetchedReviewers (resolve : PromiseRef)
| FetchedComments (resolve : PromiseRef)
| FetchedReviewer (id : Z) (resolve : PromiseRef)
| FetchedCommentsForReviewer (id : Z) (resolve : PromiseRef)
| FetchedResponses (id : Z) (resolve : PromiseRef)
| Added3 (value : float) (resolve : PromiseRef).

Record Timer := { due : Z; callback : Callback }.

(** A promise reaction job in the microtask queue: the handlers of
    [j_env] are to be called with the outcome [j_outcome]. *)
Record Job := { j_env : ResourceRef; j_derived : PromiseRef; j_outcome : Settled }.

(** One call of [console.log]: the message and the optional second argument. *)
Definition LogLine : Type := string * option Z.

Record World := {
  now : Z;
  promises : list Promise;
  envs : list Env;
  timers : list Timer;
  jobs : list Job;
  console : list LogLine
}.

Definition empty_world : World :=
  {| now := 0; promises := []; envs := []; timers := []; jobs := []; console := [] |}.

Definition set_now (t : Z) (w : World) : World :=
  {| now := t; promises := promises w; envs := envs w; timers := timers w;
     jobs := jobs w; console := console w |}.
Definition set_promises (ps : list Promise) (w : World) : World :=
  {| now := now w; promises := ps; envs := envs w; timers := timers w;
     jobs := jobs w; console := console w |}.
Definition set_envs (es : list Env) (w : World) : World :=
  {| now := now w; promises := promises w; envs := es; timers := timers w;
     jobs := jobs w; console := console w |}.
Definition set_timers (ts : list Timer) (w : World) : World :=
  {| now := now w; promises := promises w; envs := envs w; timers := ts;
     jobs := jobs w; console := console w |}.
Definition set_jobs (js : list Job) (w : World) : World :=
  {| now := now w; promises := promises w; envs := envs w; timers := timers w;
     jobs := js; console := console w |}.
Definition set_console (c : list LogLine) (w : World) : World :=
  {| now := now w; promises := promises w; envs := envs w; timers := timers w;
     jobs := jobs w; console := c |}.

(** ** A state monad for code that runs against the heap *)

Definition JS (A : Type) : Type := World -> A * World.

Definition ret {A} (a : A) : JS A := fun w => (a, w).
Definition bind {A B} (m : JS A) (k : A -> JS B) : JS B :=
  fun w => let (a, w') := m w in k a w'.

Notation "'do' x <- m ; k" := (bind m (fun x => k))
  (at level 10, x name, m at level 100, k at level 200).
Notation "m ;; k" := (bind m (fun _ => k))
  (at level 100, k at level 200, right associativity).

(** ** Primitives of the run time *)

(** console.log(msg, arg) *)
Definition console_log (msg : string) (arg : option Z) : JS unit :=
  fun w => (tt, set_console (console w ++ [(msg, arg)]) w).

(** The promise constructor, before its executor runs. *)
Definition new_promise (open : bool) : JS PromiseRef :=
  fun w => (length (promises w),
            set_promises (promises w ++ [{| p_state := Pending []; p_open := open |}]) w).

(** setTimeout(cb, delay) *)
Definition setTimeout (cb : Callback) (delay : Z) : JS unit :=
  fun w => (tt, set_timers (timers w ++ [{| due := (now w + delay)%Z; callback := cb |}]) w).

Definition job_of (o : Settled) (r : Reaction) : Job :=
  {| j_env := rx_env r; j_derived := rx_derived r; j_outcome := o |}.

(** The resolving functions of promise [p], called with a value that is not
    a thenable: a pending promise takes the outcome and one job per
    registered reaction is queued; on a settled promise they do nothing. *)
Definition settle (p : PromiseRef) (o : Settled) : JS unit :=
  fun w =>
    match promises w !! p with
    | Some {| p_state := Pending rs; p_open := b |} =>
        (tt, set_jobs (jobs w ++ map (job_of o) rs)
               (set_promises (<[p := {| p_state := Done o; p_open := b |}]> (promises w)) w))
    | _ => (tt, w)
    end.

(** promise.then(onFulfilled, onRejected) with the two handlers of the
    environment [c]: the derived promise is created, and the reaction is
    registered on a pending promise or queued at once on a settled one. *)
Definition promise_then (p : PromiseRef) (c : ResourceRef) : JS PromiseRef :=
  do d <- new_promise false;
  fun w =>
    match promises w !! p with
    | Some {| p_state := Pending rs; p_open := b |} =>
        (d, set_promises
              (<[p := {| p_state := Pending (rs ++ [{| rx_env := c; rx_derived := d |}]);
                         p_open := b |}]> (promises w)) w)
    | Some {| p_state := Done o; p_open := _ |} =>
        (d, set_jobs (jobs w ++ [{| j_env := c; j_derived := d; j_outcome := o |}]) w)
    | None => (d, w)
    end.

(** Assignment to the variables [status] and [result] of environment [c]. *)
Definition assign (c : ResourceRef) (st : string) (v : Value) : JS unit :=
  fun w =>
    match envs w !! c with
    | Some e =>
        (tt, set_envs (<[c := {| promise := promise e; status := st; result := v;
                                 suspender := suspender e |}]> (envs w)) w)
    | None => (tt, w)
    end.

(** ** wrapPromise.ts *)

(** export const wrapPromise = (promise) => {
      let status = "pending"; let result;
      let suspender = promise.then(
        response => { status = "success"; result = response; },
        error => { status = "error"; result = error; });
      return { read() { ... } };
    }
    The returned object is represented by the reference to the environment
    its [read] closes over. *)
Definition wrapPromise (promise : PromiseRef) : JS ResourceRef :=
  fun w =>
    let c := length (envs w) in
    let (s, w1) := promise_then promise c w in
    (c, set_envs (envs w1 ++ [{| promise := promise; status := "pending";
                                 result := VUndefined; suspender := s |}]) w1).

(** The two handlers, run by a reaction job; both return undefined, which
    fulfils the derived promise. *)
Definition run_job (j : Job) : JS unit :=
  match j_outcome j with
  | Fulfilled response => assign (j_env j) "success" response
  | Rejected error => assign (j_env j) "error" error
  end ;;
  settle (j_derived j) (Fulfilled VUndefined).

(** read(): the if / else-if chain on [status]; falling off its end returns
    undefined. Calling [read] through a dangling reference is a TypeError. *)
Definition read (c : ResourceRef) : JS Completion :=
  fun w =>
    match envs w !! c with
    | Some e =>
        if String.eqb (status e) "pending" then (Throw (VPromise (suspender e)), w)
        else if String.eqb (status e) "error" then (Throw (result e), w)
        else if String.eqb (status e) "success" then (Return (result e), w)
        else (Return VUndefined, w)
    | None => (Throw (VError "TypeError"), w)
    end.

(** ** myEndPoints.ts *)

(** What [Array.prototype.find] hands back: the element, or undefined. *)
Definition found (o : option CodeReviewer) : Value :=
  match o with
  | Some r => VReviewer r
  | None => VUndefined
  end.

(** The bodies of the timer callbacks. *)
Definition run_callback (cb : Callback) : JS unit :=
  match cb with
  | FetchedReviewers resolve =>
      console_log "fetched reviewers" None ;;
      settle resolve (Fulfilled (VReviewers BE_REVIEWERS))
  | FetchedComments resolve =>
      console_log "fetched comments" None ;;
      settle resolve (Fulfilled (VComments BE_COMMENTS))
  | FetchedReviewer id resolve =>
      console_log "fetched reviewer" (Some id) ;;
      settle resolve
        (Fulfilled (found (List.find (fun reviewer => (rv_id reviewer =? id)%Z) BE_REVIEWERS)))
  | FetchedCommentsForReviewer id resolve =>
      console_log "fetched comments" (Some id) ;;
      settle resolve
        (Fulfilled (VComments
           (List.filter (fun comment => (cm_reviewerId comment =? id)%Z) BE_COMMENTS)))
  | FetchedResponses id resolve =>
      console_log "fetched responses" (Some id) ;;
      settle resolve
        (Fulfilled (VComments
           (List.filter (fun r => (cm_reviewerId r =? id)%Z) BE_RESPONSES)))
  | Added3 value resolve =>
      settle resolve (Fulfilled (VNumber (value + 3)))
  end.

Definition fetchCodeReviewers : JS PromiseRef :=
  console_log "fetching code reviewer..." None ;;
  do resolve <- new_promise false;
  setTimeout (FetchedReviewers resolve) 1000 ;;
  ret resolve.

Definition fetchComments : JS PromiseRef :=
  console_log "fetching comments..." None ;;
  do resolve <- new_promise false;
  setTimeout (FetchedComments resolve) 2000 ;;
  ret resolve.

Definition fetchReviewer (id : Z) : JS PromiseRef :=
  console_log "fetching code reviewer..." (Some id) ;;
  do resolve <- new_promise false;
  setTimeout (FetchedReviewer id resolve) 300 ;;
  ret resolve.

Definition fetchCommentsForReviewer (id : Z) : JS PromiseRef :=
  console_log "fetching comments..." (Some id) ;;
  do resolve <- new_promise false;
  setTimeout (FetchedCommentsForReviewer id resolve) 800 ;;
  ret resolve.

Definition fetchUsersResponseToReviewer (id : Z) : JS PromiseRef :=
  console_log "fetching responses..." (Some id) ;;
  do resolve <- new_promise false;
  setTimeout (FetchedResponses id resolve) 1500 ;;
  ret resolve.

Definition add3To (value : float) : JS PromiseRef :=
  do resolve <- new_promise false;
  setTimeout (Added3 value resolve) 1800 ;;
  ret resolve.

(** The object returned by [fetchCodeReviewData]. *)
Record ReviewResource := { reviewers : ResourceRef; all_comments : ResourceRef }.

Definition fetchCodeReviewData : JS ReviewResource :=
  do codeReviewersPromise <- fetchCodeReviewers;
  do commentsPromise <- fetchComments;
  do r <- wrapPromise codeReviewersPromise;
  do c <- wrapPromise commentsPromise;
  ret {| reviewers := r; all_comments := c |}.

(** The object returned by [fetchCodeReviewerData]: the key and the three
    slots. *)
Record ReviewerResource := {
  b_id : Z;
  reviewer : ResourceRef;
  comments : ResourceRef;
  responses : ResourceRef
}.

Definition fetchCodeReviewerData (id : Z) : JS ReviewerResource :=
  do codeReviewerPromise <- fetchReviewer id;
  do commentsForReviewerPromise <- fetchCommentsForReviewer id;
  do responsesToReviewerPromise <- fetchUsersResponseToReviewer id;
  do r <- wrapPromise codeReviewerPromise;
  do c <- wrapPromise commentsForReviewerPromise;
  do s <- wrapPromise responsesToReviewerPromise;
  ret {| b_id := id; reviewer := r; comments := c; responses := s |}.

Definition getAdd3ToResource (value : float) : JS ResourceRef :=
  do p <- add3To value;
  wrapPromise p.

(** ** The event loop and the environment *)

(** Calls of the exported functions, as the pages make them. *)
Inductive Call :=
| CallWrapPromise (p : PromiseRef)
| CallRead (c : ResourceRef)
| CallFetchCodeReviewers
| CallFetchComments
| CallFetchReviewer (id : Z)
| CallFetchCommentsForReviewer (id : Z)
| CallFetchCodeReviewData
| CallFetchCodeReviewerData (id : Z)
| CallAdd3To (value : float)
| CallGetAdd3ToResource (value : float).

Inductive Action :=
| Advance (t : Z)                       (* the loop is idle until the clock reads t *)
| Fire (i : nat)                        (* timer number i expires *)
| RunJob                                (* the first microtask runs *)
| NewPromise                            (* the environment builds a promise of its own *)
| Resolve (p : PromiseRef) (v : Value)  (* ... and resolves it *)
| Reject (p : PromiseRef) (e : Value)   (* ... or rejects it *)
| Fail (p : PromiseRef) (e : Value)     (* an operation that can fail does *)
| Invoke (c : Call).

Definition is_open (w : World) (p : PromiseRef) : bool :=
  match promises w !! p with
  | Some q => p_open q
  | None => false
  end.

Definition is_promise (v : Value) : bool :=
  match v with
  | VPromise _ => true
  | _ => false
  end.

Definition no_jobs (w : World) : bool :=
  match jobs w with
  | [] => true
  | _ => false
  end.

Definition invoke (c : Call) (w : World) : option World :=
  match c with
  | CallWrapPromise p =>
      if p <? length (promises w) then Some (snd (wrapPromise p w)) else None
  | CallRead c => Some (snd (read c w))
  | CallFetchCodeReviewers => Some (snd (fetchCodeReviewers w))
  | CallFetchComments => Some (snd (fetchComments w))
  | CallFetchReviewer id => Some (snd (fetchReviewer id w))
  | CallFetchCommentsForReviewer id => Some (snd (fetchCommentsForReviewer id w))
  | CallFetchCodeReviewData => Some (snd (fetchCodeReviewData w))
  | CallFetchCodeReviewerData id => Some (snd (fetchCodeReviewerData id w))
  | CallAdd3To value => Some (snd (add3To value w))
  | CallGetAdd3ToResource value => Some (snd (getAdd3ToResource value w))
  end.

(** ** The reviewer-details page *)

(** const getNextId = (id) => { switch(id) { case 3: return 5; case 5: return 7;
    default: return 3; } } *)
Definition getNextId (id : Z) : Z :=
  if (id =? 3)%Z then 5%Z
  else if (id =? 5)%Z then 7%Z
  else 3%Z.

Inductive TABS := HOME | REVIEWER_DETAILS.

(** The two [useState] cells of [ReviewerDetailsApp]. *)
Record AppState := { resource : ReviewerResource; tab : TABS }.

Definition setResource (b : ReviewerResource) (s : AppState) : AppState :=
  {| resource := b; tab := tab s |}.
Definition setTab (t : TABS) (s : AppState) : AppState :=
  {| resource := resource s; tab := t |}.

(** const initialResource = fetchCodeReviewerData(3); *)
Definition initialResource : JS ReviewerResource := fetchCodeReviewerData 3.

(** The state the component is mounted with. *)
Definition mount : JS AppState :=
  do b <- initialResource;
  ret {| resource := b; tab := HOME |}.

(** The two state updates of [handleClick], in order. *)
Definition handleClick_setResource (s : AppState) : JS AppState :=
  let nextUserId := getNextId (b_id (resource s)) in
  do b <- fetchCodeReviewerData nextUserId;
  ret (setResource b s).

Definition handleClick (s : AppState) : JS AppState :=
  do s1 <- handleClick_setResource s;
  ret (setTab REVIEWER_DETAILS s1).


(** ** Counting subscriptions and timers *)

Definition count {A} (f : A -> bool) (l : list A) : nat := length (List.filter f l).

Definition reactions_of (q : Promise) : list Reaction :=
  match p_state q with
  | Pending rs => rs
  | Done _ => []
  end.

(** Handlers of environment [c] registered on the promises of the heap. *)
Fixpoint heap_subs (c : ResourceRef) (ps : list Promise) : nat :=
  match ps with
  | [] => 0
  | q :: ps' => count (fun r => rx_env r =? c) (reactions_of q) + heap_subs c ps'
  end.

(** Handlers of environment [c] waiting in the microtask queue. *)
Definition queue_subs (c : ResourceRef) (js : list Job) : nat :=
  count (fun j => j_env j =? c) js.

(** The subscriptions of environment [c] that have not run yet. *)
Definition subs (ps : list Promise) (js : list Job) (c : ResourceRef) : nat :=
  heap_subs c ps + queue_subs c js.

(** The promise a timer callback resolves, and the value it resolves it with. *)
Definition cb_target (cb : Callback) : PromiseRef :=
  match cb with
  | FetchedReviewers p | FetchedComments p | FetchedReviewer _ p
  | FetchedCommentsForReviewer _ p | FetchedResponses _ p | Added3 _ p => p
  end.

Definition cb_value (cb : Callback) : Value :=
  match cb with
  | FetchedReviewers _ => VReviewers BE_REVIEWERS
  | FetchedComments _ => VComments BE_COMMENTS
  | FetchedReviewer id _ =>
      found (List.find (fun reviewer => (rv_id reviewer =? id)%Z) BE_REVIEWERS)
  | FetchedCommentsForReviewer id _ =>
      VComments (List.filter (fun comment => (cm_reviewerId comment =? id)%Z) BE_COMMENTS)
  | FetchedResponses id _ =>
      VComments (List.filter (fun r => (cm_reviewerId r =? id)%Z) BE_RESPONSES)
  | Added3 value _ => VNumber (value + 3)
  end.

(** Timers that will resolve promise [p]. *)
Definition timers_for (p : PromiseRef) (ts : list Timer) : nat :=
  count (fun tm => cb_target (callback tm) =? p) ts.

Definition state_at (ps : list Promise) (p : PromiseRef) : option PromiseState :=
  p_state <$> ps !! p.

(** ** Well-formed worlds *)

(** What the variables of an environment say about its promise. *)
Definition env_ok (ps : list Promise) (js : list Job) (c : ResourceRef) (e : Env) : Prop :=
  (status e = "pending"%string /\ result e = VUndefined /\ subs ps js c = 1)
  \/ (status e = "success"%string
      /\ state_at ps (promise e) = Some (Done (Fulfilled (result e))) /\ subs ps js c = 0)
  \/ (status e = "error"%string
      /\ state_at ps (promise e) = Some (Done (Rejected (result e))) /\ subs ps js c = 0).

Record WF (t : Z) (ps : list Promise) (es : list Env) (ts : list Timer) (js : list Job)
  : Prop := {
  wf_time : forall tm, tm ∈ ts -> (t <= due tm)%Z;
  wf_timer : forall tm, tm ∈ ts ->
    cb_target (callback tm) < length ps /\ timers_for (cb_target (callback tm)) ts = 1;
  wf_rx : forall q rs b r,
    ps !! q = Some {| p_state := Pending rs; p_open := b |} -> r ∈ rs ->
    rx_derived r < length ps /\
    exists e, es !! rx_env r = Some e /\ promise e = q /\ suspender e = rx_derived r;
  wf_job : forall j, j ∈ js ->
    j_derived j < length ps /\
    exists e, es !! j_env j = Some e /\ suspender e = j_derived j /\
              state_at ps (promise e) = Some (Done (j_outcome j));
  wf_env : forall c e, es !! c = Some e -> env_ok ps js c e
}.

Definition wf (w : World) : Prop :=
  WF (now w) (promises w) (envs w) (timers w) (jobs w).


(** ** Auxiliary definitions for the statements *)

(** The environment a call of [wrapPromise] starts with. *)
Definition fresh_env (p d : nat) : Env :=
  {| promise := p; status := "pending"; result := VUndefined; suspender := d |}.

(** The environment after one of the two handlers has run. *)
Definition written (e : Env) (o : Settled) : Env :=
  match o with
  | Fulfilled v => {| promise := promise e; status := "success"; result := v;
                      suspender := suspender e |}
  | Rejected v => {| promise := promise e; status := "error"; result := v;
                     suspender := suspender e |}
  end.

(** The condition under which control reaches the end of the body of
    [read] without meeting a [return] or a [throw]. *)
Definition falls_through (e : Env) : bool :=
  negb (String.eqb (status e) "pending") && negb (String.eqb (status e) "error")
  && negb (String.eqb (status e) "success").

(** [n] calls of [read] in a row, with the completions they gave. *)
Fixpoint read_many (n : nat) (c : ResourceRef) : JS (list Completion) :=
  match n with
  | 0 => ret []
  | S n' => do r <- read c; do rs <- read_many n' c; ret (r :: rs)
  end.

(** Resource [c] takes the value [v] at time [d]: until then [read] throws
    the suspender, afterwards it returns [v], and it never throws an error. *)
Definition resolves_at (w : World) (c : ResourceRef) (d : Z) (v : Value) : Prop :=
  exists e, envs w !! c = Some e /\ status e <> "error"%string /\
    ((now w < d)%Z -> read c w = (Throw (VPromise (suspender e)), w)) /\
    ((d < now w)%Z -> read c w = (Return v, w)).

(** The end points as written: no operation fails. *)
Definition no_fault (p : PromiseRef) : bool := false.

(** The data the three slots of a bundle for key [id] resolve with. *)
Definition reviewer_data (id : Z) : Value :=
  found (List.find (fun reviewer => (rv_id reviewer =? id)%Z) BE_REVIEWERS).
Definition comments_data (id : Z) : Value :=
  VComments (List.filter (fun comment => (cm_reviewerId comment =? id)%Z) BE_COMMENTS).
Definition responses_data (id : Z) : Value :=
  VComments (List.filter (fun r => (cm_reviewerId r =? id)%Z) BE_RESPONSES).

Section Semantics.

(** The promises whose operation may fail although the code of the end
    point only ever resolves them. The end points as written are
    [fun _ => false]. *)
Variable faulty : PromiseRef -> bool.

(** One step of the system; [None] when the action is not enabled.
    Time passes only while the loop is idle, and never beyond the next
    timer: a timer expires when the clock reads its due time. *)
Definition step (a : Action) (w : World) : option World :=
  match a with
  | Advance t =>
      if (now w <=? t)%Z && no_jobs w && forallb (fun tm => (t <=? due tm)%Z) (timers w)
      then Some (set_now t w) else None
  | Fire i =>
      match timers w !! i with
      | Some tm =>
          if (due tm <=? now w)%Z
          then Some (snd (run_callback (callback tm) (set_timers (delete i (timers w)) w)))
          else None
      | None => None
      end
  | RunJob =>
      match jobs w with
      | j :: js => Some (snd (run_job j (set_jobs js w)))
      | [] => None
      end
  | NewPromise => Some (snd (new_promise true w))
  | Resolve p v =>
      if is_open w p && negb (is_promise v)
      then Some (snd (settle p (Fulfilled v) w)) else None
  | Reject p e =>
      if is_open w p then Some (snd (settle p (Rejected e) w)) else None
  | Fail p e =>
      if faulty p then Some (snd (settle p (Rejected e) w)) else None
  | Invoke c => invoke c w
  end.

Fixpoint run (acts : list Action) (w : World) : option World :=
  match acts with
  | [] => Some w
  | a :: acts' =>
      match step a w with
      | Some w' => run acts' w'
      | None => None
      end
  end.

(** The worlds the system can be in. *)
Definition reachable (w : World) : Prop :=
  exists acts, run acts empty_world = Some w.


(** *** Atomic transitions

    Every step of the system is a sequence of the transitions below; the
    invariants are proved on them. *)
Inductive micro (w : World) : World -> Prop :=
| micro_log msg arg : micro w (snd (console_log msg arg w))
| micro_spawn cb delay :
    cb_target cb = length (promises w) -> (0 <= delay)%Z ->
    micro w (snd ((new_promise false ;; setTimeout cb delay) w))
| micro_new : micro w (snd (new_promise true w))
| micro_subscribe p : p < length (promises w) -> micro w (snd (wrapPromise p w))
| micro_settle p o : is_open w p = true -> micro w (snd (settle p o w))
| micro_fail p e : faulty p = true -> micro w (snd (settle p (Rejected e) w))
| micro_fire i tm :
    timers w !! i = Some tm -> (due tm <= now w)%Z ->
    micro w (snd (settle (cb_target (callback tm)) (Fulfilled (cb_value (callback tm)))
                    (set_timers (delete i (timers w)) w)))
| micro_handler j js : jobs w = j :: js -> micro w (snd (run_job j (set_jobs js w)))
| micro_advance t :
    (now w <= t)%Z -> jobs w = [] ->
    forallb (fun tm => (t <=? due tm)%Z) (timers w) = true ->
    micro w (set_now t w).

(** *** Promises owned by an end point *)

(** Promise [p] was built by an end point: it is resolved by its timer, at
    time [d] with value [v], or not at all. *)
Record owned_core (w : World) (p : nat) (d : Z) (v : Value) : Prop := {
  own_closed : exists s, promises w !! p = Some {| p_state := s; p_open := false |};
  own_timer : forall tm, tm ∈ timers w -> cb_target (callback tm) = p ->
              due tm = d /\ cb_value (callback tm) = v;
  own_rx : forall q rs b r,
    promises w !! q = Some {| p_state := Pending rs; p_open := b |} -> r ∈ rs ->
    rx_derived r <> p;
  own_job : forall j, j ∈ jobs w -> j_derived j <> p;
  own_fulfilled : forall v', state_at (promises w) p = Some (Done (Fulfilled v')) ->
                  v' = v /\ (d <= now w)%Z;
  own_rejected : forall e, state_at (promises w) p = Some (Done (Rejected e)) ->
                 faulty p = true
}.

(** While the promise is pending and its operation cannot fail, its timer
    is in the table. *)
Definition own_pending (w : World) (p : nat) : Prop :=
  forall rs, state_at (promises w) p = Some (Pending rs) -> faulty p = false ->
  exists tm, tm ∈ timers w /\ cb_target (callback tm) = p.

Definition owned (w : World) (p : nat) (d : Z) (v : Value) : Prop :=
  owned_core w p d v /\ own_pending w p.

(** Environment [c] wraps the end-point promise [p], and has seen its value
    as soon as the clock is past the due time. *)
Definition slot (w : World) (c p : nat) (d : Z) (v : Value) : Prop :=
  owned w p d v /\
  exists e, envs w !! c = Some e /\ promise e = p /\
            ((d < now w)%Z -> faulty p = false -> status e = "success"%string).

(** The bundle [b] is the object that [fetchCodeReviewerData] built for the
    key it carries, and its slots only ever yield the data of that key. *)
Definition paired (w : World) (b : ReviewerResource) : Prop :=
  (exists w_pre w_post acts,
      reachable w_pre /\ fetchCodeReviewerData (b_id b) w_pre = (b, w_post) /\
      run acts w_post = Some w) /\
  (forall x, fst (read (reviewer b) w) = Return x -> x = reviewer_data (b_id b)) /\
  (forall x, fst (read (comments b) w) = Return x -> x = comments_data (b_id b)) /\
  (forall x, fst (read (responses b) w) = Return x -> x = responses_data (b_id b)).

(** *** The page together with the run time *)

Record Sys := { heap : World; app : AppState }.

Inductive Event :=
| Run (a : Action)     (* a step of the run time or of another component *)
| Click.               (* the button is pressed: handleClick *)

Definition sys_step (ev : Event) (s : Sys) : option Sys :=
  match ev with
  | Run a =>
      match step a (heap s) with
      | Some w' => Some {| heap := w'; app := app s |}
      | None => None
      end
  | Click =>
      let (a', w') := handleClick (app s) (heap s) in
      Some {| heap := w'; app := a' |}
  end.

Fixpoint sys_run (evs : list Event) (s : Sys) : option Sys :=
  match evs with
  | [] => Some s
  | ev :: evs' =>
      match sys_step ev s with
      | Some s' => sys_run evs' s'
      | None => None
      end
  end.

End Semantics.

(** The module is loaded in world [w0]. *)
Definition sys_init (w0 : World) : Sys :=
  let (a, w) := mount w0 in {| heap := w; app := a |}.

(** Number of presses of the button in a run. *)
Fixpoint clicks (evs : list Event) : nat :=
  match evs with
  | [] => 0
  | Click :: evs' => S (clicks evs')
  | Run _ :: evs' => clicks evs'
  end.

(** The key after [n] presses. *)
Definition key_after (n : nat) : Z :=
  match (n mod 3)%nat with
  | 0%nat => 3%Z
  | 1%nat => 5%Z
  | _ => 7%Z
  end.

Ltac wsimpl :=
  cbn [now promises envs timers jobs console set_now set_promises set_envs set_timers
       set_jobs set_console fst snd] in *.


(** ** The components that consume a bundle

    [PullRequestReviewer], [PullRequestComments] and [PullRequestResponses]
    of "02 concurrent UI patterns/src/pages/suspenseListApp.tsx"; the
    reviewer-details page has the same bodies (with an opacity style on the
    lists), and [renderPage] is the one of that page. *)

(** The elements the components build. *)
#[warnings="-register-all"]
Inductive Markup :=
| h1 (text : string)
| div (text : string)
| li (key : Z) (text : option string)
| ul (items : list Markup)
| fragment (children : list Markup).

(** How rendering a component ends: with its element, or with what it
    threw. *)
Inductive Outcome :=
| Rendered (m : Markup)
| Thrown (v : Value).

(** The text of [${reviewer.name}]: reading a property of undefined is a
    TypeError ([None]); the end points only ever give a reviewer or
    undefined, the other values are listed for completeness. *)
Definition template_name (reviewer : Value) : option string :=
  match reviewer with
  | VUndefined => None
  | VReviewer r => Some (rv_name r)
  | VError _ => Some "Error"%string
  | VNumber _ | VReviewers _ | VComments _ | VPromise _ => Some "undefined"%string
  end.

(** [comments.map(comment => <li key={comment.id}>{comment.text}</li>)]:
    calling [map] on what is not an array is a TypeError ([None]). *)
Definition map_items (comments : Value) : option (list Markup) :=
  match comments with
  | VComments cs => Some (map (fun comment => li (cm_id comment) (Some (cm_text comment))) cs)
  | VReviewers rs => Some (map (fun comment => li (rv_id comment) None) rs)
  | VUndefined | VNumber _ | VReviewer _ | VError _ | VPromise _ => None
  end.

(** const reviewer = props.resource.reviewer.read();
    return <h1>{`Reviewer: ${reviewer.name}`}</h1>; *)
Definition PullRequestReviewer (resource : ReviewerResource) : JS Outcome :=
  do r <- read (reviewer resource);
  ret match r with
      | Throw v => Thrown v
      | Return reviewer =>
          match template_name reviewer with
          | Some name => Rendered (h1 (String.append "Reviewer: " name))
          | None => Thrown (VError "TypeError")
          end
      end.

(** const comments = props.resource.comments.read();
    return <ul>{comments.map(...)}</ul>; *)
Definition PullRequestComments (resource : ReviewerResource) : JS Outcome :=
  do r <- read (comments resource);
  ret match r with
      | Throw v => Thrown v
      | Return comments =>
          match map_items comments with
          | Some items => Rendered (ul items)
          | None => Thrown (VError "TypeError")
          end
      end.

(** const responses = props.resource.responses.read();
    return <><div> User response: </div><ul>{responses.map(...)}</ul></>; *)
Definition PullRequestResponses (resource : ReviewerResource) : JS Outcome :=
  do r <- read (responses resource);
  ret match r with
      | Throw v => Thrown v
      | Return responses =>
          match map_items responses with
          | Some items => Rendered (fragment [div " User response: "; ul items])
          | None => Thrown (VError "TypeError")
          end
      end.



(** ** The suspender of a resource *)

(** The promise that [then] returned to [wrapPromise] belongs to one
    environment, is resolved by no timer and by no one outside, and is
    settled exactly when the handlers of the environment have run. *)
Definition suspender_ok (faulty : PromiseRef -> bool) (w : World) : Prop :=
  forall c e, envs w !! c = Some e ->
    (exists s, promises w !! suspender e = Some {| p_state := s; p_open := false |}) /\
    (forall tm, tm ∈ timers w -> cb_target (callback tm) <> suspender e) /\
    (forall c' e', envs w !! c' = Some e' -> suspender e' = suspender e -> c' = c) /\
    (((exists rs, state_at (promises w) (suspender e) = Some (Pending rs)) /\
      status e = "pending"%string)
     \/ (state_at (promises w) (suspender e) = Some (Done (Fulfilled VUndefined)) /\
         status e <> "pending"%string)
     \/ (faulty (suspender e) = true /\
         exists err, state_at (promises w) (suspender e) = Some (Done (Rejected err)))).


(** * Proofs *)

(** ** Lemmas on counting *)

Section Count.
Context {A : Type} (f : A -> bool).

Lemma count_app l1 l2 : count f (l1 ++ l2) = count f l1 + count f l2.
Proof. unfold count. by rewrite List.filter_app, length_app. Qed.

Lemma count_cons x l : count f (x :: l) = (if f x then 1 else 0) + count f l.
Proof. unfold count. simpl. by destruct (f x). Qed.

Lemma count_none l : (forall x, x ∈ l -> f x = false) -> count f l = 0.
Proof.
  induction l as [|x l IH]; intros H; [done|].
  rewrite count_cons, (H x) by apply list_elem_of_here.
  apply IH. intros y Hy. apply H. by apply list_elem_of_further.
Qed.

Lemma count_pos x l : x ∈ l -> f x = true -> 1 <= count f l.
Proof.
  induction 1 as [x l|x y l _ IH]; intros Hx; rewrite count_cons.
  - rewrite Hx. lia.
  - specialize (IH Hx). lia.
Qed.

Lemma count_witness l : 1 <= count f l -> exists x, x ∈ l /\ f x = true.
Proof.
  induction l as [|x l IH]; [unfold count; simpl; lia|].
  rewrite count_cons. destruct (f x) eqn:Hx.
  - intros _. exists x. split; [apply list_elem_of_here|done].
  - intros H. destruct IH as (y & Hy & Hfy); [lia|].
    exists y. split; [by apply list_elem_of_further|done].
Qed.

Lemma count_delete i x l :
  l !! i = Some x -> count f (delete i l) + (if f x then 1 else 0) = count f l.
Proof.
  revert i. induction l as [|y l IH]; intros [|i] Hi; simplify_eq/=.
  - rewrite count_cons. lia.
  - rewrite !count_cons. specialize (IH _ Hi). lia.
Qed.
End Count.

Lemma count_map {A B} (g : A -> B) (f : B -> bool) l :
count f (map g l) = count (fun x => f (g x)) l.
Proof.
induction l as [|x l IH]; [done|].
simpl. rewrite !count_cons, IH. done.
Qed.

Lemma heap_subs_app c ps1 ps2 :
heap_subs c (ps1 ++ ps2) = heap_subs c ps1 + heap_subs c ps2.
Proof. induction ps1 as [|q ps1 IH]; simpl; [done|]. rewrite IH. lia. Qed.

Lemma heap_subs_insert c ps p q q' :
ps !! p = Some q ->
heap_subs c (<[p := q']> ps) + count (fun r => rx_env r =? c) (reactions_of q)
= heap_subs c ps + count (fun r => rx_env r =? c) (reactions_of q').
Proof.
revert p. induction ps as [|x ps IH]; intros [|p] Hp; simplify_eq/=.
- lia.
- specialize (IH _ Hp). lia.
Qed.

Lemma heap_subs_none c ps :
(forall p q r, ps !! p = Some q -> r ∈ reactions_of q -> rx_env r <> c) ->
heap_subs c ps = 0.
Proof.
induction ps as [|x ps IH]; intros H; simpl; [done|].
rewrite IH, count_none; [done| |].
- intros r Hr. apply Nat.eqb_neq. by apply (H 0 x r).
- intros p q r Hq. by apply (H (S p) q r).
Qed.

Lemma heap_subs_witness c ps :
1 <= heap_subs c ps ->
exists p q r, ps !! p = Some q /\ r ∈ reactions_of q /\ rx_env r = c.
Proof.
induction ps as [|x ps IH]; simpl; [lia|]. intros H.
destruct (Nat.eq_dec (count (fun r => rx_env r =? c) (reactions_of x)) 0) as [H0|H0].
- destruct IH as (p & q & r & Hp & Hr & Hc); [lia|]. by exists (S p), q, r.
- destruct (count_witness (fun r => rx_env r =? c) (reactions_of x)) as (r & Hr & Hc); [lia|].
  exists 0, x, r. split_and!; [done..|]. by apply Nat.eqb_eq.
Qed.

Lemma heap_subs_pos c ps p q r :
ps !! p = Some q -> r ∈ reactions_of q -> rx_env r = c -> 1 <= heap_subs c ps.
Proof.
revert p. induction ps as [|x ps IH]; intros [|p] Hp Hr Hc; simplify_eq/=.
- pose proof (count_pos (fun r0 => rx_env r0 =? rx_env r) r _ Hr (Nat.eqb_refl _)). lia.
- specialize (IH _ Hp Hr eq_refl). lia.
Qed.


(** ** Lemmas on the heap *)


Lemma state_at_app_l ps qs p : p < length ps -> state_at (ps ++ qs) p = state_at ps p.
Proof. intros H. unfold state_at. by rewrite lookup_app_l. Qed.

Lemma state_at_Some ps p s :
  state_at ps p = Some s <-> exists b, ps !! p = Some {| p_state := s; p_open := b |}.
Proof.
  unfold state_at. split.
  - destruct (ps !! p) as [[s' b]|] eqn:E; simpl; intros; simplify_eq. by exists b.
  - intros [b ->]. done.
Qed.

Lemma state_at_lt ps p s : state_at ps p = Some s -> p < length ps.
Proof. intros [b H]%state_at_Some. by apply lookup_lt_Some in H. Qed.

Lemma state_at_insert_ne ps p q x : p <> q -> state_at (<[p := x]> ps) q = state_at ps q.
Proof. intros H. unfold state_at. by rewrite list_lookup_insert_ne. Qed.

Lemma subs_alloc ps js c b :
  subs (ps ++ [{| p_state := Pending []; p_open := b |}]) js c = subs ps js c.
Proof. unfold subs. rewrite heap_subs_app. simpl. unfold count. simpl. lia. Qed.

Lemma env_ok_alloc ps js c e b :
  env_ok ps js c e -> env_ok (ps ++ [{| p_state := Pending []; p_open := b |}]) js c e.
Proof.
  unfold env_ok. rewrite subs_alloc.
  intros [H|[(?&H&?)|(?&H&?)]]; [by left|right; left|right; right];
    (split_and!; [done| |done]); rewrite state_at_app_l; eauto using state_at_lt.
Qed.

Lemma WF_alloc t ps es ts js b :
  WF t ps es ts js -> WF t (ps ++ [{| p_state := Pending []; p_open := b |}]) es ts js.
Proof.
  intros [Ht Htm Hrx Hj He]. split.
  - done.
  - intros tm Hin. destruct (Htm tm Hin). rewrite length_app. simpl. split; [lia|done].
  - intros q rs b' r Hq Hr. rewrite length_app. simpl.
    apply lookup_app_Some in Hq as [Hq|[_ Hq]].
    + destruct (Hrx _ _ _ _ Hq Hr). split; [lia|done].
    + destruct (q - length ps) as [|n]; simplify_eq/=. by apply elem_of_nil in Hr.
  - intros j Hin. destruct (Hj j Hin) as (? & e & ? & ? & Hs). rewrite length_app. simpl.
    split; [lia|]. exists e. split_and!; [done..|].
    rewrite state_at_app_l; eauto using state_at_lt.
  - intros c e Hc. by apply env_ok_alloc, He.
Qed.


Lemma timers_for_none p ts :
  (forall tm, tm ∈ ts -> cb_target (callback tm) < p) -> timers_for p ts = 0.
Proof.
  intros H. apply count_none. intros tm Hin. apply Nat.eqb_neq.
  specialize (H tm Hin). lia.
Qed.

Lemma WF_timer t ps es ts js cb delay :
  WF t ps es ts js -> (0 <= delay)%Z ->
  cb_target cb < length ps -> timers_for (cb_target cb) ts = 0 ->
  WF t ps es (ts ++ [{| due := (t + delay)%Z; callback := cb |}]) js.
Proof.
  intros [Ht Htm Hrx Hj He] Hd Hlt Hnone. split; try done.
  - intros tm [Hin|Hin%list_elem_of_singleton]%elem_of_app; [by apply Ht|].
    subst. simpl. lia.
  - intros tm [Hin|Hin%list_elem_of_singleton]%elem_of_app.
    + destruct (Htm tm Hin) as [? H1]. split; [done|].
      unfold timers_for in *. rewrite count_app, H1, count_cons. simpl.
      destruct (Nat.eqb_spec (cb_target cb) (cb_target (callback tm))) as [E|E].
      * rewrite <- E in H1. lia.
      * unfold count. simpl. lia.
    + subst. simpl. split; [done|].
      unfold timers_for in *. rewrite count_app, Hnone, count_cons. simpl.
      rewrite Nat.eqb_refl. done.
Qed.

Lemma queue_subs_jobs_of c o rs :
  queue_subs c (map (job_of o) rs) = count (fun r => rx_env r =? c) rs.
Proof. unfold queue_subs. by rewrite count_map. Qed.

Lemma subs_settle ps js c p rs b o :
  ps !! p = Some {| p_state := Pending rs; p_open := b |} ->
  subs (<[p := {| p_state := Done o; p_open := b |}]> ps) (js ++ map (job_of o) rs) c
  = subs ps js c.
Proof.
  intros Hp. unfold subs, queue_subs. rewrite count_app.
  fold (queue_subs c (map (job_of o) rs)). rewrite queue_subs_jobs_of.
  pose proof (heap_subs_insert c ps p _ {| p_state := Done o; p_open := b |} Hp) as H.
  unfold reactions_of in H. simpl in H.
  change (count (fun r => rx_env r =? c) []) with 0 in H. lia.
Qed.

Lemma WF_settle t ps es ts js p rs b o :
  WF t ps es ts js ->
  ps !! p = Some {| p_state := Pending rs; p_open := b |} ->
  WF t (<[p := {| p_state := Done o; p_open := b |}]> ps) es ts (js ++ map (job_of o) rs).
Proof.
  intros [Ht Htm Hrx Hj He] Hp.
  assert (Hlt : p < length ps) by by apply lookup_lt_Some in Hp.
  assert (Hkeep : forall q s, state_at ps q = Some (Done s) ->
            state_at (<[p := {| p_state := Done o; p_open := b |}]> ps) q = Some (Done s)).
  { intros q s Hq. rewrite state_at_insert_ne; [done|].
    intros ->. unfold state_at in Hq. rewrite Hp in Hq. done. }
  split; try done.
  - intros tm Hin. rewrite length_insert. by apply Htm.
  - intros q rs' b' r Hq Hr. rewrite length_insert.
    destruct (decide (p = q)) as [->|Hne].
    + rewrite list_lookup_insert_eq in Hq by done. simplify_eq.
    + rewrite list_lookup_insert_ne in Hq by done. by eapply Hrx.
  - intros j [Hin|Hin]%elem_of_app; rewrite length_insert.
    + destruct (Hj j Hin) as (? & e & ? & ? & Hs). split; [done|].
      exists e. split_and!; [done..|]. by apply Hkeep.
    + apply list_elem_of_fmap in Hin as (r & -> & Hr).
      destruct (Hrx _ _ _ _ Hp Hr) as (? & e & ? & <- & ?). split; [done|].
      exists e. split_and!; [done..|]. simpl.
      unfold state_at. rewrite list_lookup_insert_eq; [done|].
      eapply lookup_lt_Some. done.
  - intros c e Hc. specialize (He c e Hc). unfold env_ok in *.
    rewrite subs_settle by done.
    destruct He as [H|[(?&H&?)|(?&H&?)]]; [by left|right; left|right; right];
      (split_and!; [done| |done]); by apply Hkeep.
Qed.

Lemma WF_advance t t' ps es ts js :
  WF t ps es ts js -> forallb (fun tm => (t' <=? due tm)%Z) ts = true ->
  WF t' ps es ts js.
Proof.
  intros [Ht Htm Hrx Hj He] Hall. split; try done.
  intros tm Hin. rewrite forallb_forall in Hall.
  apply Z.leb_le, Hall. by apply list_elem_of_In.
Qed.

Lemma WF_delete t ps es ts js i tm :
  WF t ps es ts js -> ts !! i = Some tm ->
  WF t ps es (delete i ts) js /\ timers_for (cb_target (callback tm)) (delete i ts) = 0.
Proof.
  intros [Ht Htm Hrx Hj He] Hi.
  assert (Hsub : forall x, x ∈ delete i ts -> x ∈ ts).
  { intros x. apply list_elem_of_delete_inv. }
  assert (Hcnt : forall p, timers_for p (delete i ts)
            + (if cb_target (callback tm) =? p then 1 else 0) = timers_for p ts).
  { intros p. unfold timers_for.
    exact (count_delete (fun tm0 => cb_target (callback tm0) =? p) i tm ts Hi). }
  split; [split; try done|].
  - intros x Hx. by apply Ht, Hsub.
  - intros x Hx. destruct (Htm x (Hsub x Hx)) as [? H1]. split; [done|].
    pose proof (Hcnt (cb_target (callback x))) as H2.
    pose proof (count_pos (fun tm0 => cb_target (callback tm0) =? cb_target (callback x))
                  x _ Hx (Nat.eqb_refl _)) as H3.
    unfold timers_for in *. destruct (_ =? _); lia.
  - assert (Hin : tm ∈ ts) by (apply list_elem_of_lookup; eauto).
    destruct (Htm tm Hin) as [_ H1]. specialize (Hcnt (cb_target (callback tm))).
    rewrite Nat.eqb_refl in Hcnt. lia.
Qed.


Lemma subs_fresh t ps es ts js c :
  WF t ps es ts js -> length es <= c -> subs ps js c = 0.
Proof.
  intros [Ht Htm Hrx Hj He] Hc. unfold subs, queue_subs.
  rewrite heap_subs_none, count_none; [done| |].
  - intros j Hin. apply Nat.eqb_neq.
    destruct (Hj j Hin) as (_ & e & Hl%lookup_lt_Some & _). lia.
  - intros p [[rs|o] b] r Hp Hr; unfold reactions_of in Hr; simpl in Hr.
    + destruct (Hrx _ _ _ _ Hp Hr) as (_ & e & Hl%lookup_lt_Some & _). lia.
    + by apply elem_of_nil in Hr.
Qed.

Lemma WF_subscribe_pending t ps es ts js p rs b d :
  WF t ps es ts js ->
  ps !! p = Some {| p_state := Pending rs; p_open := b |} -> d < length ps ->
  WF t (<[p := {| p_state := Pending (rs ++ [{| rx_env := length es; rx_derived := d |}]);
                  p_open := b |}]> ps)
     (es ++ [fresh_env p d]) ts js.
Proof.
  intros Hwf Hp Hd. pose proof (subs_fresh _ _ _ _ _ (length es) Hwf (le_n _)) as Hfresh.
  destruct Hwf as [Ht Htm Hrx Hj He].
  assert (Hlt : p < length ps) by by apply lookup_lt_Some in Hp.
  set (r := {| rx_env := length es; rx_derived := d |}).
  assert (Hst : forall q s, state_at ps q = Some (Done s) ->
     state_at (<[p := {| p_state := Pending (rs ++ [r]); p_open := b |}]> ps) q = Some (Done s)).
  { intros q s Hq. rewrite state_at_insert_ne; [done|].
    intros ->. unfold state_at in Hq. rewrite Hp in Hq. done. }
  assert (Hsub : forall c,
     subs (<[p := {| p_state := Pending (rs ++ [r]); p_open := b |}]> ps) js c
     = subs ps js c + (if length es =? c then 1 else 0)).
  { intros c. unfold subs.
    pose proof (heap_subs_insert c ps p _
                  {| p_state := Pending (rs ++ [r]); p_open := b |} Hp) as H.
    unfold reactions_of in H. simpl in H. rewrite count_app, count_cons in H.
    simpl in H. change (count (fun r0 => rx_env r0 =? c) []) with 0 in H. lia. }
  split; try done.
  - intros tm Hin. rewrite length_insert. by apply Htm.
  - intros q rs' b' x Hq Hx. rewrite length_insert.
    destruct (decide (p = q)) as [->|Hne].
    + rewrite list_lookup_insert_eq in Hq by done. simplify_eq.
      apply elem_of_app in Hx as [Hx|Hx%list_elem_of_singleton].
      * destruct (Hrx _ _ _ _ Hp Hx) as (? & e & Hl & ? & ?). split; [done|].
        exists e. split_and!; [|done..]. rewrite lookup_app_l; [done|].
        by eapply lookup_lt_Some.
      * subst x. split; [done|]. exists (fresh_env q d).
        split_and!; [|done..]. simpl. by rewrite list_lookup_middle.
    + rewrite list_lookup_insert_ne in Hq by done.
      destruct (Hrx _ _ _ _ Hq Hx) as (? & e & Hl & ? & ?). split; [done|].
      exists e. split_and!; [|done..]. rewrite lookup_app_l; [done|].
      by eapply lookup_lt_Some.
  - intros j Hin. rewrite length_insert.
    destruct (Hj j Hin) as (? & e & Hl & ? & Hs). split; [done|].
    exists e. split_and!; [|done|by apply Hst]. rewrite lookup_app_l; [done|].
    by eapply lookup_lt_Some.
  - intros c e Hc. unfold env_ok. rewrite Hsub.
    apply lookup_app_Some in Hc as [Hc|[Hge Hc]].
    + assert ((length es =? c) = false) as ->.
      { apply Nat.eqb_neq. apply lookup_lt_Some in Hc. lia. }
      rewrite Nat.add_0_r.
      destruct (He c e Hc) as [H|[(?&H&?)|(?&H&?)]]; [by left|right; left|right; right];
        (split_and!; [done| |done]); by apply Hst.
    + destruct (c - length es) as [|n] eqn:E; simplify_eq/=.
      assert (c = length es) as -> by lia.
      rewrite Nat.eqb_refl, Hfresh. left. done.
Qed.

Lemma WF_subscribe_done t ps es ts js p o d :
  WF t ps es ts js ->
  state_at ps p = Some (Done o) -> d < length ps ->
  WF t ps (es ++ [fresh_env p d]) ts
     (js ++ [{| j_env := length es; j_derived := d; j_outcome := o |}]).
Proof.
  intros Hwf Hp Hd. pose proof (subs_fresh _ _ _ _ _ (length es) Hwf (le_n _)) as Hfresh.
  destruct Hwf as [Ht Htm Hrx Hj He].
  set (j0 := {| j_env := length es; j_derived := d; j_outcome := o |}).
  assert (Hsub : forall c,
     subs ps (js ++ [j0]) c = subs ps js c + (if length es =? c then 1 else 0)).
  { intros c. unfold subs, queue_subs. rewrite count_app, count_cons. simpl.
    change (count (fun j => j_env j =? c) []) with 0. lia. }
  split; try done.
  - intros q rs' b' x Hq Hx.
    destruct (Hrx _ _ _ _ Hq Hx) as (? & e & Hl & ? & ?). split; [done|].
    exists e. split_and!; [|done..]. rewrite lookup_app_l; [done|].
    by eapply lookup_lt_Some.
  - intros j [Hin|Hin%list_elem_of_singleton]%elem_of_app.
    + destruct (Hj j Hin) as (? & e & Hl & ? & Hs). split; [done|].
      exists e. split_and!; [|done..]. rewrite lookup_app_l; [done|].
      by eapply lookup_lt_Some.
    + subst j. split; [done|]. exists (fresh_env p d). simpl.
      split_and!; [|done..]. by rewrite list_lookup_middle.
  - intros c e Hc. unfold env_ok. rewrite Hsub.
    apply lookup_app_Some in Hc as [Hc|[Hge Hc]].
    + assert ((length es =? c) = false) as ->.
      { apply Nat.eqb_neq. apply lookup_lt_Some in Hc. lia. }
      rewrite Nat.add_0_r. by apply He.
    + destruct (c - length es) as [|n] eqn:E; simplify_eq/=.
      assert (c = length es) as -> by lia.
      rewrite Nat.eqb_refl, Hfresh. left. done.
Qed.

Lemma written_promise e o : promise (written e o) = promise e.
Proof. by destruct o. Qed.
Lemma written_suspender e o : suspender (written e o) = suspender e.
Proof. by destruct o. Qed.

Lemma WF_head_pending t ps es ts j js :
  WF t ps es ts (j :: js) ->
  exists e, es !! j_env j = Some e /\ status e = "pending"%string /\
            result e = VUndefined /\ suspender e = j_derived j /\
            state_at ps (promise e) = Some (Done (j_outcome j)) /\
            subs ps js (j_env j) = 0.
Proof.
  intros [Ht Htm Hrx Hj He].
  destruct (Hj j) as (_ & e & Hl & Hs & Hst); [apply list_elem_of_here|].
  exists e. specialize (He _ _ Hl). unfold env_ok, subs, queue_subs in *.
  rewrite count_cons, Nat.eqb_refl in He.
  destruct He as [(?&?&?)|[(?&?&?)|(?&?&?)]]; [|lia..].
  split_and!; try done. lia.
Qed.

Lemma WF_handler t ps es ts j js e :
  WF t ps es ts (j :: js) -> es !! j_env j = Some e ->
  WF t ps (<[j_env j := written e (j_outcome j)]> es) ts js.
Proof.
  intros Hwf Hl. destruct (WF_head_pending _ _ _ _ _ _ Hwf) as (e' & Hl' & Hpend & _ & Hs & Hst & H0).
  simplify_eq. destruct Hwf as [Ht Htm Hrx Hj He].
  assert (Hlook : forall c x, es !! c = Some x ->
    exists x', <[j_env j := written e (j_outcome j)]> es !! c = Some x' /\
               promise x' = promise x /\ suspender x' = suspender x).
  { intros c x Hc. destruct (decide (j_env j = c)) as [<-|Hne].
    - simplify_eq. exists (written e (j_outcome j)).
      rewrite list_lookup_insert_eq by by eapply lookup_lt_Some.
      by rewrite written_promise, written_suspender.
    - exists x. by rewrite list_lookup_insert_ne. }
  split; try done.
  - intros q rs b r Hq Hr. destruct (Hrx _ _ _ _ Hq Hr) as (? & x & Hx & ? & ?).
    split; [done|]. destruct (Hlook _ _ Hx) as (x' & ? & ? & ?).
    exists x'. split_and!; congruence.
  - intros j' Hin. destruct (Hj j') as (? & x & Hx & ? & ?); [by apply list_elem_of_further|].
    split; [done|]. destruct (Hlook _ _ Hx) as (x' & ? & Hp' & ?).
    exists x'. rewrite Hp'. split_and!; congruence.
  - intros c x Hc. destruct (decide (j_env j = c)) as [<-|Hne].
    + rewrite list_lookup_insert_eq in Hc by by eapply lookup_lt_Some.
      simplify_eq. unfold env_ok. rewrite written_promise, H0, Hst.
      destruct (j_outcome j); simpl; [right; left|right; right]; done.
    + rewrite list_lookup_insert_ne in Hc by done.
      specialize (He _ _ Hc). unfold env_ok, subs, queue_subs in *.
      rewrite count_cons in He.
      assert ((j_env j =? c) = false) as Hf by by apply Nat.eqb_neq.
      rewrite Hf in He. done.
Qed.

Lemma settle_cases p o w :
  (exists rs b, promises w !! p = Some {| p_state := Pending rs; p_open := b |} /\
     snd (settle p o w) =
       set_jobs (jobs w ++ map (job_of o) rs)
         (set_promises (<[p := {| p_state := Done o; p_open := b |}]> (promises w)) w))
  \/ ((forall rs, state_at (promises w) p <> Some (Pending rs)) /\ snd (settle p o w) = w).
Proof.
  unfold settle, state_at. destruct (promises w !! p) as [[[rs|o'] b]|] eqn:E; simpl.
  - left. by exists rs, b.
  - right. done.
  - right. done.
Qed.

Lemma wf_settle p o w : wf w -> wf (snd (settle p o w)).
Proof.
  intros Hwf. destruct (settle_cases p o w) as [(rs & b & Hp & ->)|[_ ->]]; [|done].
  unfold wf. simpl. by apply WF_settle.
Qed.

Lemma wrapPromise_cases p w :
  let c := length (envs w) in
  let d := length (promises w) in
  let ps1 := promises w ++ [{| p_state := Pending []; p_open := false |}] in
  p < d ->
  fst (wrapPromise p w) = c /\
  ((exists rs b, promises w !! p = Some {| p_state := Pending rs; p_open := b |} /\
      snd (wrapPromise p w) =
        set_envs (envs w ++ [fresh_env p d])
          (set_promises (<[p := {| p_state := Pending (rs ++ [{| rx_env := c; rx_derived := d |}]);
                                   p_open := b |}]> ps1) w))
   \/ (exists o, state_at (promises w) p = Some (Done o) /\
      snd (wrapPromise p w) =
        set_envs (envs w ++ [fresh_env p d])
          (set_jobs (jobs w ++ [{| j_env := c; j_derived := d; j_outcome := o |}])
             (set_promises ps1 w)))).
Proof.
  intros c d ps1 Hp. unfold wrapPromise, promise_then, bind, new_promise, state_at. simpl.
  rewrite lookup_app_l by done.
  destruct (promises w !! p) as [[[rs|o] b]|] eqn:E; simpl.
  - split; [done|]. left. by exists rs, b.
  - split; [done|]. right. by exists o.
  - apply lookup_ge_None in E. lia.
Qed.

Lemma wf_wrapPromise p w : wf w -> p < length (promises w) -> wf (snd (wrapPromise p w)).
Proof.
  intros Hwf Hp. destruct (wrapPromise_cases p w Hp) as [_ [(rs & b & Hl & ->)|(o & Hl & ->)]];
    unfold wf; simpl.
  - pose proof (WF_alloc _ _ _ _ _ false Hwf) as H1.
    pose proof (WF_subscribe_pending _ _ _ _ _ p rs b (length (promises w)) H1) as H2.
    apply H2.
    + by rewrite lookup_app_l.
    + rewrite length_app. simpl. lia.
  - pose proof (WF_alloc _ _ _ _ _ false Hwf) as H1.
    apply (WF_subscribe_done _ _ _ _ _ p o (length (promises w)) H1).
    + rewrite state_at_app_l; done.
    + rewrite length_app. simpl. lia.
Qed.

Lemma run_job_eq j js w e :
  jobs w = j :: js -> envs w !! j_env j = Some e ->
  snd (run_job j (set_jobs js w)) =
  snd (settle (j_derived j) (Fulfilled VUndefined)
         (set_envs (<[j_env j := written e (j_outcome j)]> (envs w)) (set_jobs js w))).
Proof.
  intros Hj He. unfold run_job, bind, assign, written.
  destruct (j_outcome j); simpl; rewrite He; done.
Qed.

Lemma wf_run_job j js w : wf w -> jobs w = j :: js -> wf (snd (run_job j (set_jobs js w))).
Proof.
  intros Hwf Hj. unfold wf in Hwf. rewrite Hj in Hwf.
  destruct (WF_head_pending _ _ _ _ _ _ Hwf) as (e & He & _).
  rewrite (run_job_eq j js w e Hj He). apply wf_settle. unfold wf. simpl.
  by apply WF_handler.
Qed.


Lemma elem_of_delete_ne {A} (l : list A) i x y :
  l !! i = Some y -> x ∈ l -> x <> y -> x ∈ delete i l.
Proof.
  revert i. induction l as [|z l IH]; intros [|i] Hi Hx Hne; simplify_eq/=.
  - apply elem_of_cons in Hx as [?|?]; [done|done].
  - apply elem_of_cons in Hx as [->|?]; [apply list_elem_of_here|].
    apply list_elem_of_further. by eapply IH.
Qed.

Lemma state_at_insert_eq ps p x : p < length ps -> state_at (<[p := x]> ps) p = Some (p_state x).
Proof. intros H. unfold state_at. by rewrite list_lookup_insert_eq. Qed.


Lemma bind_eq {A B} (m : JS A) (k : A -> JS B) w : bind m k w = k (fst (m w)) (snd (m w)).
Proof. unfold bind. by destruct (m w). Qed.

Lemma settle_frame p o w :
  now (snd (settle p o w)) = now w /\ envs (snd (settle p o w)) = envs w /\
  timers (snd (settle p o w)) = timers w /\ console (snd (settle p o w)) = console w /\
  length (promises (snd (settle p o w))) = length (promises w).
Proof.
  destruct (settle_cases p o w) as [(rs & b & Hl & ->)|[_ ->]]; [|done].
  wsimpl. by rewrite length_insert.
Qed.

Lemma wrapPromise_frame p w :
  p < length (promises w) ->
  fst (wrapPromise p w) = length (envs w) /\
  now (snd (wrapPromise p w)) = now w /\
  timers (snd (wrapPromise p w)) = timers w /\
  console (snd (wrapPromise p w)) = console w /\
  envs (snd (wrapPromise p w)) = envs w ++ [fresh_env p (length (promises w))] /\
  length (promises (snd (wrapPromise p w))) = S (length (promises w)).
Proof.
  intros Hp. destruct (wrapPromise_cases p w Hp) as [Hc [(rs & b & Hl & ->)|(o & Hl & ->)]];
    wsimpl; rewrite ?length_insert, length_app; simpl; split_and!; try done; lia.
Qed.

Lemma wf_status w c e :
  wf w -> envs w !! c = Some e ->
  status e = "pending"%string \/ status e = "success"%string \/ status e = "error"%string.
Proof.
  intros [_ _ _ _ He] Hc. destruct (He c e Hc) as [(?&_)|[(?&_)|(?&_)]]; auto.
Qed.

Lemma wf_quiet w c e :
  wf w -> jobs w = [] -> envs w !! c = Some e -> status e = "pending"%string ->
  exists rs, state_at (promises w) (promise e) = Some (Pending rs).
Proof.
  intros [_ _ Hrx _ He] Hj Hc Hst. destruct (He c e Hc) as [(_&_&Hs)|[(?&_)|(?&_)]];
    [|congruence..].
  unfold subs, queue_subs in Hs. rewrite Hj in Hs.
  change (count (fun j => j_env j =? c) []) with 0 in Hs.
  destruct (heap_subs_witness c (promises w)) as (p & [[rs|o] b] & r & Hp & Hr & Hrc); [lia| |].
  - unfold reactions_of in Hr. simpl in Hr.
    destruct (Hrx _ _ _ _ Hp Hr) as (_ & e' & He' & Hpe & _). subst c. simplify_eq.
    exists rs. unfold state_at. by rewrite Hp.
  - unfold reactions_of in Hr. simpl in Hr. by apply elem_of_nil in Hr.
Qed.

Lemma wf_settled w c e :
  wf w -> envs w !! c = Some e ->
  (status e = "success"%string ->
     state_at (promises w) (promise e) = Some (Done (Fulfilled (result e)))) /\
  (status e = "error"%string ->
     state_at (promises w) (promise e) = Some (Done (Rejected (result e)))).
Proof.
  intros [_ _ _ _ He] Hc. destruct (He c e Hc) as [(E&_)|[(E&?&_)|(E&?&_)]];
    split; intros E'; rewrite E in E'; done.
Qed.

Lemma read_pending c e w :
  envs w !! c = Some e -> status e = "pending"%string ->
  read c w = (Throw (VPromise (suspender e)), w).
Proof. intros Hc Hs. unfold read. rewrite Hc, Hs. done. Qed.
Lemma read_error c e w :
  envs w !! c = Some e -> status e = "error"%string -> read c w = (Throw (result e), w).
Proof. intros Hc Hs. unfold read. rewrite Hc, Hs. done. Qed.
Lemma read_success c e w :
  envs w !! c = Some e -> status e = "success"%string -> read c w = (Return (result e), w).
Proof. intros Hc Hs. unfold read. rewrite Hc, Hs. done. Qed.

Lemma read_inert c w : snd (read c w) = w.
Proof.
  unfold read. destruct (envs w !! c) as [e|]; [|done].
  by repeat destruct (String.eqb _ _).
Qed.


(** ** Invariants of the atomic transitions *)

Section Invariants.

Variable faulty : nat -> bool.

Lemma micro_wf w w' : wf w -> (micro faulty) w w' -> wf w'.
Proof.
  intros Hwf Hm. destruct Hm.
  - done.
  - unfold bind, new_promise, setTimeout, wf. simpl.
    apply WF_timer; [by apply WF_alloc|done| |].
    + rewrite length_app. simpl. lia.
    + apply timers_for_none. intros tm Hin. destruct Hwf as [_ Htm _ _ _].
      destruct (Htm tm Hin). lia.
  - unfold new_promise, wf. simpl. by apply WF_alloc.
  - by apply wf_wrapPromise.
  - by apply wf_settle.
  - by apply wf_settle.
  - apply wf_settle. unfold wf. simpl. by eapply WF_delete.
  - by apply wf_run_job.
  - unfold wf. simpl. by eapply WF_advance.
Qed.

Lemma fetch_micro msg arg cb delay w :
  cb_target cb = length (promises w) -> (0 <= delay)%Z ->
  rtc (micro faulty) w (snd ((console_log msg arg ;; new_promise false ;; setTimeout cb delay) w)).
Proof.
  intros Hcb Hd. eapply rtc_l; [apply (micro_log _ _ msg arg)|].
  apply rtc_once. by apply (micro_spawn faulty (snd (console_log msg arg w)) cb delay).
Qed.

Lemma fetchCodeReviewers_micro w : rtc (micro faulty) w (snd (fetchCodeReviewers w)).
Proof. by apply (fetch_micro _ _ (FetchedReviewers (length (promises w))) 1000%Z). Qed.
Lemma fetchComments_micro w : rtc (micro faulty) w (snd (fetchComments w)).
Proof. by apply (fetch_micro _ _ (FetchedComments (length (promises w))) 2000%Z). Qed.
Lemma fetchReviewer_micro id w : rtc (micro faulty) w (snd (fetchReviewer id w)).
Proof. by apply (fetch_micro _ _ (FetchedReviewer id (length (promises w))) 300%Z). Qed.
Lemma fetchCommentsForReviewer_micro id w :
  rtc (micro faulty) w (snd (fetchCommentsForReviewer id w)).
Proof.
  by apply (fetch_micro _ _ (FetchedCommentsForReviewer id (length (promises w))) 800%Z).
Qed.
Lemma fetchUsersResponseToReviewer_micro id w :
  rtc (micro faulty) w (snd (fetchUsersResponseToReviewer id w)).
Proof. by apply (fetch_micro _ _ (FetchedResponses id (length (promises w))) 1500%Z). Qed.
Lemma add3To_micro v w : rtc (micro faulty) w (snd (add3To v w)).
Proof.
  apply rtc_once. by apply (micro_spawn faulty w (Added3 v (length (promises w))) 1800%Z).
Qed.

Lemma owned_lt w p d v : (owned faulty) w p d v -> p < length (promises w).
Proof. intros [[[s Hs] _ _ _ _ _] _]. by apply lookup_lt_Some in Hs. Qed.

(** Settling another promise, failing this one, or resolving it with its
    own value once due, keeps [owned]. *)
Lemma owned_settle w p d v q o :
  (owned_core faulty) w p d v -> (q <> p -> (own_pending faulty) w p) ->
  (q <> p \/ (exists e, o = Rejected e /\ faulty p = true)
   \/ (o = Fulfilled v /\ (d <= now w)%Z)) ->
  (own_pending faulty) w p \/ (forall rs, state_at (promises w) p <> Some (Pending rs)) \/ q = p ->
  (owned faulty) (snd (settle q o w)) p d v.
Proof.
  intros Hown Hpe Hq Hpe'.
  destruct (settle_cases q o w) as [(rs & b & Hl & ->)|[Hnp ->]].
  2:{ split; [done|]. destruct (decide (q = p)) as [->|Hne]; [|by apply Hpe].
      intros rs Hst. by destruct (Hnp rs). }
  clear Hpe'. destruct Hown as [[s Hs] Htm Hrx Hj Hf Hr].
  assert (Hlt : q < length (promises w)) by by apply lookup_lt_Some in Hl.
  split; [split|]; unfold own_pending in *; wsimpl.
  - destruct (decide (q = p)) as [->|Hne].
    + simplify_eq. eexists. by rewrite list_lookup_insert_eq.
    + exists s. by rewrite list_lookup_insert_ne.
  - done.
  - intros q' rs' b' r Hq' Hin. destruct (decide (q = q')) as [->|Hne].
    + rewrite list_lookup_insert_eq in Hq' by done. simplify_eq.
    + rewrite list_lookup_insert_ne in Hq' by done. by eapply Hrx.
  - intros j [Hin|Hin]%elem_of_app; [by apply Hj|].
    apply list_elem_of_fmap in Hin as (r & -> & Hin). simpl. by eapply Hrx.
  - intros v' Hst. destruct (decide (q = p)) as [->|Hne].
    + rewrite state_at_insert_eq in Hst by done.
      simpl in Hst. destruct Hq as [?|[(e & -> & _)|[-> ?]]]; [done|done|].
      by simplify_eq.
    + rewrite state_at_insert_ne in Hst by done. by apply Hf.
  - intros e Hst. destruct (decide (q = p)) as [->|Hne].
    + rewrite state_at_insert_eq in Hst by done.
      simpl in Hst. destruct Hq as [?|[(e' & -> & ?)|[-> ?]]]; [done|done|done].
    + rewrite state_at_insert_ne in Hst by done. by eapply Hr.
  - intros rs' Hst Hnf. destruct (decide (q = p)) as [->|Hne].
    + rewrite state_at_insert_eq in Hst by done. done.
    + rewrite state_at_insert_ne in Hst by done. by eapply Hpe.
Qed.

Lemma owned_alloc w p d v b :
  (owned faulty) w p d v -> (owned faulty) (snd (new_promise b w)) p d v.
Proof.
  intros Hown. pose proof (owned_lt _ _ _ _ Hown) as Hlt.
  destruct Hown as [[[s Hs] Htm Hrx Hj Hf Hr] Hpe].
  unfold new_promise. split; [split|]; unfold own_pending in *; wsimpl; try done.
  - exists s. by rewrite lookup_app_l.
  - intros q rs b' r [Hq|[_ Hq]]%lookup_app_Some Hin; [by eapply Hrx|].
    destruct (q - length (promises w)); simplify_eq/=. by apply elem_of_nil in Hin.
  - intros v'. rewrite state_at_app_l by done. apply Hf.
  - intros e. rewrite state_at_app_l by done. apply Hr.
  - intros rs. simpl. rewrite state_at_app_l by done. apply Hpe.
Qed.

Lemma owned_setTimeout w p d v cb delay :
  (owned faulty) w p d v -> cb_target cb <> p -> (owned faulty) (snd (setTimeout cb delay w)) p d v.
Proof.
  intros [[Hs Htm Hrx Hj Hf Hr] Hpe] Hne. unfold setTimeout. split; [split|]; unfold own_pending in *; wsimpl; try done.
  - intros tm [Hin|Hin%list_elem_of_singleton]%elem_of_app Ht; [by apply Htm|].
    subst. done.
  - intros rs Hst Hnf. destruct (Hpe rs Hst Hnf) as (tm & Hin & Ht).
    exists tm. split; [|done]. simpl. apply elem_of_app. by left.
Qed.

Lemma owned_subscribe w p d v q :
  (owned faulty) w p d v -> q < length (promises w) -> (owned faulty) (snd (wrapPromise q w)) p d v.
Proof.
  intros Hown Hq. pose proof (owned_lt _ _ _ _ Hown) as Hlt.
  pose proof (owned_alloc _ _ _ _ false Hown) as Hown1.
  destruct Hown as [[[s Hs] Htm Hrx Hj Hf Hr] Hpe].
  destruct Hown1 as [[_ _ Hrx1 _ Hf1 Hr1] Hpe1]. unfold own_pending, new_promise in *.
  simpl in *.
  destruct (wrapPromise_cases q w Hq) as [_ [(rs & b & Hl & ->)|(o & Hl & ->)]].
  - assert (Hl1 : (promises w ++ [{| p_state := Pending []; p_open := false |}]) !! q
              = Some {| p_state := Pending rs; p_open := b |}) by by rewrite lookup_app_l.
    assert (Hlen : q < length (promises w ++ [{| p_state := Pending []; p_open := false |}])).
    { by eapply lookup_lt_Some. }
    split; [split|]; unfold own_pending in *; wsimpl; try done.
    + destruct (decide (q = p)) as [->|Hne].
      * simplify_eq. eexists. by rewrite list_lookup_insert_eq.
      * exists s. rewrite list_lookup_insert_ne by done. by rewrite lookup_app_l.
    + intros q' rs' b' r Hq' Hin. destruct (decide (q = q')) as [->|Hne].
      * rewrite list_lookup_insert_eq in Hq' by done. simplify_eq.
        apply elem_of_app in Hin as [Hin|Hin%list_elem_of_singleton]; [by eapply Hrx|].
        subst r. simpl. lia.
      * rewrite list_lookup_insert_ne in Hq' by done. by eapply Hrx1.
    + intros v' Hst. destruct (decide (q = p)) as [->|Hne].
      * rewrite state_at_insert_eq in Hst by done. done.
      * rewrite state_at_insert_ne in Hst by done. by apply Hf1.
    + intros e Hst. destruct (decide (q = p)) as [->|Hne].
      * rewrite state_at_insert_eq in Hst by done. done.
      * rewrite state_at_insert_ne in Hst by done. by eapply Hr1.
    + intros rs' Hst Hnf. simpl in *. destruct (decide (q = p)) as [->|Hne].
      * eapply Hpe; [|done]. unfold state_at. by rewrite Hl.
      * rewrite state_at_insert_ne in Hst by done. by eapply Hpe1.
  - split; [split|]; unfold own_pending in *; wsimpl; try done.
    + exists s. by rewrite lookup_app_l.
    + intros j [Hin|Hin%list_elem_of_singleton]%elem_of_app; [by apply Hj|].
      subst j. simpl. lia.
Qed.

Lemma owned_handler w p d v j js :
  wf w -> (owned faulty) w p d v -> jobs w = j :: js ->
  (owned faulty) (snd (run_job j (set_jobs js w))) p d v.
Proof.
  intros Hwf Hown Hjs. unfold wf in Hwf. rewrite Hjs in Hwf.
  destruct (WF_head_pending _ _ _ _ _ _ Hwf) as (e & He & _).
  rewrite (run_job_eq j js w e Hjs He).
  destruct Hown as [[Hs Htm Hrx Hj Hf Hr] Hpe].
  assert (Hne : j_derived j <> p).
  { apply Hj. rewrite Hjs. apply list_elem_of_here. }
  apply owned_settle; [| |by left|by left].
  - split; simpl; try done. intros j' Hin. apply Hj. rewrite Hjs.
    by apply list_elem_of_further.
  - done.
Qed.

Lemma owned_fire w p d v i tm :
  (owned faulty) w p d v -> timers w !! i = Some tm -> (due tm <= now w)%Z ->
  (owned faulty) (snd (settle (cb_target (callback tm)) (Fulfilled (cb_value (callback tm)))
                (set_timers (delete i (timers w)) w))) p d v.
Proof.
  intros Hown Hi Hdue.
  assert (Hin : tm ∈ timers w) by (apply list_elem_of_lookup; eauto).
  destruct Hown as [[Hs Htm Hrx Hj Hf Hr] Hpe].
  assert (Hpe' : cb_target (callback tm) <> p ->
            (own_pending faulty) (set_timers (delete i (timers w)) w) p).
  { intros Hne rs Hst Hnf. destruct (Hpe rs Hst Hnf) as (x & Hx & Ht).
    exists x. split; [|done]. simpl. eapply elem_of_delete_ne; [done..|].
    intros ->. done. }
  apply owned_settle.
  - split; simpl; try done.
    intros x Hx. apply Htm. by eapply list_elem_of_delete_inv.
  - done.
  - destruct (decide (cb_target (callback tm) = p)) as [E|E]; [|by left].
    right; right. destruct (Htm tm Hin E) as [Hd Hv]. rewrite Hv. split; [done|].
    wsimpl. lia.
  - destruct (decide (cb_target (callback tm) = p)) as [E|E]; [by right; right|].
    left. by apply Hpe'.
Qed.

Lemma owned_micro w w' p d v : wf w -> (owned faulty) w p d v -> (micro faulty) w w' -> (owned faulty) w' p d v.
Proof.
  intros Hwf Hown Hm. destruct Hm.
  - destruct Hown as [[Hs Htm Hrx Hj Hf Hr] Hpe]. by split; [split|].
  - change ((owned faulty) (snd (setTimeout cb delay (snd (new_promise false w)))) p d v).
    apply owned_setTimeout; [by apply owned_alloc|].
    apply owned_lt in Hown. lia.
  - by apply owned_alloc.
  - by apply owned_subscribe.
  - destruct Hown as [Hc Hpe]. apply owned_settle; [done|done| |by left].
    left. intros ->. destruct Hc as [[s Hs] _ _ _ _ _]. unfold is_open in *.
    rewrite Hs in *. done.
  - destruct Hown as [Hc Hpe]. apply owned_settle; [done|done| |by left].
    destruct (decide (p0 = p)) as [->|Hne]; [|by left]. right; left. eauto.
  - by apply owned_fire.
  - by apply owned_handler.
  - destruct Hown as [[Hs Htm Hrx Hj Hf Hr] Hpe]. split; [split|]; unfold own_pending in *; wsimpl; try done.
    intros v' Hst. destruct (Hf v' Hst). split; [done|]. lia.
Qed.

(** The variables of an environment change only when its own handler
    runs, and then only from "pending". *)
Lemma micro_env w w' c e :
  wf w -> (micro faulty) w w' -> envs w !! c = Some e ->
  envs w' !! c = Some e \/
  (status e = "pending"%string /\
   exists j js, jobs w = j :: js /\ j_env j = c /\
                envs w' !! c = Some (written e (j_outcome j))).
Proof.
  intros Hwf Hm Hc. destruct Hm; try (left; done).
  - left. destruct (wrapPromise_frame p w) as (_&_&_&_&->&_); [done|].
    rewrite lookup_app_l; [done|]. by eapply lookup_lt_Some.
  - left. by destruct (settle_frame p o w) as (_&->&_).
  - left. by destruct (settle_frame p (Rejected e0) w) as (_&->&_).
  - left. by destruct (settle_frame (cb_target (callback tm)) (Fulfilled (cb_value (callback tm)))
                    (set_timers (delete i (timers w)) w)) as (_&->&_).
  - pose proof Hwf as Hwf'. unfold wf in Hwf'. rewrite H in Hwf'.
    destruct (WF_head_pending _ _ _ _ _ _ Hwf') as (e' & He' & Hst & _).
    rewrite (run_job_eq j js w e' H He').
    destruct (settle_frame (j_derived j) (Fulfilled VUndefined)
                (set_envs (<[j_env j := written e' (j_outcome j)]> (envs w)) (set_jobs js w)))
      as (_&->&_). wsimpl.
    destruct (decide (j_env j = c)) as [<-|Hne].
    + simplify_eq. right. split; [done|]. exists j, js. split_and!; [done..|].
      rewrite list_lookup_insert_eq; [done|]. by eapply lookup_lt_Some.
    + left. by rewrite list_lookup_insert_ne.
Qed.

Lemma micro_time w w' :
  (micro faulty) w w' ->
  now w' = now w \/
  (jobs w = [] /\ envs w' = envs w /\ promises w' = promises w /\ timers w' = timers w /\
   jobs w' = jobs w /\ forall tm, tm ∈ timers w -> (now w' <= due tm)%Z).
Proof.
  intros Hm. destruct Hm; try (left; done).
  - left. by destruct (wrapPromise_frame p w) as (_&->&_).
  - left. by destruct (settle_frame p o w) as (->&_).
  - left. by destruct (settle_frame p (Rejected e) w) as (->&_).
  - left. by destruct (settle_frame (cb_target (callback tm)) (Fulfilled (cb_value (callback tm)))
                    (set_timers (delete i (timers w)) w)) as (->&_).
  - left. unfold run_job. rewrite bind_eq.
    destruct (settle_frame (j_derived j) (Fulfilled VUndefined)
      (snd (match j_outcome j with
            | Fulfilled response => assign (j_env j) "success" response
            | Rejected error => assign (j_env j) "error" error
            end (set_jobs js w)))) as (->&_).
    unfold assign. destruct (j_outcome j); wsimpl; destruct (envs w !! j_env j); done.
  - right. split_and!; try done. intros tm Hin. wsimpl.
    rewrite forallb_forall in H1. apply Z.leb_le, H1. by apply list_elem_of_In.
Qed.

Lemma slot_micro w w' c p d v :
  wf w -> (slot faulty) w c p d v -> (micro faulty) w w' -> (slot faulty) w' c p d v.
Proof.
  intros Hwf [Hown (e & Hc & Hp & Hlate)] Hm.
  pose proof (owned_micro _ _ _ _ _ Hwf Hown Hm) as Hown'.
  split; [done|].
  destruct (micro_time _ _ Hm) as [Hnow|(Hj & He & Hps & Hts & _ & Hguard)].
  - rewrite Hnow. destruct (micro_env _ _ _ _ Hwf Hm Hc) as [Hc'|(Hst & j & js & _ & _ & Hc')].
    + by exists e.
    + exists (written e (j_outcome j)). split_and!; [done|by rewrite written_promise|].
      intros Hd Hnf. rewrite (Hlate Hd Hnf) in Hst. done.
  - exists e. rewrite He. split_and!; [done..|]. intros Hd Hnf.
    destruct Hown as [[[s Hs] Htm _ _ _ Hr] Hpe].
    assert (Hst : state_at (promises w) p = Some s) by (unfold state_at; by rewrite Hs).
    destruct s as [rs|[v'|err]].
    + destruct (Hpe rs Hst Hnf) as (tm & Hin & Ht).
      destruct (Htm tm Hin Ht) as [Hdue _]. specialize (Hguard tm Hin). lia.
    + destruct (wf_status _ _ _ Hwf Hc) as [E|[E|E]]; [|done|].
      * destruct (wf_quiet _ _ _ Hwf Hj Hc E) as [rs Hrs]. congruence.
      * destruct (wf_settled _ _ _ Hwf Hc) as [_ H]. specialize (H E). congruence.
    + specialize (Hr err Hst). congruence.
Qed.

Lemma rtc_micro_wf w w' : wf w -> rtc (micro faulty) w w' -> wf w'.
Proof. intros Hwf Hr. induction Hr; [done|]. apply IHHr. by eapply micro_wf. Qed.

Lemma owned_rtc w w' p d v : wf w -> (owned faulty) w p d v -> rtc (micro faulty) w w' -> (owned faulty) w' p d v.
Proof.
  intros Hwf Hown Hr. induction Hr; [done|].
  apply IHHr; [by eapply micro_wf|by eapply owned_micro].
Qed.

Lemma slot_rtc w w' c p d v : wf w -> (slot faulty) w c p d v -> rtc (micro faulty) w w' -> (slot faulty) w' c p d v.
Proof.
  intros Hwf Hs Hr. induction Hr; [done|].
  apply IHHr; [by eapply micro_wf|by eapply slot_micro].
Qed.

(** What [read] gives on a slot. *)
Lemma slot_read w c p d v :
  wf w -> (slot faulty) w c p d v ->
  exists e, envs w !! c = Some e /\ promise e = p /\
    (forall x, fst (read c w) = Return x -> x = v) /\
    (faulty p = false ->
       status e <> "error"%string /\
       (forall err, state_at (promises w) p <> Some (Done (Rejected err))) /\
       ((now w < d)%Z ->
          (exists rs, state_at (promises w) p = Some (Pending rs)) /\
          status e = "pending"%string /\
          fst (read c w) = Throw (VPromise (suspender e))) /\
       ((d < now w)%Z ->
          state_at (promises w) p = Some (Done (Fulfilled v)) /\
          status e = "success"%string /\ result e = v /\
          fst (read c w) = Return v)).
Proof.
  intros Hwf [[[[s Hs] Htm _ _ Hf Hr] Hpe] (e & Hc & Hp & Hlate)].
  assert (Hst : state_at (promises w) p = Some s) by (unfold state_at; by rewrite Hs).
  destruct (wf_settled _ _ _ Hwf Hc) as [Hsucc Herr]. rewrite Hp in Hsucc, Herr.
  exists e. split_and!; [done..| |].
  - intros x Hx. destruct (wf_status _ _ _ Hwf Hc) as [E|[E|E]].
    + rewrite (read_pending _ _ _ Hc E) in Hx. done.
    + rewrite (read_success _ _ _ Hc E) in Hx. simpl in Hx. simplify_eq.
      destruct (Hf _ (Hsucc E)). done.
    + rewrite (read_error _ _ _ Hc E) in Hx. done.
  - intros Hnf.
    assert (Hne : status e <> "error"%string).
    { intros E. specialize (Herr E). specialize (Hr _ Herr). congruence. }
    split_and!; [done| | |].
    + intros err Herr'. specialize (Hr _ Herr'). congruence.
    + intros Hd. destruct (wf_status _ _ _ Hwf Hc) as [E|[E|E]]; [| |done].
      * split_and!; [|done|by rewrite (read_pending _ _ _ Hc E)].
        destruct s as [rs|[v'|err]]; [by exists rs| |].
        -- destruct (Hf _ Hst). lia.
        -- specialize (Hr _ Hst). congruence.
      * destruct (Hf _ (Hsucc E)). lia.
    + intros Hd. pose proof (Hlate Hd Hnf) as E.
      destruct (Hf _ (Hsucc E)) as [Hv _].
      rewrite (read_success _ _ _ Hc E), <- Hv. split_and!; try done. by apply Hsucc.
Qed.

(** An end point builds a promise that it owns. *)
Lemma spawn_owned w cb delay :
  wf w -> cb_target cb = length (promises w) -> (0 <= delay)%Z ->
  (owned faulty) (snd ((new_promise false ;; setTimeout cb delay) w))
        (length (promises w)) (now w + delay) (cb_value cb).
Proof.
  intros [_ Htm Hrx Hj _] Hcb Hd. unfold bind, new_promise, setTimeout.
  split; [split|]; unfold own_pending; wsimpl.
  - eexists. by rewrite list_lookup_middle.
  - intros tm [Hin|Hin%list_elem_of_singleton]%elem_of_app Ht.
    + destruct (Htm tm Hin). lia.
    + by subst tm.
  - intros q rs b r [Hq|[_ Hq]]%lookup_app_Some Hin.
    + destruct (Hrx _ _ _ _ Hq Hin). lia.
    + destruct (q - length (promises w)); simplify_eq/=. by apply elem_of_nil in Hin.
  - intros j Hin. destruct (Hj j Hin). lia.
  - intros v'. unfold state_at. by rewrite list_lookup_middle.
  - intros e. unfold state_at. by rewrite list_lookup_middle.
  - intros rs _ _. eexists. split; [apply elem_of_app; right; apply list_elem_of_here|].
    done.
Qed.

(** Wrapping an owned promise before it is due makes a slot. *)
Lemma subscribe_slot w p d v :
  wf w -> (owned faulty) w p d v -> (now w <= d)%Z ->
  (slot faulty) (snd (wrapPromise p w)) (length (envs w)) p d v.
Proof.
  intros Hwf Hown Hd. pose proof (owned_lt _ _ _ _ Hown) as Hlt.
  split; [by apply owned_subscribe|].
  destruct (wrapPromise_frame p w Hlt) as (_ & -> & _ & _ & -> & _).
  exists (fresh_env p (length (promises w))).
  split_and!; [by rewrite list_lookup_middle|done|]. intros. lia.
Qed.

(** An end point, seen as one transition: it logs, builds its promise and
    arms its timer. *)
Lemma fetch_spec msg arg cb delay w :
  wf w -> cb_target cb = length (promises w) -> (0 <= delay)%Z ->
  let w' := snd ((console_log msg arg ;; new_promise false ;; setTimeout cb delay) w) in
  rtc (micro faulty) w w' /\ wf w' /\ now w' = now w /\ envs w' = envs w /\
  length (promises w') = S (length (promises w)) /\
  (owned faulty) w' (length (promises w)) (now w + delay) (cb_value cb).
Proof.
  intros Hwf Hcb Hd w'.
  assert (Hr : rtc (micro faulty) w w') by by apply fetch_micro.
  split_and!; [done|by eapply rtc_micro_wf|done|done| |].
  - unfold w', bind, console_log, new_promise, setTimeout. wsimpl.
    rewrite length_app. simpl. lia.
  - apply (spawn_owned (snd (console_log msg arg w)) cb delay); done.
Qed.

Lemma fetchReviewer_spec id w :
  wf w ->
  let w' := snd (fetchReviewer id w) in
  rtc (micro faulty) w w' /\ wf w' /\ now w' = now w /\ envs w' = envs w /\
  length (promises w') = S (length (promises w)) /\
  (owned faulty) w' (length (promises w)) (now w + 300) (reviewer_data id).
Proof.
  intros Hwf.
  apply (fetch_spec "fetching code reviewer..." (Some id)
           (FetchedReviewer id (length (promises w))) 300 w); [done|done|lia].
Qed.

Lemma fetchCommentsForReviewer_spec id w :
  wf w ->
  let w' := snd (fetchCommentsForReviewer id w) in
  rtc (micro faulty) w w' /\ wf w' /\ now w' = now w /\ envs w' = envs w /\
  length (promises w') = S (length (promises w)) /\
  (owned faulty) w' (length (promises w)) (now w + 800) (comments_data id).
Proof.
  intros Hwf.
  apply (fetch_spec "fetching comments..." (Some id)
           (FetchedCommentsForReviewer id (length (promises w))) 800 w); [done|done|lia].
Qed.

Lemma fetchUsersResponseToReviewer_spec id w :
  wf w ->
  let w' := snd (fetchUsersResponseToReviewer id w) in
  rtc (micro faulty) w w' /\ wf w' /\ now w' = now w /\ envs w' = envs w /\
  length (promises w') = S (length (promises w)) /\
  (owned faulty) w' (length (promises w)) (now w + 1500) (responses_data id).
Proof.
  intros Hwf.
  apply (fetch_spec "fetching responses..." (Some id)
           (FetchedResponses id (length (promises w))) 1500 w); [done|done|lia].
Qed.

Lemma wrap_spec w p d v :
  wf w -> (owned faulty) w p d v -> (now w <= d)%Z ->
  let w' := snd (wrapPromise p w) in
  fst (wrapPromise p w) = length (envs w) /\
  rtc (micro faulty) w w' /\ wf w' /\ now w' = now w /\
  length (envs w') = S (length (envs w)) /\
  length (promises w') = S (length (promises w)) /\
  (slot faulty) w' (length (envs w)) p d v.
Proof.
  intros Hwf Hown Hd w'. pose proof (owned_lt _ _ _ _ Hown) as Hlt.
  destruct (wrapPromise_frame p w Hlt) as (Hc & Hn & _ & _ & He & Hl).
  assert (Hm : (micro faulty) w w') by by apply micro_subscribe.
  split_and!; [done|by apply rtc_once|by eapply micro_wf|done| |done|by apply subscribe_slot].
  unfold w'. rewrite He, length_app. simpl. lia.
Qed.

Lemma bind_inv {A B} (m : JS A) (k : A -> JS B) w b w' :
  bind m k w = (b, w') -> exists a w1, m w = (a, w1) /\ k a w1 = (b, w').
Proof. unfold bind. destruct (m w) as [a w1]. eauto. Qed.

Lemma ret_inv {A} (a b : A) (w w' : World) : ret a w = (b, w') -> b = a /\ w' = w.
Proof. unfold ret. intros H. by injection H. Qed.

Lemma fetchReviewer_eq id w p w' :
  wf w -> fetchReviewer id w = (p, w') ->
  p = length (promises w) /\
  rtc (micro faulty) w w' /\ wf w' /\ now w' = now w /\ envs w' = envs w /\
  length (promises w') = S (length (promises w)) /\
  (owned faulty) w' (length (promises w)) (now w + 300) (reviewer_data id).
Proof.
  intros Hwf Heq. pose proof (fetchReviewer_spec id w Hwf) as H.
  rewrite Heq in H. split; [|exact H]. by injection Heq.
Qed.

Lemma fetchCommentsForReviewer_eq id w p w' :
  wf w -> fetchCommentsForReviewer id w = (p, w') ->
  p = length (promises w) /\
  rtc (micro faulty) w w' /\ wf w' /\ now w' = now w /\ envs w' = envs w /\
  length (promises w') = S (length (promises w)) /\
  (owned faulty) w' (length (promises w)) (now w + 800) (comments_data id).
Proof.
  intros Hwf Heq. pose proof (fetchCommentsForReviewer_spec id w Hwf) as H.
  rewrite Heq in H. split; [|exact H]. by injection Heq.
Qed.

Lemma fetchUsersResponseToReviewer_eq id w p w' :
  wf w -> fetchUsersResponseToReviewer id w = (p, w') ->
  p = length (promises w) /\
  rtc (micro faulty) w w' /\ wf w' /\ now w' = now w /\ envs w' = envs w /\
  length (promises w') = S (length (promises w)) /\
  (owned faulty) w' (length (promises w)) (now w + 1500) (responses_data id).
Proof.
  intros Hwf Heq. pose proof (fetchUsersResponseToReviewer_spec id w Hwf) as H.
  rewrite Heq in H. split; [|exact H]. by injection Heq.
Qed.

Lemma wrap_eq w p d v c w' :
  wf w -> (owned faulty) w p d v -> (now w <= d)%Z -> wrapPromise p w = (c, w') ->
  c = length (envs w) /\
  rtc (micro faulty) w w' /\ wf w' /\ now w' = now w /\
  length (envs w') = S (length (envs w)) /\
  length (promises w') = S (length (promises w)) /\
  (slot faulty) w' (length (envs w)) p d v.
Proof.
  intros Hwf Hown Hd Heq. pose proof (wrap_spec w p d v Hwf Hown Hd) as H.
  rewrite Heq in H. simpl in H. destruct H as [<- H]. done.
Qed.

Lemma fetchCodeReviewerData_unfold id :
  fetchCodeReviewerData id =
  (do codeReviewerPromise <- fetchReviewer id;
   do commentsForReviewerPromise <- fetchCommentsForReviewer id;
   do responsesToReviewerPromise <- fetchUsersResponseToReviewer id;
   do r <- wrapPromise codeReviewerPromise;
   do c <- wrapPromise commentsForReviewerPromise;
   do s <- wrapPromise responsesToReviewerPromise;
   ret {| b_id := id; reviewer := r; comments := c; responses := s |}).
Proof. reflexivity. Qed.

Lemma fetchCodeReviewerData_spec id w b w' :
  wf w -> fetchCodeReviewerData id w = (b, w') ->
  b = {| b_id := id; reviewer := length (envs w); comments := S (length (envs w));
         responses := S (S (length (envs w))) |} /\
  rtc (micro faulty) w w' /\ wf w' /\ now w' = now w /\
  (slot faulty) w' (length (envs w)) (length (promises w)) (now w + 300) (reviewer_data id) /\
  (slot faulty) w' (S (length (envs w))) (S (length (promises w))) (now w + 800) (comments_data id) /\
  (slot faulty) w' (S (S (length (envs w)))) (S (S (length (promises w)))) (now w + 1500)
       (responses_data id).
Proof.
  intros Hwf Heq. rewrite fetchCodeReviewerData_unfold in Heq.
  apply bind_inv in Heq as (p1 & w1 & X1 & Heq).
  destruct (fetchReviewer_eq _ _ _ _ Hwf X1) as (-> & R1 & W1 & N1 & E1 & L1 & O1).
  apply bind_inv in Heq as (p2 & w2 & X2 & Heq).
  destruct (fetchCommentsForReviewer_eq _ _ _ _ W1 X2) as (-> & R2 & W2 & N2 & E2 & L2 & O2).
  apply bind_inv in Heq as (p3 & w3 & X3 & Heq).
  destruct (fetchUsersResponseToReviewer_eq _ _ _ _ W2 X3)
    as (-> & R3 & W3 & N3 & E3 & L3 & O3).
  clear X1 X2 X3.
  rewrite L1 in O2, L2. rewrite L2 in O3. rewrite N1 in O2. rewrite N2, N1 in O3.
  rewrite L2, L1 in Heq.
  assert (T3 : now w3 = now w) by congruence.
  assert (M3 : length (envs w3) = length (envs w)) by congruence.
  assert (O1a : (owned faulty) w3 (length (promises w)) (now w + 300) (reviewer_data id)).
  { eapply owned_rtc; [exact W1|exact O1|]. by etrans. }
  assert (O2a : (owned faulty) w3 (S (length (promises w))) (now w + 800) (comments_data id)).
  { eapply owned_rtc; [exact W2|exact O2|done]. }
  apply bind_inv in Heq as (c4 & w4 & X4 & Heq).
  destruct (wrap_eq _ _ _ _ _ _ W3 O1a ltac:(lia) X4) as (-> & R4 & W4 & N4 & E4 & L4 & S4).
  assert (O2b : (owned faulty) w4 (S (length (promises w))) (now w + 800) (comments_data id))
    by (eapply owned_rtc; [exact W3|exact O2a|done]).
  assert (O3b : (owned faulty) w4 (S (S (length (promises w)))) (now w + 1500) (responses_data id))
    by (eapply owned_rtc; [exact W3|exact O3|done]).
  apply bind_inv in Heq as (c5 & w5 & X5 & Heq).
  destruct (wrap_eq _ _ _ _ _ _ W4 O2b ltac:(lia) X5) as (-> & R5 & W5 & N5 & E5 & L5 & S5).
  assert (O3c : (owned faulty) w5 (S (S (length (promises w)))) (now w + 1500) (responses_data id))
    by (eapply owned_rtc; [exact W4|exact O3b|done]).
  apply bind_inv in Heq as (c6 & w6 & X6 & Heq).
  destruct (wrap_eq _ _ _ _ _ _ W5 O3c ltac:(lia) X6) as (-> & R6 & W6 & N6 & E6 & L6 & S6).
  clear X4 X5 X6. apply ret_inv in Heq as [-> ->].
  rewrite E5, E4, M3. rewrite E5, E4, M3 in S6. rewrite E4, M3 in S5. rewrite M3 in S4.
  split_and!.
  - reflexivity.
  - etrans; [exact R1|]. etrans; [exact R2|]. etrans; [exact R3|].
    etrans; [exact R4|]. etrans; [exact R5|]. exact R6.
  - exact W6.
  - congruence.
  - eapply slot_rtc; [exact W4|exact S4|]. by etrans.
  - eapply slot_rtc; [exact W5|exact S5|]. exact R6.
  - exact S6.
Qed.


(** *** Every step is a sequence of atomic transitions *)

Lemma run_callback_micro w i tm :
  timers w !! i = Some tm -> (due tm <= now w)%Z ->
  rtc (micro faulty) w (snd (run_callback (callback tm) (set_timers (delete i (timers w)) w))).
Proof.
  intros Hi Hdue.
  assert (Hlog : forall msg arg,
    rtc (micro faulty) w
      (snd (settle (cb_target (callback tm)) (Fulfilled (cb_value (callback tm)))
              (set_timers (delete i (timers w)) (snd (console_log msg arg w)))))).
  { intros msg arg. eapply rtc_l; [apply (micro_log _ _ msg arg)|].
    apply rtc_once. by apply (micro_fire faulty (snd (console_log msg arg w)) i tm). }
  destruct (callback tm) eqn:E; simpl in Hlog; try apply Hlog.
  apply rtc_once. pose proof (micro_fire faulty w i tm Hi Hdue) as Hm.
  rewrite E in Hm. exact Hm.
Qed.

Lemma fetchCodeReviewers_eq w p w' :
  fetchCodeReviewers w = (p, w') ->
  p = length (promises w) /\ rtc (micro faulty) w w' /\
  length (promises w') = S (length (promises w)).
Proof.
  intros Heq. pose proof (fetchCodeReviewers_micro w) as H. rewrite Heq in H.
  assert (p = length (promises w) /\ promises w' =
            promises w ++ [{| p_state := Pending []; p_open := false |}]) as [-> Hps].
  { change (fetchCodeReviewers w) with
      (length (promises w),
       snd ((console_log "fetching code reviewer..." None ;; new_promise false ;;
             setTimeout (FetchedReviewers (length (promises w))) 1000) w)) in Heq.
    injection Heq as <- <-. done. }
  rewrite Hps, length_app. simpl. split_and!; [done|done|lia].
Qed.

Lemma fetchComments_eq w p w' :
  fetchComments w = (p, w') ->
  p = length (promises w) /\ rtc (micro faulty) w w' /\
  length (promises w') = S (length (promises w)).
Proof.
  intros Heq. pose proof (fetchComments_micro w) as H. rewrite Heq in H.
  assert (p = length (promises w) /\ promises w' =
            promises w ++ [{| p_state := Pending []; p_open := false |}]) as [-> Hps].
  { change (fetchComments w) with
      (length (promises w),
       snd ((console_log "fetching comments..." None ;; new_promise false ;;
             setTimeout (FetchedComments (length (promises w))) 2000) w)) in Heq.
    injection Heq as <- <-. done. }
  rewrite Hps, length_app. simpl. split_and!; [done|done|lia].
Qed.

Lemma add3To_eq value w p w' :
  add3To value w = (p, w') ->
  p = length (promises w) /\ rtc (micro faulty) w w' /\
  length (promises w') = S (length (promises w)).
Proof.
  intros Heq. pose proof (add3To_micro value w) as H. rewrite Heq in H.
  assert (p = length (promises w) /\ promises w' =
            promises w ++ [{| p_state := Pending []; p_open := false |}]) as [-> Hps].
  { change (add3To value w) with
      (length (promises w),
       snd ((new_promise false ;; setTimeout (Added3 value (length (promises w))) 1800) w))
      in Heq.
    injection Heq as <- <-. done. }
  rewrite Hps, length_app. simpl. split_and!; [done|done|lia].
Qed.

Lemma wrapPromise_eq p w c w' :
  p < length (promises w) -> wrapPromise p w = (c, w') ->
  c = length (envs w) /\ rtc (micro faulty) w w' /\
  length (promises w') = S (length (promises w)).
Proof.
  intros Hp Heq. destruct (wrapPromise_frame p w Hp) as (Hc & _ & _ & _ & _ & Hl).
  pose proof (micro_subscribe faulty w p Hp) as Hm.
  rewrite Heq in Hc, Hl, Hm. split_and!; [done|by apply rtc_once|done].
Qed.

Lemma fetchCodeReviewData_unfold :
  fetchCodeReviewData =
  (do codeReviewersPromise <- fetchCodeReviewers;
   do commentsPromise <- fetchComments;
   do r <- wrapPromise codeReviewersPromise;
   do c <- wrapPromise commentsPromise;
   ret {| reviewers := r; all_comments := c |}).
Proof. reflexivity. Qed.

Lemma fetchCodeReviewData_micro w : rtc (micro faulty) w (snd (fetchCodeReviewData w)).
Proof.
  destruct (fetchCodeReviewData w) as [b w'] eqn:Heq. rewrite fetchCodeReviewData_unfold in Heq.
  apply bind_inv in Heq as (p1 & w1 & X1 & Heq).
  destruct (fetchCodeReviewers_eq _ _ _ X1) as (-> & R1 & L1).
  apply bind_inv in Heq as (p2 & w2 & X2 & Heq).
  destruct (fetchComments_eq _ _ _ X2) as (-> & R2 & L2).
  apply bind_inv in Heq as (c3 & w3 & X3 & Heq).
  assert (H3 : length (promises w) < length (promises w2)) by lia.
  destruct (wrapPromise_eq _ _ _ _ H3 X3) as (-> & R3 & L3).
  apply bind_inv in Heq as (c4 & w4 & X4 & Heq).
  assert (H4 : length (promises w1) < length (promises w3)) by lia.
  destruct (wrapPromise_eq _ _ _ _ H4 X4) as (-> & R4 & L4).
  apply ret_inv in Heq as [-> ->]. simpl.
  etrans; [exact R1|]. etrans; [exact R2|]. etrans; [exact R3|]. exact R4.
Qed.

Lemma getAdd3ToResource_unfold value :
  getAdd3ToResource value = (do p <- add3To value; wrapPromise p).
Proof. reflexivity. Qed.

Lemma getAdd3ToResource_micro value w :
  rtc (micro faulty) w (snd (getAdd3ToResource value w)).
Proof.
  destruct (getAdd3ToResource value w) as [b w'] eqn:Heq.
  rewrite getAdd3ToResource_unfold in Heq.
  apply bind_inv in Heq as (p1 & w1 & X1 & Heq).
  destruct (add3To_eq _ _ _ _ X1) as (-> & R1 & L1).
  assert (H2 : length (promises w) < length (promises w1)) by lia.
  destruct (wrapPromise_eq _ _ _ _ H2 Heq) as (-> & R2 & L2). simpl.
  etrans; [exact R1|]. exact R2.
Qed.

Lemma fetchCodeReviewerData_micro id w :
  wf w -> rtc (micro faulty) w (snd (fetchCodeReviewerData id w)).
Proof.
  intros Hwf. destruct (fetchCodeReviewerData id w) as [b w'] eqn:Heq.
  by destruct (fetchCodeReviewerData_spec _ _ _ _ Hwf Heq) as (_ & R & _).
Qed.

Lemma invoke_micro c w w' : wf w -> invoke c w = Some w' -> rtc (micro faulty) w w'.
Proof.
  intros Hwf Hc. destruct c; simpl in Hc.
  - destruct (Nat.ltb_spec p (length (promises w))); simplify_eq.
    apply rtc_once. by apply micro_subscribe.
  - simplify_eq. by rewrite read_inert.
  - simplify_eq. apply fetchCodeReviewers_micro.
  - simplify_eq. apply fetchComments_micro.
  - simplify_eq. apply fetchReviewer_micro.
  - simplify_eq. apply fetchCommentsForReviewer_micro.
  - simplify_eq. apply fetchCodeReviewData_micro.
  - simplify_eq. by apply fetchCodeReviewerData_micro.
  - simplify_eq. apply add3To_micro.
  - simplify_eq. apply getAdd3ToResource_micro.
Qed.

Lemma step_micro a w w' : wf w -> step faulty a w = Some w' -> rtc (micro faulty) w w'.
Proof.
  intros Hwf Hs. destruct a; simpl in Hs.
  - destruct (_ && _) eqn:G; simplify_eq.
    apply andb_prop in G as [[G1%Z.leb_le G2]%andb_prop G3].
    apply rtc_once, micro_advance; [done| |done].
    unfold no_jobs in G2. by destruct (jobs w).
  - destruct (timers w !! i) as [tm|] eqn:Hi; [|done].
    destruct (Z.leb_spec (due tm) (now w)); simplify_eq.
    by apply run_callback_micro.
  - destruct (jobs w) as [|j js] eqn:Hj; simplify_eq.
    apply rtc_once. by apply micro_handler.
  - simplify_eq. apply rtc_once, micro_new.
  - destruct (_ && _) eqn:G; simplify_eq. apply andb_prop in G as [G _].
    apply rtc_once. by apply micro_settle.
  - destruct (is_open w p) eqn:G; simplify_eq. apply rtc_once. by apply micro_settle.
  - destruct (faulty p) eqn:G; simplify_eq. apply rtc_once. by apply micro_fail.
  - by eapply invoke_micro.
Qed.

Lemma wf_empty : wf empty_world.
Proof.
  split; simpl.
  - intros tm Hin. by apply elem_of_nil in Hin.
  - intros tm Hin. by apply elem_of_nil in Hin.
  - intros q rs b r Hq. by rewrite lookup_nil in Hq.
  - intros j Hin. by apply elem_of_nil in Hin.
  - intros c e Hc. by rewrite lookup_nil in Hc.
Qed.

Lemma run_micro acts w w' : wf w -> run faulty acts w = Some w' -> rtc (micro faulty) w w'.
Proof.
  revert w. induction acts as [|a acts IH]; intros w Hwf Hr; simpl in Hr.
  - by simplify_eq.
  - destruct (step faulty a w) as [w1|] eqn:Hs; [|done].
    pose proof (step_micro _ _ _ Hwf Hs) as H1.
    etrans; [exact H1|]. apply IH; [|done]. by eapply rtc_micro_wf.
Qed.

Lemma run_wf acts w w' : wf w -> run faulty acts w = Some w' -> wf w'.
Proof. intros Hwf Hr. eapply rtc_micro_wf; [done|]. by eapply run_micro. Qed.

Lemma reachable_wf w : reachable faulty w -> wf w.
Proof. intros [acts Hr]. eapply run_wf; [apply wf_empty|done]. Qed.

Lemma run_app acts1 acts2 w w1 w2 :
  run faulty acts1 w = Some w1 -> run faulty acts2 w1 = Some w2 ->
  run faulty (acts1 ++ acts2) w = Some w2.
Proof.
  revert w. induction acts1 as [|a acts1 IH]; intros w H1 H2; simpl in *.
  - by simplify_eq.
  - destruct (step faulty a w); [|done]. by apply IH.
Qed.

Lemma reachable_run acts w w' :
  reachable faulty w -> run faulty acts w = Some w' -> reachable faulty w'.
Proof. intros [pre Hpre] Hr. exists (pre ++ acts). by eapply run_app. Qed.

End Invariants.

(** ** The resource contract of [wrapPromise] *)

Section Resource.

Variable faulty : nat -> bool.

(** Along any sequence of atomic transitions an environment keeps its
    promise and its suspender, and is frozen once its status has left
    "pending". *)
Lemma env_rtc w w' c e :
  wf w -> rtc (micro faulty) w w' -> envs w !! c = Some e ->
  exists e', envs w' !! c = Some e' /\ promise e' = promise e /\
             suspender e' = suspender e /\
             (status e <> "pending"%string -> e' = e).
Proof.
  intros Hwf Hr. revert e. induction Hr as [w|w w1 w' Hm Hr IH]; intros e Hc.
  - by exists e.
  - pose proof (micro_wf _ _ _ Hwf Hm) as Hwf1.
    destruct (micro_env faulty _ _ _ _ Hwf Hm Hc) as [Hc1|(Hst & j & js & _ & _ & Hc1)].
    + by apply IH.
    + destruct (IH Hwf1 _ Hc1) as (e' & He' & Hp & Hs & _).
      exists e'. rewrite written_promise in Hp. rewrite written_suspender in Hs.
      split_and!; [done..|]. intros Hne. done.
Qed.

Lemma env_run acts w w' c e :
  wf w -> run faulty acts w = Some w' -> envs w !! c = Some e ->
  exists e', envs w' !! c = Some e' /\ promise e' = promise e /\
             suspender e' = suspender e /\
             (status e <> "pending"%string -> e' = e).
Proof. intros Hwf Hr. eapply env_rtc; [done|]. by eapply run_micro. Qed.

(** What [read] does in a well-formed world. *)
Lemma read_wf w c e :
  wf w -> envs w !! c = Some e ->
  (status e = "pending"%string /\ read c w = (Throw (VPromise (suspender e)), w))
  \/ (status e = "error"%string /\ read c w = (Throw (result e), w))
  \/ (status e = "success"%string /\ read c w = (Return (result e), w)).
Proof.
  intros Hwf Hc. destruct (wf_status _ _ _ Hwf Hc) as [E|[E|E]].
  - left. split; [done|]. by apply read_pending.
  - right; right. split; [done|]. by apply read_success.
  - right; left. split; [done|]. by apply read_error.
Qed.

Lemma wrapPromise_start p w c w' :
  wf w -> p < length (promises w) -> wrapPromise p w = (c, w') ->
  wf w' /\ c = length (envs w) /\
  envs w' !! c = Some (fresh_env p (length (promises w))) /\
  timers w' = timers w /\ console w' = console w /\ now w' = now w.
Proof.
  intros Hwf Hp Heq. pose proof (wf_wrapPromise p w Hwf Hp) as Hwf'.
  destruct (wrapPromise_frame p w Hp) as (Hc & Hn & Ht & Hl & He & _).
  rewrite Heq in Hwf', Hc, Hn, Ht, Hl, He. simpl in *. subst c.
  split_and!; try done. rewrite He. by rewrite list_lookup_middle.
Qed.

(** C1. For every promise [p] and every call of [read] on the resource that
    [wrapPromise p] returned: while the status is "pending" -- in
    particular while [p] has not settled -- [read] throws the suspender, the
    promise that [then] returned; with status "error" the promise was
    rejected and [read] throws the stored reason; with status "success" the
    promise was fulfilled and [read] returns the stored value. In each case
    the world is left as it was. Once the microtask queue is empty the
    status has caught up with the promise. *)
Theorem C1_read_contract w0 p c w1 acts w :
  reachable faulty w0 -> p < length (promises w0) ->
  wrapPromise p w0 = (c, w1) -> run faulty acts w1 = Some w ->
  exists e, envs w !! c = Some e /\ promise e = p /\ suspender e = length (promises w0) /\
    (status e = "pending"%string -> read c w = (Throw (VPromise (suspender e)), w)) /\
    (status e = "error"%string ->
       state_at (promises w) p = Some (Done (Rejected (result e))) /\
       read c w = (Throw (result e), w)) /\
    (status e = "success"%string ->
       state_at (promises w) p = Some (Done (Fulfilled (result e))) /\
       read c w = (Return (result e), w)) /\
    ((exists rs, state_at (promises w) p = Some (Pending rs)) ->
       read c w = (Throw (VPromise (suspender e)), w)) /\
    (jobs w = [] -> forall r, state_at (promises w) p = Some (Done (Rejected r)) ->
       read c w = (Throw r, w)) /\
    (jobs w = [] -> forall v, state_at (promises w) p = Some (Done (Fulfilled v)) ->
       read c w = (Return v, w)).
Proof.
  intros Hreach Hp Hwrap Hrun. pose proof (reachable_wf _ _ Hreach) as Hwf0.
  destruct (wrapPromise_start _ _ _ _ Hwf0 Hp Hwrap) as (Hwf1 & -> & Hc1 & _).
  pose proof (run_wf _ _ _ _ Hwf1 Hrun) as Hwf.
  destruct (env_run _ _ _ _ _ Hwf1 Hrun Hc1) as (e & Hc & Hpe & Hse & _).
  simpl in Hpe, Hse. exists e.
  destruct (wf_settled _ _ _ Hwf Hc) as [Hsucc Herr]. rewrite Hpe in Hsucc, Herr.
  assert (Hquiet : jobs w = [] -> forall o, state_at (promises w) p = Some (Done o) ->
            status e <> "pending"%string).
  { intros Hj o Ho E. destruct (wf_quiet _ _ _ Hwf Hj Hc E) as [rs Hrs]. congruence. }
  split_and!; try done.
  - intros E. by apply read_pending.
  - intros E. split; [by apply Herr|by apply read_error].
  - intros E. split; [by apply Hsucc|by apply read_success].
  - intros [rs Hrs]. destruct (read_wf _ _ _ Hwf Hc) as [[_ H]|[[E _]|[E _]]]; [done| |].
    + specialize (Herr E). congruence.
    + specialize (Hsucc E). congruence.
  - intros Hj r Hr. destruct (read_wf _ _ _ Hwf Hc) as [[E _]|[[E H]|[E _]]].
    + by destruct (Hquiet Hj _ Hr).
    + specialize (Herr E). rewrite H. congruence.
    + specialize (Hsucc E). congruence.
  - intros Hj v Hv. destruct (read_wf _ _ _ Hwf Hc) as [[E _]|[[E _]|[E H]]].
    + by destruct (Hquiet Hj _ Hv).
    + specialize (Herr E). congruence.
    + specialize (Hsucc E). rewrite H. congruence.
Qed.

End Resource.

(** ** Who writes the variables of an environment *)

Lemma wrapPromise_any p w :
  envs (snd (wrapPromise p w)) = envs w ++ [fresh_env p (length (promises w))] /\
  timers (snd (wrapPromise p w)) = timers w /\
  console (snd (wrapPromise p w)) = console w /\
  now (snd (wrapPromise p w)) = now w /\
  length (promises (snd (wrapPromise p w))) = S (length (promises w)) /\
  fst (wrapPromise p w) = length (envs w).
Proof.
  unfold wrapPromise, promise_then, bind, new_promise. simpl.
  destruct ((promises w ++ [{| p_state := Pending []; p_open := false |}]) !! p)
    as [[[rs|o] b]|]; simpl; rewrite ?length_insert, length_app; simpl;
    split_and!; try done; lia.
Qed.

Lemma grows_bind {A B} (m : JS A) (k : A -> JS B) :
  (forall w, exists l, envs (snd (m w)) = envs w ++ l) ->
  (forall a w, exists l, envs (snd (k a w)) = envs w ++ l) ->
  forall w, exists l, envs (snd (bind m k w)) = envs w ++ l.
Proof.
  intros Hm Hk w. rewrite bind_eq. destruct (Hm w) as [l1 H1].
  destruct (Hk (fst (m w)) (snd (m w))) as [l2 H2].
  exists (l1 ++ l2). by rewrite H2, H1, app_assoc.
Qed.

Lemma grows_same {A} (m : JS A) :
  (forall w, envs (snd (m w)) = envs w) ->
  forall w, exists l, envs (snd (m w)) = envs w ++ l.
Proof. intros H w. exists []. by rewrite app_nil_r. Qed.

Lemma grows_settle p o w : exists l, envs (snd (settle p o w)) = envs w ++ l.
Proof.
  apply (grows_same (settle p o)). intros w1. by destruct (settle_frame p o w1) as (_&->&_).
Qed.

Lemma grows_wrapPromise p w : exists l, envs (snd (wrapPromise p w)) = envs w ++ l.
Proof. destruct (wrapPromise_any p w) as [-> _]. eauto. Qed.

Lemma grows_fetchCodeReviewers w : exists l, envs (snd (fetchCodeReviewers w)) = envs w ++ l.
Proof. by apply (grows_same fetchCodeReviewers). Qed.
Lemma grows_fetchComments w : exists l, envs (snd (fetchComments w)) = envs w ++ l.
Proof. by apply (grows_same fetchComments). Qed.
Lemma grows_fetchReviewer id w : exists l, envs (snd (fetchReviewer id w)) = envs w ++ l.
Proof. by apply (grows_same (fetchReviewer id)). Qed.
Lemma grows_fetchCommentsForReviewer id w :
  exists l, envs (snd (fetchCommentsForReviewer id w)) = envs w ++ l.
Proof. by apply (grows_same (fetchCommentsForReviewer id)). Qed.
Lemma grows_fetchUsersResponseToReviewer id w :
  exists l, envs (snd (fetchUsersResponseToReviewer id w)) = envs w ++ l.
Proof. by apply (grows_same (fetchUsersResponseToReviewer id)). Qed.
Lemma grows_add3To value w : exists l, envs (snd (add3To value w)) = envs w ++ l.
Proof. by apply (grows_same (add3To value)). Qed.

Lemma grows_ret {A} (a : A) w : exists l, envs (snd (ret a w)) = envs w ++ l.
Proof. by apply (grows_same (ret a)). Qed.

Lemma grows_fetchCodeReviewData w :
  exists l, envs (snd (fetchCodeReviewData w)) = envs w ++ l.
Proof.
  rewrite fetchCodeReviewData_unfold. revert w.
  apply grows_bind; [apply grows_fetchCodeReviewers|intros p1].
  apply grows_bind; [apply grows_fetchComments|intros p2].
  apply grows_bind; [apply grows_wrapPromise|intros c1].
  apply grows_bind; [apply grows_wrapPromise|intros c2].
  apply grows_ret.
Qed.

Lemma grows_fetchCodeReviewerData id w :
  exists l, envs (snd (fetchCodeReviewerData id w)) = envs w ++ l.
Proof.
  rewrite fetchCodeReviewerData_unfold. revert w.
  apply grows_bind; [apply grows_fetchReviewer|intros p1].
  apply grows_bind; [apply grows_fetchCommentsForReviewer|intros p2].
  apply grows_bind; [apply grows_fetchUsersResponseToReviewer|intros p3].
  apply grows_bind; [apply grows_wrapPromise|intros c1].
  apply grows_bind; [apply grows_wrapPromise|intros c2].
  apply grows_bind; [apply grows_wrapPromise|intros c3].
  apply grows_ret.
Qed.

Lemma grows_getAdd3ToResource value w :
  exists l, envs (snd (getAdd3ToResource value w)) = envs w ++ l.
Proof.
  rewrite getAdd3ToResource_unfold. revert w.
  apply grows_bind; [apply grows_add3To|intros p1]. apply grows_wrapPromise.
Qed.

Lemma grows_run_callback cb w : exists l, envs (snd (run_callback cb w)) = envs w ++ l.
Proof.
  destruct cb; simpl; try apply grows_settle;
    (revert w; apply grows_bind; [by apply grows_same|intros []; apply grows_settle]).
Qed.

(** Every action but the reaction job leaves the existing environments
    alone. *)
Lemma step_grows faulty a w w' :
  a <> RunJob -> step faulty a w = Some w' -> exists l, envs w' = envs w ++ l.
Proof.
  intros Ha Hs. destruct a; simpl in Hs; try done.
  - destruct (_ && _); simplify_eq. exists []. by rewrite app_nil_r.
  - destruct (timers w !! i) as [tm|]; [|done]. destruct (_ <=? _)%Z; simplify_eq.
    apply (grows_run_callback (callback tm) (set_timers (delete i (timers w)) w)).
  - simplify_eq. exists []. by rewrite app_nil_r.
  - destruct (_ && _); simplify_eq. apply grows_settle.
  - destruct (is_open w p); simplify_eq. apply grows_settle.
  - destruct (faulty p); simplify_eq. apply grows_settle.
  - destruct c; simpl in Hs; simplify_eq.
    + destruct (_ <? _); simplify_eq. apply grows_wrapPromise.
    + rewrite read_inert. exists []. by rewrite app_nil_r.
    + apply grows_fetchCodeReviewers.
    + apply grows_fetchComments.
    + apply grows_fetchReviewer.
    + apply grows_fetchCommentsForReviewer.
    + apply grows_fetchCodeReviewData.
    + apply grows_fetchCodeReviewerData.
    + apply grows_add3To.
    + apply grows_getAdd3ToResource.
Qed.

Lemma step_env faulty a w w' c e :
  wf w -> step faulty a w = Some w' -> envs w !! c = Some e ->
  envs w' !! c = Some e \/
  (a = RunJob /\ status e = "pending"%string /\
   exists j js, jobs w = j :: js /\ j_env j = c /\
                envs w' !! c = Some (written e (j_outcome j))).
Proof.
  intros Hwf Hs Hc.
  assert (a = RunJob \/ a <> RunJob) as [->|Hne] by (destruct a; (by left) || (by right)).
  - simpl in Hs. destruct (jobs w) as [|j js] eqn:Hj; simplify_eq.
    destruct (micro_env faulty w _ c e Hwf (micro_handler faulty w j js Hj) Hc)
      as [H|(Hst & j' & js' & Hj' & Hc' & H)]; [by left|].
    right. split; [done|]. split; [done|]. exists j', js'.
    split_and!; [congruence|done|done].
  - left. destruct (step_grows _ _ _ _ Hne Hs) as [l ->].
    rewrite lookup_app_l; [done|]. by eapply lookup_lt_Some.
Qed.

(** While the promise is settled and the status still "pending", the
    reaction job of the environment is in the microtask queue. *)
Lemma wf_pending_job w c e o :
  wf w -> envs w !! c = Some e -> status e = "pending"%string ->
  state_at (promises w) (promise e) = Some (Done o) ->
  exists j, j ∈ jobs w /\ j_env j = c /\ j_outcome j = o.
Proof.
  intros [_ _ Hrx Hjob He] Hc Hst Ho.
  destruct (He c e Hc) as [(_&_&Hs)|[(?&_)|(?&_)]]; [|congruence..].
  unfold subs in Hs.
  destruct (Nat.eq_dec (heap_subs c (promises w)) 0) as [H0|H0].
  - destruct (count_witness (fun j => j_env j =? c) (jobs w)) as (j & Hj & Hjc).
    { unfold queue_subs in Hs. lia. }
    apply Nat.eqb_eq in Hjc. exists j. split_and!; [done..|].
    destruct (Hjob j Hj) as (_ & e' & He' & _ & Hd). rewrite Hjc, Hc in He'.
    injection He' as <-. congruence.
  - destruct (heap_subs_witness c (promises w)) as (q & [[rs|o'] b] & r & Hq & Hr & Hrc);
      [lia| |].
    + unfold reactions_of in Hr. cbn [p_state] in Hr.
      destruct (Hrx _ _ _ _ Hq Hr) as (_ & e' & He' & Hpe & _). rewrite Hrc, Hc in He'.
      injection He' as <-. unfold state_at in Ho. rewrite Hpe, Hq in Ho. done.
    + unfold reactions_of in Hr. cbn [p_state] in Hr. by apply elem_of_nil in Hr.
Qed.

(** The variables of an environment are those [wrapPromise] gave them, or
    those one of its two handlers wrote for the outcome of its promise. *)
Lemma wf_env_shape w c e :
  wf w -> envs w !! c = Some e ->
  e = fresh_env (promise e) (suspender e) \/
  exists o, state_at (promises w) (promise e) = Some (Done o) /\
            e = written (fresh_env (promise e) (suspender e)) o.
Proof.
  intros [_ _ _ _ He] Hc.
  destruct (He c e Hc) as [(Hs&Hr&_)|[(Hs&Hd&_)|(Hs&Hd&_)]]; destruct e as [p s r d];
    cbn [status result promise suspender] in *; subst.
  - by left.
  - right. by exists (Fulfilled r).
  - right. by exists (Rejected r).
Qed.

Section Lifecycle.

Variable faulty : nat -> bool.

Lemma env_frozen acts w w' c e :
  wf w -> run faulty acts w = Some w' -> envs w !! c = Some e ->
  status e <> "pending"%string -> envs w' !! c = Some e.
Proof.
  intros Hwf Hr Hc Hne. destruct (env_run faulty _ _ _ _ _ Hwf Hr Hc) as (e' & He' & _ & _ & H).
  by rewrite He', (H Hne).
Qed.

(** The reaction job at the head of the queue runs one of the two
    handlers of its environment: status and result are written. *)
Lemma head_job_writes w j js e :
  wf w -> jobs w = j :: js -> envs w !! j_env j = Some e ->
  status e = "pending"%string /\
  state_at (promises w) (promise e) = Some (Done (j_outcome j)) /\
  exists w', step faulty RunJob w = Some w' /\
    envs w' !! j_env j = Some (written e (j_outcome j)).
Proof.
  intros Hwf Hj He. pose proof Hwf as Hwf'. unfold wf in Hwf'. rewrite Hj in Hwf'.
  destruct (WF_head_pending _ _ _ _ _ _ Hwf') as (e0 & He0 & Hst & _ & _ & Hd & _).
  rewrite He in He0. injection He0 as <-. split_and!; [done..|].
  eexists. split; [cbn [step]; rewrite Hj; reflexivity|].
  rewrite (run_job_eq _ _ _ _ Hj He).
  match goal with |- envs (snd (settle ?d ?o ?w1)) !! _ = _ =>
    destruct (settle_frame d o w1) as (_ & -> & _)
  end.
  wsimpl. apply list_lookup_insert_eq. by eapply lookup_lt_Some.
Qed.

(** C3. The status of a resource starts as "pending" and is one of
    "pending", "success", "error" ever after. A step changes the variables
    of the resource only if it is the reaction job of this very resource,
    run while the status is "pending"; it then writes "success" with the
    value or "error" with the reason. Once the status is not "pending", no
    run of the system changes status or result again. The write does
    happen: when the reaction job of the resource is the next microtask,
    the promise is settled, the status is still "pending", and running the
    job leaves the variables as the handler for that outcome writes them.
    So at any time the variables are either the initial ones or the ones
    written for the outcome of the promise; while the promise is settled
    and the status still "pending" the job is in the queue, and once the
    queue is empty the variables are the written ones. *)
Theorem C3_status_monotone w0 p c w1 acts w :
  reachable faulty w0 -> p < length (promises w0) ->
  wrapPromise p w0 = (c, w1) -> run faulty acts w1 = Some w ->
  envs w1 !! c = Some (fresh_env p (length (promises w0))) /\
  exists e, envs w !! c = Some e /\
    (status e = "pending"%string \/ status e = "success"%string \/
     status e = "error"%string) /\
    (forall a w', step faulty a w = Some w' ->
       envs w' !! c = Some e \/
       (a = RunJob /\ status e = "pending"%string /\
        exists j js, jobs w = j :: js /\ j_env j = c /\
          envs w' !! c = Some (written e (j_outcome j)) /\
          status (written e (j_outcome j)) <> "pending"%string)) /\
    (status e <> "pending"%string ->
       forall acts' w', run faulty acts' w = Some w' -> envs w' !! c = Some e) /\
    (forall j js, jobs w = j :: js -> j_env j = c ->
       status e = "pending"%string /\
       state_at (promises w) p = Some (Done (j_outcome j)) /\
       exists w', step faulty RunJob w = Some w' /\
         envs w' !! c = Some (written e (j_outcome j)) /\
         status (written e (j_outcome j)) <> "pending"%string) /\
    (e = fresh_env p (length (promises w0)) \/
     exists o, state_at (promises w) p = Some (Done o) /\
               e = written (fresh_env p (length (promises w0))) o) /\
    (forall o, state_at (promises w) p = Some (Done o) ->
       (status e = "pending"%string ->
          exists j, j ∈ jobs w /\ j_env j = c /\ j_outcome j = o) /\
       (jobs w = [] -> e = written (fresh_env p (length (promises w0))) o)).
Proof.
  intros Hreach Hp Hwrap Hrun. pose proof (reachable_wf _ _ Hreach) as Hwf0.
  destruct (wrapPromise_start _ _ _ _ Hwf0 Hp Hwrap) as (Hwf1 & -> & Hc1 & _).
  pose proof (run_wf _ _ _ _ Hwf1 Hrun) as Hwf.
  destruct (env_run faulty _ _ _ _ _ Hwf1 Hrun Hc1) as (e & Hc & Hpe & Hse & _).
  cbn [fresh_env promise suspender] in Hpe, Hse.
  assert (Hshape : e = fresh_env p (length (promises w0)) \/
     exists o, state_at (promises w) p = Some (Done o) /\
               e = written (fresh_env p (length (promises w0))) o).
  { destruct (wf_env_shape _ _ _ Hwf Hc) as [H|(o & Ho & H)]; rewrite Hpe, Hse in *; eauto. }
  split; [done|]. exists e. split_and!; [done|by eapply wf_status| | | |done|].
  - intros a w' Hs.
    destruct (step_env _ _ _ _ _ _ Hwf Hs Hc) as [H|(Ha & Hst & j & js & Hj & Hjc & H)];
      [by left|]. subst a.
    right. split_and!; [done..|]. exists j, js. split_and!; [done..|].
    by destruct (j_outcome j).
  - intros Hne acts' w' Hr'. by eapply env_frozen.
  - intros j js Hj Hjc. rewrite <- Hjc in Hc.
    destruct (head_job_writes _ _ _ _ Hwf Hj Hc) as (Hst & Hd & w' & Hs & Hw).
    rewrite Hpe in Hd. split_and!; [done..|]. exists w'. rewrite <- Hjc.
    split_and!; [done..|]. by destruct (j_outcome j).
  - intros o Ho. split.
    + intros Hst. rewrite <- Hpe in Ho. by eapply wf_pending_job.
    + intros Hj. destruct Hshape as [->|(o' & Ho' & ->)]; [|congruence].
      rewrite <- Hpe in Ho. cbn [fresh_env promise] in Ho.
      destruct (wf_pending_job _ _ _ _ Hwf Hc eq_refl Ho) as (j & Hin & _).
      rewrite Hj in Hin. by apply elem_of_nil in Hin.
Qed.
(** C8. In every reachable world the status of every resource is one of
    the three strings that the if / else-if chain of [read] tests, so the
    end of its body is never reached: [read] throws the suspender, throws
    the stored reason, or returns the stored result. *)
Theorem C8_read_exhaustive w c e :
  reachable faulty w -> envs w !! c = Some e ->
  falls_through e = false /\
  ((status e = "pending"%string /\ read c w = (Throw (VPromise (suspender e)), w))
   \/ (status e = "error"%string /\ read c w = (Throw (result e), w))
   \/ (status e = "success"%string /\ read c w = (Return (result e), w))).
Proof.
  intros Hreach Hc. pose proof (reachable_wf _ _ Hreach) as Hwf.
  split; [|by apply read_wf].
  unfold falls_through. by destruct (wf_status _ _ _ Hwf Hc) as [E|[E|E]]; rewrite E.
Qed.

Lemma read_many_const n c w r :
  read c w = (r, w) -> read_many n c w = (repeat r n, w).
Proof.
  intros Hr. induction n as [|n IH]; simpl; [done|].
  unfold bind. rewrite Hr. fold (read_many n c). rewrite IH. done.
Qed.

(** C4. Once a resource has left "pending", any number of calls of [read],
    now or after any further run of the system, give the same completion
    -- the stored value returned, or the stored reason thrown -- and leave
    the world unchanged. *)
Theorem C4_read_idempotent w c e :
  reachable faulty w -> envs w !! c = Some e -> status e <> "pending"%string ->
  exists r,
    ((status e = "success"%string /\ r = Return (result e))
     \/ (status e = "error"%string /\ r = Throw (result e))) /\
    (forall n, read_many n c w = (repeat r n, w)) /\
    (forall acts w', run faulty acts w = Some w' ->
       forall n, read_many n c w' = (repeat r n, w')).
Proof.
  intros Hreach Hc Hne. pose proof (reachable_wf _ _ Hreach) as Hwf.
  assert (Hlater : forall acts w', run faulty acts w = Some w' ->
            wf w' /\ envs w' !! c = Some e).
  { intros acts w' Hr. split; [by eapply run_wf|by eapply env_frozen]. }
  destruct (read_wf _ _ _ Hwf Hc) as [[E _]|[[E H]|[E H]]]; [done| |].
  - exists (Throw (result e)). split_and!; [by right|by intros; apply read_many_const|].
    intros acts w' Hr n. destruct (Hlater _ _ Hr) as [Hwf' Hc'].
    apply read_many_const. by apply read_error.
  - exists (Return (result e)). split_and!; [by left|by intros; apply read_many_const|].
    intros acts w' Hr n. destruct (Hlater _ _ Hr) as [Hwf' Hc'].
    apply read_many_const. by apply read_success.
Qed.

End Lifecycle.

(** ** The bundle of the reviewer-details page *)

Lemma fetchReviewer_frame id w p w' :
  fetchReviewer id w = (p, w') ->
  p = length (promises w) /\
  timers w' = timers w ++ [{| due := (now w + 300)%Z; callback := FetchedReviewer id p |}] /\
  console w' = console w ++ [("fetching code reviewer..."%string, Some id)] /\
  now w' = now w /\ length (promises w') = S (length (promises w)).
Proof.
  intros Heq. unfold fetchReviewer, bind, console_log, new_promise, setTimeout, ret in Heq.
  simpl in Heq. injection Heq as <- <-. simpl. rewrite length_app. simpl.
  split_and!; try done. lia.
Qed.

Lemma fetchCommentsForReviewer_frame id w p w' :
  fetchCommentsForReviewer id w = (p, w') ->
  p = length (promises w) /\
  timers w' = timers w ++
    [{| due := (now w + 800)%Z; callback := FetchedCommentsForReviewer id p |}] /\
  console w' = console w ++ [("fetching comments..."%string, Some id)] /\
  now w' = now w /\ length (promises w') = S (length (promises w)).
Proof.
  intros Heq.
  unfold fetchCommentsForReviewer, bind, console_log, new_promise, setTimeout, ret in Heq.
  simpl in Heq. injection Heq as <- <-. simpl. rewrite length_app. simpl.
  split_and!; try done. lia.
Qed.

Lemma fetchUsersResponseToReviewer_frame id w p w' :
  fetchUsersResponseToReviewer id w = (p, w') ->
  p = length (promises w) /\
  timers w' = timers w ++ [{| due := (now w + 1500)%Z; callback := FetchedResponses id p |}] /\
  console w' = console w ++ [("fetching responses..."%string, Some id)] /\
  now w' = now w /\ length (promises w') = S (length (promises w)).
Proof.
  intros Heq.
  unfold fetchUsersResponseToReviewer, bind, console_log, new_promise, setTimeout, ret in Heq.
  simpl in Heq. injection Heq as <- <-. simpl. rewrite length_app. simpl.
  split_and!; try done. lia.
Qed.

Lemma wrapPromise_frame_eq p w c w' :
  wrapPromise p w = (c, w') ->
  timers w' = timers w /\ console w' = console w /\ now w' = now w.
Proof.
  intros Heq. destruct (wrapPromise_any p w) as (_ & Ht & Hl & Hn & _).
  rewrite Heq in Ht, Hl, Hn. done.
Qed.

(** The bundle builder starts the three operations when it is called: it
    logs three lines and arms three timers, one per promise. *)
Lemma fetchCodeReviewerData_frame id w b w' :
  fetchCodeReviewerData id w = (b, w') ->
  b_id b = id /\
  timers w' = timers w ++
    [ {| due := (now w + 300)%Z; callback := FetchedReviewer id (length (promises w)) |};
      {| due := (now w + 800)%Z;
         callback := FetchedCommentsForReviewer id (S (length (promises w))) |};
      {| due := (now w + 1500)%Z;
         callback := FetchedResponses id (S (S (length (promises w)))) |} ] /\
  console w' = console w ++
    [ ("fetching code reviewer..."%string, Some id);
      ("fetching comments..."%string, Some id);
      ("fetching responses..."%string, Some id) ].
Proof.
  intros Heq. rewrite fetchCodeReviewerData_unfold in Heq.
  apply bind_inv in Heq as (p1 & w1 & X1 & Heq).
  destruct (fetchReviewer_frame _ _ _ _ X1) as (-> & T1 & C1 & N1 & L1).
  apply bind_inv in Heq as (p2 & w2 & X2 & Heq).
  destruct (fetchCommentsForReviewer_frame _ _ _ _ X2) as (-> & T2 & C2 & N2 & L2).
  apply bind_inv in Heq as (p3 & w3 & X3 & Heq).
  destruct (fetchUsersResponseToReviewer_frame _ _ _ _ X3) as (-> & T3 & C3 & N3 & L3).
  apply bind_inv in Heq as (c4 & w4 & X4 & Heq).
  destruct (wrapPromise_frame_eq _ _ _ _ X4) as (T4 & C4 & _).
  apply bind_inv in Heq as (c5 & w5 & X5 & Heq).
  destruct (wrapPromise_frame_eq _ _ _ _ X5) as (T5 & C5 & _).
  apply bind_inv in Heq as (c6 & w6 & X6 & Heq).
  destruct (wrapPromise_frame_eq _ _ _ _ X6) as (T6 & C6 & _).
  apply ret_inv in Heq as [-> ->]. simpl.
  rewrite T6, T5, T4, T3, T2, T1, C6, C5, C4, C3, C2, C1, N2, N1, L2, L1.
  by rewrite <- !app_assoc.
Qed.

Section Bundle.

Variable faulty : nat -> bool.

(** C2. A resource subscribes to its promise exactly once, when
    [wrapPromise] is called: the call leaves exactly one handler of the new
    environment registered or queued, and arms no timer. From then on the
    environment has one subscription outstanding while it is "pending" and
    none afterwards. [fetchCodeReviewerData] starts its three operations when
    it is called: it arms exactly three timers, one per promise, and at no
    later time are two timers armed for one promise. [read] never changes
    the world, so no call of it starts or restarts anything. *)
Theorem C2_single_fire w0 :
  reachable faulty w0 ->
  (forall c w, snd (read c w) = w) /\
  (forall p c w1, p < length (promises w0) -> wrapPromise p w0 = (c, w1) ->
     subs (promises w0) (jobs w0) c = 0 /\
     subs (promises w1) (jobs w1) c = 1 /\
     timers w1 = timers w0 /\
     forall acts w, run faulty acts w1 = Some w ->
       exists e, envs w !! c = Some e /\
         subs (promises w) (jobs w) c
         = (if String.eqb (status e) "pending" then 1 else 0)) /\
  (forall id b w1, fetchCodeReviewerData id w0 = (b, w1) ->
     timers w1 = timers w0 ++
       [ {| due := (now w0 + 300)%Z; callback := FetchedReviewer id (length (promises w0)) |};
         {| due := (now w0 + 800)%Z;
            callback := FetchedCommentsForReviewer id (S (length (promises w0))) |};
         {| due := (now w0 + 1500)%Z;
            callback := FetchedResponses id (S (S (length (promises w0)))) |} ] /\
     forall acts w, run faulty acts w1 = Some w ->
       forall q, timers_for q (timers w) <= 1).
Proof.
  intros Hreach. pose proof (reachable_wf _ _ Hreach) as Hwf0.
  assert (Hsubs : forall w c e, wf w -> envs w !! c = Some e ->
            subs (promises w) (jobs w) c
            = (if String.eqb (status e) "pending" then 1 else 0)).
  { intros w c e [_ _ _ _ He] Hc.
    destruct (He c e Hc) as [(E&_&H)|[(E&_&H)|(E&_&H)]]; by rewrite E, H. }
  split_and!.
  - apply read_inert.
  - intros p c w1 Hp Hwrap.
    destruct (wrapPromise_start _ _ _ _ Hwf0 Hp Hwrap) as (Hwf1 & -> & Hc1 & Ht & _).
    split_and!; [by eapply subs_fresh|by rewrite (Hsubs _ _ _ Hwf1 Hc1)|done|].
    intros acts w Hrun. pose proof (run_wf _ _ _ _ Hwf1 Hrun) as Hwf.
    destruct (env_run faulty _ _ _ _ _ Hwf1 Hrun Hc1) as (e & Hc & _).
    exists e. split; [done|]. by apply Hsubs.
  - intros id b w1 Heq. destruct (fetchCodeReviewerData_frame _ _ _ _ Heq) as (_ & Ht & _).
    split; [done|]. intros acts w Hrun q.
    destruct (fetchCodeReviewerData_spec faulty _ _ _ _ Hwf0 Heq) as (_ & _ & Hwf1 & _).
    pose proof (run_wf _ _ _ _ Hwf1 Hrun) as [_ Htm _ _ _].
    destruct (Nat.le_gt_cases (timers_for q (timers w)) 1) as [H|H]; [done|].
    destruct (count_witness (fun tm => cb_target (callback tm) =? q) (timers w))
      as (tm & Hin & Hq%Nat.eqb_eq); [unfold timers_for, count in *; lia|].
    destruct (Htm tm Hin) as [_ H1]. rewrite Hq in H1. lia.
Qed.

End Bundle.

Section Timing.

Variable faulty : nat -> bool.

Lemma slot_run acts w w' c p d v :
  wf w -> slot faulty w c p d v -> run faulty acts w = Some w' ->
  wf w' /\ slot faulty w' c p d v.
Proof.
  intros Hwf Hs Hr. pose proof (run_micro _ _ _ _ Hwf Hr) as Hrtc.
  split; [by eapply rtc_micro_wf|by eapply slot_rtc].
Qed.

Lemma read_pair c w : read c w = (fst (read c w), w).
Proof. rewrite <- (read_inert c w) at 3. by destruct (read c w). Qed.

(** A slot whose operation cannot fail resolves at its due time. *)
Lemma slot_resolves w c p d v :
  wf w -> slot faulty w c p d v -> faulty p = false ->
  resolves_at w c d v /\
  (forall err, state_at (promises w) p <> Some (Done (Rejected err))) /\
  ((now w < d)%Z -> exists rs, state_at (promises w) p = Some (Pending rs)) /\
  ((d < now w)%Z -> state_at (promises w) p = Some (Done (Fulfilled v))).
Proof.
  intros Hwf Hs Hnf.
  destruct (slot_read faulty _ _ _ _ _ Hwf Hs) as (e & Hc & _ & _ & H).
  destruct (H Hnf) as (Hne & Hrej & Hbefore & Hafter).
  split_and!.
  - exists e. split_and!; [done..| |].
    + intros Hd. destruct (Hbefore Hd) as (_ & _ & Hr). by rewrite read_pair, Hr.
    + intros Hd. destruct (Hafter Hd) as (_ & _ & _ & Hr). by rewrite read_pair, Hr.
  - done.
  - intros Hd. by destruct (Hbefore Hd) as (? & _).
  - intros Hd. by destruct (Hafter Hd) as (? & _).
Qed.

(** The three slots of a bundle, at any later time. *)
Lemma bundle_slots w0 id b w1 acts w :
  wf w0 -> fetchCodeReviewerData id w0 = (b, w1) -> run faulty acts w1 = Some w ->
  wf w /\
  b = {| b_id := id; reviewer := length (envs w0); comments := S (length (envs w0));
         responses := S (S (length (envs w0))) |} /\
  slot faulty w (reviewer b) (length (promises w0)) (now w0 + 300) (reviewer_data id) /\
  slot faulty w (comments b) (S (length (promises w0))) (now w0 + 800) (comments_data id) /\
  slot faulty w (responses b) (S (S (length (promises w0)))) (now w0 + 1500)
       (responses_data id).
Proof.
  intros Hwf0 Heq Hrun.
  destruct (fetchCodeReviewerData_spec faulty _ _ _ _ Hwf0 Heq)
    as (Hb & _ & Hwf1 & _ & S1 & S2 & S3).
  destruct (slot_run _ _ _ _ _ _ _ Hwf1 S1 Hrun) as [Hwf S1'].
  destruct (slot_run _ _ _ _ _ _ _ Hwf1 S2 Hrun) as [_ S2'].
  destruct (slot_run _ _ _ _ _ _ _ Hwf1 S3 Hrun) as [_ S3'].
  rewrite Hb. simpl. done.
Qed.

(** A failure injected into one operation touches no environment, no timer
    and no other promise. *)
Lemma fail_frame p err w w' :
  step faulty (Fail p err) w = Some w' ->
  envs w' = envs w /\ timers w' = timers w /\
  forall q, q <> p -> promises w' !! q = promises w !! q.
Proof.
  simpl. destruct (faulty p); [|done]. intros Hs. simplify_eq.
  destruct (settle_frame p (Rejected err) w) as (_ & He & Ht & _).
  split_and!; [done..|]. intros q Hq.
  destruct (settle_cases p (Rejected err) w) as [(rs & b & _ & ->)|[_ ->]]; [|done].
  simpl. by rewrite list_lookup_insert_ne.
Qed.

(** C5. The three slots of a bundle are three environments on three
    promises of their own. Whatever happens to its siblings -- the run may
    contain failures of their operations -- a slot whose own operation does
    not fail resolves at its own time with its own data: [read] throws the
    suspender before, returns the data after, and never throws an error. A
    failure changes no environment, no timer and no promise but its own. *)
Theorem C5_slot_independence w0 id b w1 acts w :
  reachable faulty w0 -> fetchCodeReviewerData id w0 = (b, w1) ->
  run faulty acts w1 = Some w ->
  (exists er ec es,
     envs w !! reviewer b = Some er /\ promise er = length (promises w0) /\
     envs w !! comments b = Some ec /\ promise ec = S (length (promises w0)) /\
     envs w !! responses b = Some es /\ promise es = S (S (length (promises w0))) /\
     reviewer b <> comments b /\ comments b <> responses b /\ reviewer b <> responses b) /\
  (faulty (length (promises w0)) = false ->
     resolves_at w (reviewer b) (now w0 + 300) (reviewer_data id)) /\
  (faulty (S (length (promises w0))) = false ->
     resolves_at w (comments b) (now w0 + 800) (comments_data id)) /\
  (faulty (S (S (length (promises w0)))) = false ->
     resolves_at w (responses b) (now w0 + 1500) (responses_data id)) /\
  (forall p err w', step faulty (Fail p err) w = Some w' ->
     envs w' = envs w /\ timers w' = timers w /\
     forall q, q <> p -> promises w' !! q = promises w !! q).
Proof.
  intros Hreach Heq Hrun. pose proof (reachable_wf _ _ Hreach) as Hwf0.
  destruct (bundle_slots _ _ _ _ _ _ Hwf0 Heq Hrun) as (Hwf & Hb & S1 & S2 & S3).
  split_and!.
  - destruct S1 as [_ (er & H1 & P1 & _)]. destruct S2 as [_ (ec & H2 & P2 & _)].
    destruct S3 as [_ (es & H3 & P3 & _)]. exists er, ec, es.
    split_and!; try done; rewrite Hb; simpl; lia.
  - intros Hnf. by destruct (slot_resolves _ _ _ _ _ Hwf S1 Hnf).
  - intros Hnf. by destruct (slot_resolves _ _ _ _ _ Hwf S2 Hnf).
  - intros Hnf. by destruct (slot_resolves _ _ _ _ _ Hwf S3 Hnf).
  - intros p err w'. apply fail_frame.
Qed.

End Timing.

Lemma find_missing id :
  id <> 3%Z -> id <> 5%Z -> id <> 7%Z ->
  List.find (fun reviewer => (rv_id reviewer =? id)%Z) BE_REVIEWERS = None.
Proof.
  intros H3 H5 H7. unfold BE_REVIEWERS. cbn [List.find rv_id].
  assert ((3 =? id)%Z = false) as -> by (apply Z.eqb_neq; lia).
  assert ((5 =? id)%Z = false) as -> by (apply Z.eqb_neq; lia).
  assert ((7 =? id)%Z = false) as -> by (apply Z.eqb_neq; lia). done.
Qed.

Lemma reviewer_data_missing id :
  id <> 3%Z -> id <> 5%Z -> id <> 7%Z -> reviewer_data id = VUndefined.
Proof.
  intros H3 H5 H7. unfold reviewer_data. by rewrite (find_missing id H3 H5 H7).
Qed.

(** C7. In the bundle for key 3, with the end points as written: the
    reviewer slot resolves 300 time units after the call with the reviewer
    named "Marioli", whose id is 3; the comments slot after 800 with the
    three comments whose reviewerId is 3; the responses slot after 1500 with
    the response whose reviewerId is 3. Before its time [read] on a slot
    throws the suspender, after it [read] returns the value. *)
Theorem C7_bundle_of_key_3 w0 b w1 acts w :
  reachable no_fault w0 -> fetchCodeReviewerData 3 w0 = (b, w1) ->
  run no_fault acts w1 = Some w ->
  resolves_at w (reviewer b) (now w0 + 300)
    (VReviewer {| rv_name := "Marioli"; rv_id := 3 |}) /\
  resolves_at w (comments b) (now w0 + 800)
    (VComments
       [ {| cm_id := 0; cm_reviewerId := 3;
            cm_text := "I do not like this true here, I will create a constant with a meaning name" |};
         {| cm_id := 1; cm_reviewerId := 3;
            cm_text := "From my point of view make the code less readable" |};
         {| cm_id := 2; cm_reviewerId := 3; cm_text := "What does it do?" |} ]) /\
  resolves_at w (responses b) (now w0 + 1500)
    (VComments [ {| cm_id := 0; cm_reviewerId := 3; cm_text := "WAT" |} ]).
Proof.
  intros Hreach Heq Hrun. pose proof (reachable_wf _ _ Hreach) as Hwf0.
  destruct (bundle_slots no_fault _ _ _ _ _ _ Hwf0 Heq Hrun) as (Hwf & _ & S1 & S2 & S3).
  split_and!.
  - by destruct (slot_resolves _ _ _ _ _ _ Hwf S1 eq_refl).
  - by destruct (slot_resolves _ _ _ _ _ _ Hwf S2 eq_refl).
  - by destruct (slot_resolves _ _ _ _ _ _ Hwf S3 eq_refl).
Qed.

(** C9. For an id that is none of 3, 5, 7 the reviewer look-up finds
    nothing: the promise of [fetchReviewer] is never rejected, it is pending
    until 300 time units after the call and fulfilled with undefined after;
    the wrapping resource never has status "error", and after that time its
    status is "success" and [read] returns undefined. *)
Theorem C9_missing_reviewer id w0 b w1 acts w :
  id <> 3%Z -> id <> 5%Z -> id <> 7%Z ->
  reachable no_fault w0 -> fetchCodeReviewerData id w0 = (b, w1) ->
  run no_fault acts w1 = Some w ->
  List.find (fun reviewer => (rv_id reviewer =? id)%Z) BE_REVIEWERS = None /\
  (forall err, state_at (promises w) (length (promises w0)) <> Some (Done (Rejected err))) /\
  ((now w < now w0 + 300)%Z ->
     exists rs, state_at (promises w) (length (promises w0)) = Some (Pending rs)) /\
  ((now w0 + 300 < now w)%Z ->
     state_at (promises w) (length (promises w0)) = Some (Done (Fulfilled VUndefined))) /\
  exists e, envs w !! reviewer b = Some e /\ promise e = length (promises w0) /\
    status e <> "error"%string /\
    ((now w0 + 300 < now w)%Z ->
       status e = "success"%string /\ read (reviewer b) w = (Return VUndefined, w)).
Proof.
  intros H3 H5 H7 Hreach Heq Hrun. pose proof (reachable_wf _ _ Hreach) as Hwf0.
  destruct (bundle_slots no_fault _ _ _ _ _ _ Hwf0 Heq Hrun) as (Hwf & _ & S1 & _).
  rewrite (reviewer_data_missing id H3 H5 H7) in S1.
  destruct (slot_resolves _ _ _ _ _ _ Hwf S1 eq_refl) as (_ & Hrej & Hbefore & Hafter).
  destruct (slot_read _ _ _ _ _ _ Hwf S1) as (e & Hc & Hp & _ & H).
  destruct (H eq_refl) as (Hne & _ & _ & Hlate).
  split_and!; [|done..|].
  - by apply find_missing.
  - exists e. split_and!; [done..|]. intros Hd.
    destruct (Hlate Hd) as (_ & E & _ & Hr). split; [done|]. by rewrite read_pair, Hr.
Qed.

(** ** The reviewer-details controller *)

Lemma getNextId_3 : getNextId 3 = 5%Z.
Proof. reflexivity. Qed.
Lemma getNextId_5 : getNextId 5 = 7%Z.
Proof. reflexivity. Qed.
Lemma getNextId_other id : id <> 3%Z -> id <> 5%Z -> getNextId id = 3%Z.
Proof.
  intros H3 H5. unfold getNextId.
  destruct (Z.eqb_spec id 3); [done|]. by destruct (Z.eqb_spec id 5).
Qed.

Lemma key_after_S n : key_after (S n) = getNextId (key_after n).
Proof.
  unfold key_after. replace (S n) with (n + 1) by lia.
  rewrite Nat.Div0.add_mod. pose proof (Nat.mod_upper_bound n 3 ltac:(lia)) as Hlt.
  destruct (n mod 3) as [|[|[|k]]]; try reflexivity. lia.
Qed.

Lemma key_after_cases n : key_after n = 3%Z \/ key_after n = 5%Z \/ key_after n = 7%Z.
Proof. unfold key_after. destruct (n mod 3) as [|[|k]]; auto. Qed.

Lemma mount_unfold :
  mount = (do b <- fetchCodeReviewerData 3; ret {| resource := b; tab := HOME |}).
Proof. reflexivity. Qed.

Lemma handleClick_setResource_unfold s :
  handleClick_setResource s =
  (do b <- fetchCodeReviewerData (getNextId (b_id (resource s))); ret (setResource b s)).
Proof. reflexivity. Qed.

Lemma handleClick_unfold s :
  handleClick s = (do s1 <- handleClick_setResource s; ret (setTab REVIEWER_DETAILS s1)).
Proof. reflexivity. Qed.

Lemma mount_eq w0 a w :
  mount w0 = (a, w) ->
  exists b, fetchCodeReviewerData 3 w0 = (b, w) /\ a = {| resource := b; tab := HOME |}.
Proof.
  rewrite mount_unfold. intros (b & w1 & Hb & Hr)%bind_inv.
  apply ret_inv in Hr as [-> ->]. by exists b.
Qed.

Lemma handleClick_setResource_eq s w s1 w1 :
  handleClick_setResource s w = (s1, w1) ->
  exists b, fetchCodeReviewerData (getNextId (b_id (resource s))) w = (b, w1) /\
            s1 = setResource b s.
Proof.
  rewrite handleClick_setResource_unfold. intros (b & w2 & Hb & Hr)%bind_inv.
  apply ret_inv in Hr as [-> ->]. by exists b.
Qed.

Lemma handleClick_eq s w s' w' :
  handleClick s w = (s', w') ->
  exists s1, handleClick_setResource s w = (s1, w') /\ s' = setTab REVIEWER_DETAILS s1.
Proof.
  rewrite handleClick_unfold. intros (s1 & w1 & Hs & Hr)%bind_inv.
  apply ret_inv in Hr as [-> ->]. by exists s1.
Qed.

Section Controller.

Variable faulty : nat -> bool.

Lemma sys_step_click s s' :
  sys_step faulty Click s = Some s' ->
  exists b,
    fetchCodeReviewerData (getNextId (b_id (resource (app s)))) (heap s) = (b, heap s') /\
    app s' = setTab REVIEWER_DETAILS (setResource b (app s)).
Proof.
  cbn [sys_step]. destruct (handleClick (app s) (heap s)) as [a' w'] eqn:Hh.
  intros Hs. injection Hs as <-. cbn [heap app].
  apply handleClick_eq in Hh as (s1 & Hs1 & ->).
  apply handleClick_setResource_eq in Hs1 as (b & Hb & ->). by exists b.
Qed.

Lemma sys_step_run a s s' :
  sys_step faulty (Run a) s = Some s' ->
  step faulty a (heap s) = Some (heap s') /\ app s' = app s.
Proof.
  cbn [sys_step]. destruct (step faulty a (heap s)) as [w'|]; [|done].
  intros Hs. by injection Hs as <-.
Qed.

Lemma click_key s s' :
  sys_step faulty Click s = Some s' ->
  b_id (resource (app s')) = getNextId (b_id (resource (app s))).
Proof.
  intros (b & Hb & ->)%sys_step_click. cbn [setTab setResource resource].
  by destruct (fetchCodeReviewerData_frame _ _ _ _ Hb) as [-> _].
Qed.

Lemma sys_run_key evs s s' n :
  sys_run faulty evs s = Some s' -> b_id (resource (app s)) = key_after n ->
  b_id (resource (app s')) = key_after (clicks evs + n).
Proof.
  revert s n. induction evs as [|ev evs IH]; intros s n Hr Hk.
  - simpl in Hr. by simplify_eq.
  - cbn [sys_run] in Hr. destruct (sys_step faulty ev s) as [s1|] eqn:Hs; [|done].
    destruct ev as [a|].
    + apply sys_step_run in Hs as [_ Ha]. cbn [clicks]. apply (IH _ n Hr).
      by rewrite Ha.
    + apply click_key in Hs. cbn [clicks].
      replace (S (clicks evs) + n) with (clicks evs + S n) by lia.
      apply (IH _ (S n) Hr). by rewrite Hs, Hk, key_after_S.
Qed.

Lemma sys_init_key w0 : b_id (resource (app (sys_init w0))) = 3%Z.
Proof.
  unfold sys_init. destruct (mount w0) as [a w] eqn:Hm.
  apply mount_eq in Hm as (b & Hb & ->). cbn [heap app resource].
  by destruct (fetchCodeReviewerData_frame _ _ _ _ Hb) as [-> _].
Qed.

(** C10. [getNextId] maps 3 to 5, 5 to 7 and every other number to 3. The
    page is mounted with the bundle for key 3; after any run of the system
    the key of its bundle is [key_after] the number of presses of the
    button, that is the key reached from 3 by as many applications of
    [getNextId]: 3, 5, 7, 3, ... It is hence one of 3, 5, 7, and the next
    press moves it to [getNextId] of the current key. *)
Theorem C10_key_cycle w0 evs s :
  sys_run faulty evs (sys_init w0) = Some s ->
  getNextId 3 = 5%Z /\ getNextId 5 = 7%Z /\
  (forall id, id <> 3%Z -> id <> 5%Z -> getNextId id = 3%Z) /\
  key_after 0 = 3%Z /\ (forall n, key_after (S n) = getNextId (key_after n)) /\
  b_id (resource (app s)) = key_after (clicks evs) /\
  (b_id (resource (app s)) = 3%Z \/ b_id (resource (app s)) = 5%Z \/
   b_id (resource (app s)) = 7%Z) /\
  (forall s', sys_step faulty Click s = Some s' ->
     b_id (resource (app s')) = getNextId (b_id (resource (app s)))).
Proof.
  intros Hr.
  assert (Hk : b_id (resource (app s)) = key_after (clicks evs)).
  { rewrite <- (Nat.add_0_r (clicks evs)). eapply sys_run_key; [done|]. apply sys_init_key. }
  split_and!; [done|done|apply getNextId_other|done|apply key_after_S|done| |apply click_key].
  rewrite Hk. apply key_after_cases.
Qed.

Lemma run_fetchCodeReviewerData id w b w' :
  fetchCodeReviewerData id w = (b, w') ->
  run faulty [Invoke (CallFetchCodeReviewerData id)] w = Some w'.
Proof. intros H. cbn [run step invoke]. by rewrite H. Qed.

Lemma reachable_fetch id w b w' acts w'' :
  reachable faulty w -> fetchCodeReviewerData id w = (b, w') ->
  run faulty acts w' = Some w'' -> reachable faulty w''.
Proof.
  intros Hreach Hb Hrun. eapply reachable_run; [|exact Hrun].
  eapply reachable_run; [exact Hreach|]. by eapply run_fetchCodeReviewerData.
Qed.

(** The bundle of the page was built for the key it carries. *)
Lemma sys_run_built evs s s' :
  sys_run faulty evs s = Some s' ->
  (exists w_pre w_post acts,
      reachable faulty w_pre /\
      fetchCodeReviewerData (b_id (resource (app s))) w_pre = (resource (app s), w_post) /\
      run faulty acts w_post = Some (heap s)) ->
  exists w_pre w_post acts,
      reachable faulty w_pre /\
      fetchCodeReviewerData (b_id (resource (app s'))) w_pre = (resource (app s'), w_post) /\
      run faulty acts w_post = Some (heap s').
Proof.
  revert s. induction evs as [|ev evs IH]; intros s Hr Hinv.
  - simpl in Hr. by simplify_eq.
  - cbn [sys_run] in Hr. destruct (sys_step faulty ev s) as [s1|] eqn:Hs; [|done].
    apply (IH _ Hr). clear IH Hr. destruct Hinv as (w_pre & w_post & acts & Hpre & Hb & Hrun).
    destruct ev as [a|].
    + apply sys_step_run in Hs as [Ha Happ]. rewrite Happ.
      exists w_pre, w_post, (acts ++ [a]). split_and!; [done..|].
      eapply run_app; [done|]. cbn [run]. by rewrite Ha.
    + apply sys_step_click in Hs as (b & Hb' & Happ). rewrite Happ.
      cbn [setTab setResource resource].
      destruct (fetchCodeReviewerData_frame _ _ _ _ Hb') as [Hid _].
      exists (heap s), (heap s1), []. rewrite Hid. split_and!; [|done..].
      by eapply reachable_fetch.
Qed.

Lemma built_paired w b :
  (exists w_pre w_post acts,
      reachable faulty w_pre /\ fetchCodeReviewerData (b_id b) w_pre = (b, w_post) /\
      run faulty acts w_post = Some w) ->
  paired faulty w b.
Proof.
  intros Hb. split; [done|]. destruct Hb as (w_pre & w_post & acts & Hpre & Hb & Hrun).
  destruct (bundle_slots faulty _ _ _ _ _ _ (reachable_wf _ _ Hpre) Hb Hrun)
    as (Hwf & _ & S1 & S2 & S3).
  destruct (slot_read _ _ _ _ _ _ Hwf S1) as (_ & _ & _ & H1 & _).
  destruct (slot_read _ _ _ _ _ _ Hwf S2) as (_ & _ & _ & H2 & _).
  destruct (slot_read _ _ _ _ _ _ Hwf S3) as (_ & _ & _ & H3 & _).
  done.
Qed.

(** C6. In every state of the page, the bundle it holds is the very object
    that [fetchCodeReviewerData] returned for the key it carries, and [read]
    on its slots never returns anything but the data of that key. The same
    holds between the two state updates of [handleClick]: [setResource]
    installs key and slots in one object, built for the next key, and
    [setTab] leaves it alone. *)
Theorem C6_atomic_swap w0 evs s :
  reachable faulty w0 -> sys_run faulty evs (sys_init w0) = Some s ->
  paired faulty (heap s) (resource (app s)) /\
  forall s1 w1, handleClick_setResource (app s) (heap s) = (s1, w1) ->
    b_id (resource s1) = getNextId (b_id (resource (app s))) /\
    paired faulty w1 (resource s1) /\
    handleClick (app s) (heap s) = (setTab REVIEWER_DETAILS s1, w1) /\
    resource (setTab REVIEWER_DETAILS s1) = resource s1.
Proof.
  intros Hreach Hr.
  assert (Hbuilt : exists w_pre w_post acts,
      reachable faulty w_pre /\
      fetchCodeReviewerData (b_id (resource (app s))) w_pre = (resource (app s), w_post) /\
      run faulty acts w_post = Some (heap s)).
  { apply (sys_run_built _ _ _ Hr). unfold sys_init.
    destruct (mount w0) as [a w] eqn:Hm. apply mount_eq in Hm as (b & Hb & ->).
    cbn [heap app resource].
    destruct (fetchCodeReviewerData_frame _ _ _ _ Hb) as [Hid _].
    exists w0, w, []. rewrite Hid. done. }
  split; [by apply built_paired|]. intros s1 w1 Hs1.
  pose proof Hs1 as Hs1'. apply handleClick_setResource_eq in Hs1' as (b & Hb & ->).
  destruct (fetchCodeReviewerData_frame _ _ _ _ Hb) as [Hid _].
  cbn [setTab setResource resource].
  split_and!; [done| | |done].
  - apply built_paired. destruct Hbuilt as (w_pre & w_post & acts & Hpre & Hb0 & Hrun).
    exists (heap s), w1, []. rewrite Hid. split_and!; [|done..].
    by eapply reachable_fetch.
  - rewrite handleClick_unfold. unfold bind. by rewrite Hs1.
Qed.

End Controller.

(** * Further properties of the code *)

(** ** More on the end points *)

Section EndPoints.

Variable faulty : nat -> bool.

Lemma add3To_spec value w p w' :
  wf w -> add3To value w = (p, w') ->
  p = length (promises w) /\
  rtc (micro faulty) w w' /\ wf w' /\ now w' = now w /\ envs w' = envs w /\
  owned faulty w' (length (promises w)) (now w + 1800) (VNumber (value + 3)).
Proof.
  intros Hwf Heq.
  assert (Hcb : cb_target (Added3 value (length (promises w))) = length (promises w)) by done.
  pose proof (micro_spawn faulty w _ 1800 Hcb ltac:(lia)) as Hm.
  pose proof (spawn_owned faulty w _ 1800 Hwf Hcb ltac:(lia)) as Hown.
  change (snd ((new_promise false ;; setTimeout (Added3 value (length (promises w))) 1800) w))
    with (snd (add3To value w)) in Hm, Hown.
  assert (Hp : fst (add3To value w) = length (promises w)) by done.
  assert (Hn : now (snd (add3To value w)) = now w) by done.
  assert (He : envs (snd (add3To value w)) = envs w) by done.
  rewrite Heq in Hm, Hown, Hp, Hn, He. simpl in Hp, Hn, He, Hown.
  split_and!; [done|by apply rtc_once|by eapply micro_wf|done|done|done].
Qed.

Lemma fetchCodeReviewers_spec w p w' :
  wf w -> fetchCodeReviewers w = (p, w') ->
  p = length (promises w) /\
  rtc (micro faulty) w w' /\ wf w' /\ now w' = now w /\ envs w' = envs w /\
  length (promises w') = S (length (promises w)) /\
  owned faulty w' (length (promises w)) (now w + 1000) (VReviewers BE_REVIEWERS).
Proof.
  intros Hwf Heq.
  pose proof (fetch_spec faulty "fetching code reviewer..." None
                (FetchedReviewers (length (promises w))) 1000 w Hwf eq_refl ltac:(lia)) as H.
  change (snd ((console_log "fetching code reviewer..." None ;; new_promise false ;;
                setTimeout (FetchedReviewers (length (promises w))) 1000) w))
    with (snd (fetchCodeReviewers w)) in H.
  assert (Hp : fst (fetchCodeReviewers w) = length (promises w)) by done.
  rewrite Heq in H, Hp. simpl in H, Hp. by split.
Qed.

Lemma fetchComments_spec w p w' :
  wf w -> fetchComments w = (p, w') ->
  p = length (promises w) /\
  rtc (micro faulty) w w' /\ wf w' /\ now w' = now w /\ envs w' = envs w /\
  length (promises w') = S (length (promises w)) /\
  owned faulty w' (length (promises w)) (now w + 2000) (VComments BE_COMMENTS).
Proof.
  intros Hwf Heq.
  pose proof (fetch_spec faulty "fetching comments..." None
                (FetchedComments (length (promises w))) 2000 w Hwf eq_refl ltac:(lia)) as H.
  change (snd ((console_log "fetching comments..." None ;; new_promise false ;;
                setTimeout (FetchedComments (length (promises w))) 2000) w))
    with (snd (fetchComments w)) in H.
  assert (Hp : fst (fetchComments w) = length (promises w)) by done.
  rewrite Heq in H, Hp. simpl in H, Hp. by split.
Qed.

Lemma getAdd3ToResource_spec value w c w' :
  wf w -> getAdd3ToResource value w = (c, w') ->
  wf w' /\ now w' = now w /\
  slot faulty w' c (length (promises w)) (now w + 1800) (VNumber (value + 3)).
Proof.
  intros Hwf Heq. rewrite getAdd3ToResource_unfold in Heq.
  apply bind_inv in Heq as (p1 & w1 & X1 & Heq).
  destruct (add3To_spec _ _ _ _ Hwf X1) as (-> & R1 & W1 & N1 & E1 & O1).
  destruct (wrap_eq faulty _ _ _ _ _ _ W1 O1 ltac:(lia) Heq) as (-> & R2 & W2 & N2 & _ & _ & S2).
  rewrite E1 in S2. rewrite E1. split_and!; [done|lia|done].
Qed.

Lemma fetchCodeReviewData_spec w b w' :
  wf w -> fetchCodeReviewData w = (b, w') ->
  wf w' /\ now w' = now w /\
  slot faulty w' (reviewers b) (length (promises w)) (now w + 1000)
       (VReviewers BE_REVIEWERS) /\
  slot faulty w' (all_comments b) (S (length (promises w))) (now w + 2000)
       (VComments BE_COMMENTS).
Proof.
  intros Hwf Heq. rewrite fetchCodeReviewData_unfold in Heq.
  apply bind_inv in Heq as (p1 & w1 & X1 & Heq).
  destruct (fetchCodeReviewers_spec _ _ _ Hwf X1) as (-> & R1 & W1 & N1 & E1 & L1 & O1).
  apply bind_inv in Heq as (p2 & w2 & X2 & Heq).
  destruct (fetchComments_spec _ _ _ W1 X2) as (-> & R2 & W2 & N2 & E2 & L2 & O2).
  rewrite L1, N1 in O2. rewrite L1 in Heq.
  assert (O1a : owned faulty w2 (length (promises w)) (now w + 1000) (VReviewers BE_REVIEWERS))
    by (eapply owned_rtc; [exact W1|exact O1|exact R2]).
  apply bind_inv in Heq as (c3 & w3 & X3 & Heq).
  assert (T2 : (now w2 <= now w + 1000)%Z) by lia.
  destruct (wrap_eq faulty _ _ _ _ _ _ W2 O1a T2 X3) as (-> & R3 & W3 & N3 & E3 & L3 & S3).
  assert (O2a : owned faulty w3 (S (length (promises w))) (now w + 2000) (VComments BE_COMMENTS))
    by (eapply owned_rtc; [exact W2|exact O2|exact R3]).
  apply bind_inv in Heq as (c4 & w4 & X4 & Heq).
  assert (T3 : (now w3 <= now w + 2000)%Z) by lia.
  destruct (wrap_eq faulty _ _ _ _ _ _ W3 O2a T3 X4) as (-> & R4 & W4 & N4 & E4 & L4 & S4).
  apply ret_inv in Heq as [-> ->]. cbn [reviewers all_comments].
  split_and!; [done|lia| |done].
  eapply slot_rtc; [exact W3|exact S3|exact R4].
Qed.

Lemma slot_returns_due w c p d v x :
  wf w -> slot faulty w c p d v -> fst (read c w) = Return x -> (d <= now w)%Z.
Proof.
  intros Hwf [[Hcore _] (e & Hc & Hp & _)] Hx.
  destruct (read_wf _ _ _ Hwf Hc) as [[_ H]|[[_ H]|[E H]]]; rewrite H in Hx; try done.
  destruct (wf_settled _ _ _ Hwf Hc) as [Hs _]. specialize (Hs E). rewrite Hp in Hs.
  by destruct (own_fulfilled _ _ _ _ _ Hcore _ Hs).
Qed.

(** Of two slots, the one due first has its value whenever the other has. *)
Lemma slot_order w c1 p1 d1 v1 c2 p2 d2 v2 x :
  wf w -> slot faulty w c1 p1 d1 v1 -> slot faulty w c2 p2 d2 v2 ->
  (d1 < d2)%Z -> faulty p1 = false ->
  fst (read c2 w) = Return x -> fst (read c1 w) = Return v1.
Proof.
  intros Hwf S1 S2 Hd Hnf Hx. pose proof (slot_returns_due _ _ _ _ _ _ Hwf S2 Hx) as Hdue.
  destruct (slot_read faulty _ _ _ _ _ Hwf S1) as (e & _ & _ & _ & H).
  destruct (H Hnf) as (_ & _ & _ & Hlate). destruct Hlate as (_ & _ & _ & Hr); [lia|done].
Qed.

Lemma slot_value w c p d v x :
  wf w -> slot faulty w c p d v -> fst (read c w) = Return x -> x = v.
Proof.
  intros Hwf S Hx. destruct (slot_read faulty _ _ _ _ _ Hwf S) as (_ & _ & _ & H & _).
  by apply H.
Qed.

End EndPoints.

(** X1. The resource of [getAdd3ToResource value] takes the value
    [value + 3] 1800 time units after the call, for every number [value],
    where [+] is the addition of doubles that JavaScript performs (so the
    sum is rounded when it is not a double, and is NaN for NaN): until
    then [read] throws the suspender, afterwards it returns the sum, and
    it never throws an error. *)
Theorem X1_add3_resolves value w0 c w1 acts w :
  reachable no_fault w0 -> getAdd3ToResource value w0 = (c, w1) ->
  run no_fault acts w1 = Some w ->
  resolves_at w c (now w0 + 1800) (VNumber (value + 3)).
Proof.
  intros Hreach Heq Hrun. pose proof (reachable_wf _ _ Hreach) as Hwf0.
  destruct (getAdd3ToResource_spec no_fault _ _ _ _ Hwf0 Heq) as (Hwf1 & _ & S1).
  destruct (slot_run _ _ _ _ _ _ _ _ Hwf1 S1 Hrun) as [Hwf S].
  by destruct (slot_resolves _ _ _ _ _ _ Hwf S eq_refl).
Qed.

(** X2. The two resources of [fetchCodeReviewData]: the reviewers slot takes
    the whole backing list of reviewers after 1000 time units, the comments
    slot the whole backing list of comments after 2000; whenever [read] on
    the comments slot returns, [read] on the reviewers slot returns too. *)
Theorem X2_review_data_resolves w0 b w1 acts w :
  reachable no_fault w0 -> fetchCodeReviewData w0 = (b, w1) ->
  run no_fault acts w1 = Some w ->
  resolves_at w (reviewers b) (now w0 + 1000) (VReviewers BE_REVIEWERS) /\
  resolves_at w (all_comments b) (now w0 + 2000) (VComments BE_COMMENTS) /\
  (forall x, fst (read (all_comments b) w) = Return x ->
     fst (read (reviewers b) w) = Return (VReviewers BE_REVIEWERS)).
Proof.
  intros Hreach Heq Hrun. pose proof (reachable_wf _ _ Hreach) as Hwf0.
  destruct (fetchCodeReviewData_spec no_fault _ _ _ Hwf0 Heq) as (Hwf1 & _ & S1 & S2).
  destruct (slot_run _ _ _ _ _ _ _ _ Hwf1 S1 Hrun) as [Hwf S1'].
  destruct (slot_run _ _ _ _ _ _ _ _ Hwf1 S2 Hrun) as [_ S2'].
  split_and!.
  - by destruct (slot_resolves _ _ _ _ _ _ Hwf S1' eq_refl).
  - by destruct (slot_resolves _ _ _ _ _ _ Hwf S2' eq_refl).
  - intros x Hx. eapply (slot_order no_fault); [exact Hwf|exact S1'|exact S2'|lia|done|exact Hx].
Qed.

(** X3. The slots of a bundle get their values in the order reviewer,
    comments, responses: whenever [read] on the comments slot returns, so
    does [read] on the reviewer slot, and whenever [read] on the responses
    slot returns, so does [read] on the comments slot. *)
Theorem X3_bundle_order id w0 b w1 acts w :
  reachable no_fault w0 -> fetchCodeReviewerData id w0 = (b, w1) ->
  run no_fault acts w1 = Some w ->
  (forall x, fst (read (comments b) w) = Return x ->
     fst (read (reviewer b) w) = Return (reviewer_data id)) /\
  (forall x, fst (read (responses b) w) = Return x ->
     fst (read (comments b) w) = Return (comments_data id)).
Proof.
  intros Hreach Heq Hrun. pose proof (reachable_wf _ _ Hreach) as Hwf0.
  destruct (bundle_slots no_fault _ _ _ _ _ _ Hwf0 Heq Hrun) as (Hwf & _ & S1 & S2 & S3).
  split; intros x Hx.
  - eapply (slot_order no_fault); [exact Hwf|exact S1|exact S2|lia|done|exact Hx].
  - eapply (slot_order no_fault); [exact Hwf|exact S2|exact S3|lia|done|exact Hx].
Qed.

Lemma filter_missing (l : list CodeReviewComment) id :
  Forall (fun c => cm_reviewerId c <> id) l ->
  List.filter (fun c => (cm_reviewerId c =? id)%Z) l = [].
Proof.
  induction 1 as [|c l Hc _ IH]; [done|]. simpl.
  destruct (Z.eqb_spec (cm_reviewerId c) id); [done|]. exact IH.
Qed.

Lemma elem_of_filter_reviewer (l : list CodeReviewComment) id c :
  c ∈ List.filter (fun c => (cm_reviewerId c =? id)%Z) l <-> c ∈ l /\ cm_reviewerId c = id.
Proof. rewrite !list_elem_of_In, List.filter_In, Z.eqb_eq. done. Qed.

(** X4. Whatever [read] returns on the comments slot of the bundle for [id]
    is an array that holds exactly the backing comments whose reviewerId is
    [id]; the same for the responses slot and the backing responses. For an
    id that is none of 3, 5, 7 both arrays are empty: a missing key gives an
    empty array, not undefined. This holds even in runs where operations
    fail. *)
Theorem X4_lists_of_key faulty id w0 b w1 acts w :
  reachable faulty w0 -> fetchCodeReviewerData id w0 = (b, w1) ->
  run faulty acts w1 = Some w ->
  (forall x, fst (read (comments b) w) = Return x ->
     exists l, x = VComments l /\
       (forall c, c ∈ l <-> c ∈ BE_COMMENTS /\ cm_reviewerId c = id) /\
       (id <> 3%Z -> id <> 5%Z -> id <> 7%Z -> l = [])) /\
  (forall x, fst (read (responses b) w) = Return x ->
     exists l, x = VComments l /\
       (forall c, c ∈ l <-> c ∈ BE_RESPONSES /\ cm_reviewerId c = id) /\
       (id <> 3%Z -> id <> 5%Z -> id <> 7%Z -> l = [])).
Proof.
  intros Hreach Heq Hrun. pose proof (reachable_wf _ _ Hreach) as Hwf0.
  destruct (bundle_slots faulty _ _ _ _ _ _ Hwf0 Heq Hrun) as (Hwf & _ & _ & S2 & S3).
  split; intros x Hx.
  - rewrite (slot_value _ _ _ _ _ _ _ Hwf S2 Hx). eexists. split; [reflexivity|].
    split; [intros c; apply elem_of_filter_reviewer|].
    intros H3 H5 H7. apply filter_missing. unfold BE_COMMENTS.
    repeat (apply Forall_cons; split; [simpl; lia|]). apply Forall_nil. done.
  - rewrite (slot_value _ _ _ _ _ _ _ Hwf S3 Hx). eexists. split; [reflexivity|].
    split; [intros c; apply elem_of_filter_reviewer|].
    intros H3 H5 H7. apply filter_missing. unfold BE_RESPONSES.
    repeat (apply Forall_cons; split; [simpl; lia|]). apply Forall_nil. done.
Qed.

(** X5. Whatever [read] returns on the reviewer slot of the bundle for [id]
    is either a backing reviewer whose id is [id], or undefined, and it is
    undefined only if no backing reviewer has that id. This holds even in
    runs where operations fail. *)
Theorem X5_reviewer_of_key faulty id w0 b w1 acts w x :
  reachable faulty w0 -> fetchCodeReviewerData id w0 = (b, w1) ->
  run faulty acts w1 = Some w -> fst (read (reviewer b) w) = Return x ->
  (exists r, x = VReviewer r /\ r ∈ BE_REVIEWERS /\ rv_id r = id)
  \/ (x = VUndefined /\ forall r, r ∈ BE_REVIEWERS -> rv_id r <> id).
Proof.
  intros Hreach Heq Hrun Hx. pose proof (reachable_wf _ _ Hreach) as Hwf0.
  destruct (bundle_slots faulty _ _ _ _ _ _ Hwf0 Heq Hrun) as (Hwf & _ & S1 & _).
  rewrite (slot_value _ _ _ _ _ _ _ Hwf S1 Hx). unfold reviewer_data.
  destruct (List.find _ BE_REVIEWERS) as [r|] eqn:Hfind.
  - left. apply List.find_some in Hfind as [Hin Hid%Z.eqb_eq].
    exists r. split_and!; [done| |done]. by apply list_elem_of_In.
  - right. split; [done|]. intros r Hin%list_elem_of_In.
    pose proof (List.find_none _ _ Hfind r Hin) as H. simpl in H. by apply Z.eqb_neq.
Qed.

(** ** More on [wrapPromise] *)

Lemma settle_lookup p o w q :
  q <> p -> promises (snd (settle p o w)) !! q = promises w !! q.
Proof.
  intros Hq. destruct (settle_cases p o w) as [(rs & b & _ & ->)|[_ ->]]; [|done].
  simpl. by rewrite list_lookup_insert_ne.
Qed.

Lemma settle_state p o w q :
  q <> p -> state_at (promises (snd (settle p o w))) q = state_at (promises w) q.
Proof. intros Hq. unfold state_at. by rewrite settle_lookup. Qed.

Lemma settle_self p o w :
  (exists rs b, promises w !! p = Some {| p_state := Pending rs; p_open := b |} /\
     promises (snd (settle p o w)) !! p = Some {| p_state := Done o; p_open := b |})
  \/ ((forall rs, state_at (promises w) p <> Some (Pending rs)) /\
      promises (snd (settle p o w)) = promises w).
Proof.
  destruct (settle_cases p o w) as [(rs & b & Hp & ->)|[Hn ->]]; [left|by right].
  exists rs, b. split; [done|]. simpl. rewrite list_lookup_insert_eq; [done|].
  by eapply lookup_lt_Some.
Qed.

Section Suspender.

Variable faulty : nat -> bool.

(** Settling a promise that is no suspender keeps [suspender_ok]. *)
Lemma suspender_ok_settle w p o :
  suspender_ok faulty w ->
  (forall c e, envs w !! c = Some e -> suspender e = p ->
     exists err, o = Rejected err /\ faulty p = true) ->
  suspender_ok faulty (snd (settle p o w)).
Proof.
  intros Hok Hp c e Hc. destruct (settle_frame p o w) as (_ & He & Ht & _).
  rewrite He in Hc. destruct (Hok c e Hc) as (Hclosed & Htm & Hinj & Hst).
  rewrite He, Ht. split_and!; [|done|done|].
  - destruct (decide (suspender e = p)) as [E|E].
    + destruct (settle_self p o w) as [(rs & b & H1 & H2)|[_ ->]]; [|done].
      destruct Hclosed as [s Hs]. rewrite E in Hs. rewrite Hs in H1.
      injection H1 as _ <-. rewrite E. eauto.
    + by rewrite settle_lookup.
  - destruct (decide (suspender e = p)) as [E|E]; [|by rewrite settle_state].
    destruct (Hp c e Hc E) as (err & -> & Hf).
    destruct (settle_self p (Rejected err) w) as [(rs & b & H1 & H2)|[_ ->]]; [|done].
    right; right. rewrite E. split; [done|]. exists err. unfold state_at. by rewrite H2.
Qed.

Lemma suspender_ok_alloc w b :
  suspender_ok faulty w -> suspender_ok faulty (snd (new_promise b w)).
Proof.
  intros Hok c e Hc. simpl in Hc. destruct (Hok c e Hc) as ([s Hs] & Htm & Hinj & Hst).
  assert (Hlt : suspender e < length (promises w)) by by eapply lookup_lt_Some.
  unfold new_promise. simpl. rewrite state_at_app_l by done.
  split_and!; [|done..]. exists s. by rewrite lookup_app_l.
Qed.

Lemma suspender_ok_micro w w' :
  wf w -> suspender_ok faulty w -> micro faulty w w' -> suspender_ok faulty w'.
Proof.
  intros Hwf Hok Hm. destruct Hm.
  - done.
  - (* an end point builds its promise and arms its timer *)
    pose proof (suspender_ok_alloc w false Hok) as Hok1.
    intros c e Hc. simpl in Hc.
    destruct (Hok1 c e Hc) as (Hclosed & Htm & Hinj & Hst).
    split_and!; [done| |done|done].
    intros tm [Hin|Hin%list_elem_of_singleton]%elem_of_app; [by apply Htm|].
    subst tm. simpl. rewrite H. destruct (Hok c e Hc) as ([s Hs] & _).
    apply lookup_lt_Some in Hs. lia.
  - by apply suspender_ok_alloc.
  - (* wrapPromise *)
    pose proof (suspender_ok_alloc w false Hok) as Hok1. unfold new_promise in Hok1.
    simpl in Hok1.
    assert (Hbound : forall c e, envs w !! c = Some e -> suspender e < length (promises w)).
    { intros c e Hc. destruct (Hok c e Hc) as ([s Hs] & _). by eapply lookup_lt_Some. }
    assert (Hnew : forall c e,
      (envs w ++ [fresh_env p (length (promises w))]) !! c = Some e ->
      envs w !! c = Some e \/ (c = length (envs w) /\ e = fresh_env p (length (promises w)))).
    { intros c e [Hc|[Hge Hc]]%lookup_app_Some; [by left|right].
      destruct (c - length (envs w)) as [|k] eqn:Ek; simplify_eq/=. split; [lia|done]. }
    destruct (wrapPromise_cases p w H) as [_ [(rs & b & Hl & ->)|(o & Hl & ->)]].
    + assert (Hl1 : (promises w ++ [{| p_state := Pending []; p_open := false |}]) !! p
                = Some {| p_state := Pending rs; p_open := b |}) by by rewrite lookup_app_l.
      assert (Hlen : p < length (promises w ++ [{| p_state := Pending []; p_open := false |}]))
        by by eapply lookup_lt_Some.
      intros c e Hc. simpl in Hc |- *. destruct (Hnew c e Hc) as [Hold|[-> ->]].
      * destruct (Hok1 c e Hold) as ([s Hs] & Htm & Hinj & Hst).
        split_and!; [|done| |].
        -- destruct (decide (p = suspender e)) as [E|E].
           ++ rewrite <- E in Hs |- *. wsimpl. rewrite Hl1 in Hs. injection Hs as <- ->.
              rewrite list_lookup_insert_eq by done. eauto.
           ++ rewrite list_lookup_insert_ne by done. wsimpl. eauto.
        -- intros c' e' Hc' Heq. destruct (Hnew c' e' Hc') as [Hold'|[-> ->]].
           ++ destruct (Hok c e Hold) as (_ & _ & Hi & _). by eapply Hi.
           ++ simpl in Heq. specialize (Hbound c e Hold). lia.
        -- destruct (decide (p = suspender e)) as [E|E].
           ++ rewrite <- E in Hst |- *. rewrite state_at_insert_eq by done.
              unfold state_at in Hst. wsimpl. rewrite Hl1 in Hst.
              cbn [fmap option_fmap option_map p_state] in Hst.
              destruct Hst as [[_ Hp]|[[Hd _]|[_ [err Hd]]]]; [|done..].
              left. split; [eauto|done].
           ++ rewrite state_at_insert_ne by done. done.
      * simpl. assert (Hne : p <> length (promises w)) by lia.
        split_and!.
        -- rewrite list_lookup_insert_ne by done. rewrite list_lookup_middle by done. eauto.
        -- intros tm Hin. destruct Hwf as [_ Htm _ _ _]. destruct (Htm tm Hin). lia.
        -- intros c' e' Hc' Heq. destruct (Hnew c' e' Hc') as [Hold'|[-> ->]]; [|done].
           simpl in Heq. specialize (Hbound c' e' Hold'). lia.
        -- left. split; [|done]. rewrite state_at_insert_ne by done.
           unfold state_at. rewrite list_lookup_middle by done. eauto.
    + intros c e Hc. simpl in Hc |- *. destruct (Hnew c e Hc) as [Hold|[-> ->]].
      * destruct (Hok1 c e Hold) as (Hclosed & Htm & Hinj & Hst).
        split_and!; [done|done| |done].
        intros c' e' Hc' Heq. destruct (Hnew c' e' Hc') as [Hold'|[-> ->]].
        -- destruct (Hok c e Hold) as (_ & _ & Hi & _). by eapply Hi.
        -- simpl in Heq. specialize (Hbound c e Hold). lia.
      * simpl. split_and!.
        -- rewrite list_lookup_middle by done. eauto.
        -- intros tm Hin. destruct Hwf as [_ Htm _ _ _]. destruct (Htm tm Hin). lia.
        -- intros c' e' Hc' Heq. destruct (Hnew c' e' Hc') as [Hold'|[-> ->]]; [|done].
           simpl in Heq. specialize (Hbound c' e' Hold'). lia.
        -- left. split; [|done]. unfold state_at. rewrite list_lookup_middle by done. eauto.
  - (* a promise of the environment is settled *)
    apply suspender_ok_settle; [done|]. intros c e Hc Heq.
    destruct (Hok c e Hc) as ([s Hs] & _). unfold is_open in H. rewrite <- Heq, Hs in H. done.
  - apply suspender_ok_settle; [done|]. eauto.
  - (* a timer expires *)
    apply suspender_ok_settle.
    + intros c e Hc. simpl in Hc. destruct (Hok c e Hc) as (Hclosed & Htm & Hinj & Hst).
      simpl. split_and!; [done| |done|done].
      intros x Hx. apply Htm. by eapply list_elem_of_delete_inv.
    + intros c e Hc Heq. simpl in Hc. destruct (Hok c e Hc) as (_ & Htm & _).
      destruct (Htm tm); [|done]. apply list_elem_of_lookup. eauto.
  - (* the handlers of an environment run *)
    pose proof Hwf as Hwf'. unfold wf in Hwf'. rewrite H in Hwf'.
    destruct (WF_head_pending _ _ _ _ _ _ Hwf') as (e0 & He0 & Hst0 & _ & Hs0 & _).
    rewrite (run_job_eq j js w e0 H He0).
    set (w1 := set_envs (<[j_env j := written e0 (j_outcome j)]> (envs w)) (set_jobs js w)).
    assert (Hlook : forall c e, envs w1 !! c = Some e ->
      (c <> j_env j /\ envs w !! c = Some e) \/
      (c = j_env j /\ e = written e0 (j_outcome j))).
    { intros c e Hc. simpl in Hc. destruct (decide (j_env j = c)) as [<-|Hne].
      - right. rewrite list_lookup_insert_eq in Hc by by eapply lookup_lt_Some.
        by simplify_eq.
      - left. rewrite list_lookup_insert_ne in Hc by done. done. }
    assert (Hsusp : forall c e, envs w1 !! c = Some e ->
      exists e', envs w !! c = Some e' /\ suspender e' = suspender e).
    { intros c e Hc. destruct (Hlook c e Hc) as [[_ Hold]|[-> ->]]; [eauto|].
      exists e0. by rewrite written_suspender. }
    intros c e Hc. destruct (settle_frame (j_derived j) (Fulfilled VUndefined) w1)
      as (_ & He & Ht & _).
    rewrite He in Hc. rewrite He, Ht.
    destruct (Hsusp c e Hc) as (e' & Hc' & Hse).
    destruct (Hok c e' Hc') as (Hclosed & Htm & Hinj & Hst). rewrite Hse in *.
    split_and!.
    + destruct (decide (suspender e = j_derived j)) as [E|E].
      * destruct (settle_self (j_derived j) (Fulfilled VUndefined) w1)
          as [(rs & b & H1 & H2)|[_ ->]]; [|done].
        destruct Hclosed as [s Hs]. rewrite E in Hs. simpl in H1. simplify_eq.
        rewrite E. eauto.
      * by rewrite settle_lookup.
    + done.
    + intros c2 e2 Hc2 Heq. destruct (Hsusp c2 e2 Hc2) as (e2' & Hc2' & Hse2).
      eapply Hinj; [exact Hc2'|]. congruence.
    + destruct (Hlook c e Hc) as [[Hne Hold]|[-> ->]].
      * rewrite Hold in Hc'. injection Hc' as <-.
        assert (suspender e <> j_derived j) as E.
        { intros E. apply Hne. symmetry. eapply Hinj; [exact He0|]. congruence. }
        rewrite settle_state by done. done.
      * rewrite written_suspender in *. rewrite Hs0 in *.
        assert (Hwr : status (written e0 (j_outcome j)) <> "pending"%string)
          by by destruct (j_outcome j).
        destruct (settle_self (j_derived j) (Fulfilled VUndefined) w1)
          as [(rs & b & H1 & H2)|[Hn Heq]].
        -- right; left. split; [|done]. unfold state_at. by rewrite H2.
        -- rewrite Heq. simpl. simpl in Hn. simplify_eq.
           destruct Hst as [[[rs Hp] _]|[[Hd _]|Hrej]].
           ++ by destruct (Hn rs).
           ++ right; left. done.
           ++ right; right. done.
  - done.
Qed.

Lemma suspender_ok_rtc w w' :
  wf w -> suspender_ok faulty w -> rtc (micro faulty) w w' -> suspender_ok faulty w'.
Proof.
  intros Hwf Hok Hr. induction Hr as [|w w1 w' Hm Hr IH]; [done|].
  apply IH; [by eapply micro_wf|by eapply suspender_ok_micro].
Qed.

Lemma reachable_suspender_ok w : reachable faulty w -> suspender_ok faulty w.
Proof.
  intros [acts Hr]. eapply suspender_ok_rtc; [apply wf_empty| |].
  - intros c e Hc. by destruct c.
  - eapply run_micro; [apply wf_empty|done].
Qed.

End Suspender.

(** X6. The promise that [read] throws while a resource is pending, the
    suspender, belongs to that resource alone, and follows its status: it
    is pending exactly as long as the status is "pending", and it is then
    fulfilled with undefined, also when the wrapped promise was rejected,
    because both handlers given to [then] return normally. *)
Theorem X6_suspender_contract faulty w c e :
  reachable faulty w -> envs w !! c = Some e -> faulty (suspender e) = false ->
  (status e = "pending"%string <->
     exists rs, state_at (promises w) (suspender e) = Some (Pending rs)) /\
  (forall o, state_at (promises w) (suspender e) = Some (Done o) ->
     o = Fulfilled VUndefined) /\
  (status e = "error"%string ->
     state_at (promises w) (suspender e) = Some (Done (Fulfilled VUndefined))) /\
  (forall c' e', envs w !! c' = Some e' -> suspender e' = suspender e -> c' = c).
Proof.
  intros Hreach Hc Hnf. pose proof (reachable_wf _ _ Hreach) as Hwf.
  destruct (reachable_suspender_ok faulty w Hreach c e Hc) as (_ & _ & Hinj & Hst).
  split_and!; [| | |done].
  - destruct Hst as [[Hp E]|[[Hd E]|[Hf _]]]; [done| |congruence].
    split; [done|]. intros [rs Hrs]. congruence.
  - intros o Ho. destruct Hst as [[[rs Hp] _]|[[Hd _]|[Hf _]]]; congruence.
  - intros E. destruct Hst as [[_ E']|[[Hd _]|[Hf _]]]; [|done|congruence].
    rewrite E in E'. done.
Qed.

(** X7. Wrapping a promise that is already settled: the resource still
    starts as "pending", because [then] never calls a handler at once, so a
    [read] right after the call throws the suspender; the handler is the
    next microtask, and once it has run [read] returns the value, or throws
    the reason. *)
Theorem X7_wrap_settled faulty w0 p o c w1 :
  state_at (promises w0) p = Some (Done o) -> wrapPromise p w0 = (c, w1) ->
  read c w1 = (Throw (VPromise (length (promises w0))), w1) /\
  jobs w1 = jobs w0 ++ [{| j_env := c; j_derived := length (promises w0); j_outcome := o |}] /\
  (jobs w0 = [] ->
   exists w2, step faulty RunJob w1 = Some w2 /\
     read c w2 = (match o with Fulfilled v => Return v | Rejected err => Throw err end, w2)).
Proof.
  intros Hst Hw. pose proof (state_at_lt _ _ _ Hst) as Hlt.
  destruct (wrapPromise_cases p w0 Hlt) as [Hc [(rs & b & Hl & _)|(o' & Ho' & Hw1)]].
  { unfold state_at in Hst. rewrite Hl in Hst. done. }
  rewrite Hw in Hc, Hw1. cbn [fst snd] in Hc, Hw1. subst c.
  assert (o' = o) as -> by congruence.
  assert (He : envs w1 !! length (envs w0)
             = Some (fresh_env p (length (promises w0)))).
  { rewrite Hw1. wsimpl. by rewrite list_lookup_middle. }
  split_and!.
  - by rewrite (read_pending _ _ _ He eq_refl).
  - rewrite Hw1. done.
  - intros Hj.
    assert (Hj1 : jobs w1 = [{| j_env := length (envs w0);
                               j_derived := length (promises w0); j_outcome := o |}]).
    { rewrite Hw1. wsimpl. by rewrite Hj. }
    eexists. split; [cbn [step]; rewrite Hj1; reflexivity|].
    rewrite (run_job_eq _ _ _ _ Hj1 He). cbn [j_env j_derived j_outcome].
    set (w' := set_envs _ _).
    destruct (settle_frame (length (promises w0)) (Fulfilled VUndefined) w')
      as (_ & Henv & _).
    assert (He2 : envs (snd (settle (length (promises w0)) (Fulfilled VUndefined) w'))
                    !! length (envs w0)
                  = Some (written (fresh_env p (length (promises w0))) o)).
    { rewrite Henv. subst w'. wsimpl. rewrite list_lookup_insert_eq; [done|].
      by eapply lookup_lt_Some. }
    destruct o as [v|err].
    + by rewrite (read_success _ _ _ He2 eq_refl).
    + by rewrite (read_error _ _ _ He2 eq_refl).
Qed.

(** X8. When no microtask is waiting, the status of every resource has
    caught up with its promise: [read] returns the value of a fulfilled
    promise and throws the reason of a rejected one, and two resources
    that wrap the same promise hold the same status and the same result. *)
Theorem X8_quiet_mirror faulty w c e :
  reachable faulty w -> jobs w = [] -> envs w !! c = Some e ->
  (forall v, state_at (promises w) (promise e) = Some (Done (Fulfilled v)) ->
     read c w = (Return v, w)) /\
  (forall err, state_at (promises w) (promise e) = Some (Done (Rejected err)) ->
     read c w = (Throw err, w)) /\
  (forall c' e', envs w !! c' = Some e' -> promise e' = promise e ->
     status e' = status e /\ result e' = result e).
Proof.
  intros Hreach Hj Hc. pose proof (reachable_wf _ _ Hreach) as Hwf.
  assert (Hmirror : forall c e, envs w !! c = Some e ->
    (status e = "pending"%string /\ result e = VUndefined /\
       exists rs, state_at (promises w) (promise e) = Some (Pending rs))
    \/ (status e = "success"%string /\
        state_at (promises w) (promise e) = Some (Done (Fulfilled (result e))))
    \/ (status e = "error"%string /\
        state_at (promises w) (promise e) = Some (Done (Rejected (result e))))).
  { clear c e Hc. intros c e Hc.
    destruct (wf_settled _ _ _ Hwf Hc) as [Hs He].
    destruct (wf_status _ _ _ Hwf Hc) as [E|[E|E]]; [left|right; left|right; right]; auto.
    split; [done|]. split; [|by eapply wf_quiet].
    destruct Hwf as [_ _ _ _ Henv]. destruct (Henv c e Hc) as [(_&?&_)|[(?&_)|(?&_)]];
      [done|congruence..]. }
  split_and!.
  - intros v Hv. destruct (Hmirror c e Hc) as [(_&_&rs&H)|[(E&H)|(_&H)]]; [congruence| |congruence].
    rewrite (read_success _ _ _ Hc E). congruence.
  - intros v Hv. destruct (Hmirror c e Hc) as [(_&_&rs&H)|[(_&H)|(E&H)]]; [congruence..|].
    rewrite (read_error _ _ _ Hc E). congruence.
  - intros c' e' Hc' Hp.
    destruct (Hmirror c e Hc) as [(E&R&rs&H)|[(E&H)|(E&H)]];
      destruct (Hmirror c' e' Hc') as [(E'&R'&rs'&H')|[(E'&H')|(E'&H')]];
      rewrite Hp in H'; rewrite E, E'; split; congruence.
Qed.

(** ** The components *)

Lemma PullRequestReviewer_throw b w v :
  fst (read (reviewer b) w) = Throw v -> PullRequestReviewer b w = (Thrown v, w).
Proof.
  intros H. unfold PullRequestReviewer. rewrite bind_eq, read_inert, H. reflexivity.
Qed.

Lemma PullRequestReviewer_return b w x :
  fst (read (reviewer b) w) = Return x ->
  PullRequestReviewer b w =
    (match template_name x with
     | Some name => Rendered (h1 (String.append "Reviewer: " name))
     | None => Thrown (VError "TypeError")
     end, w).
Proof.
  intros H. unfold PullRequestReviewer. rewrite bind_eq, read_inert, H. reflexivity.
Qed.

Lemma PullRequestComments_throw b w v :
  fst (read (comments b) w) = Throw v -> PullRequestComments b w = (Thrown v, w).
Proof.
  intros H. unfold PullRequestComments. rewrite bind_eq, read_inert, H. reflexivity.
Qed.

Lemma PullRequestComments_return b w x :
  fst (read (comments b) w) = Return x ->
  PullRequestComments b w =
    (match map_items x with
     | Some items => Rendered (ul items)
     | None => Thrown (VError "TypeError")
     end, w).
Proof.
  intros H. unfold PullRequestComments. rewrite bind_eq, read_inert, H. reflexivity.
Qed.

Lemma PullRequestResponses_throw b w v :
  fst (read (responses b) w) = Throw v -> PullRequestResponses b w = (Thrown v, w).
Proof.
  intros H. unfold PullRequestResponses. rewrite bind_eq, read_inert, H. reflexivity.
Qed.

Lemma PullRequestResponses_return b w x :
  fst (read (responses b) w) = Return x ->
  PullRequestResponses b w =
    (match map_items x with
     | Some items => Rendered (fragment [div " User response: "; ul items])
     | None => Thrown (VError "TypeError")
     end, w).
Proof.
  intros H. unfold PullRequestResponses. rewrite bind_eq, read_inert, H. reflexivity.
Qed.

(** What a slot whose operation cannot fail gives to [read]: the
    suspender, or the value, and the value once the due time is past. *)
Lemma slot_outcome faulty w c p d v :
  wf w -> slot faulty w c p d v -> faulty p = false ->
  exists e, envs w !! c = Some e /\
    (fst (read c w) = Throw (VPromise (suspender e)) \/ fst (read c w) = Return v) /\
    ((now w < d)%Z -> fst (read c w) = Throw (VPromise (suspender e))) /\
    ((d < now w)%Z -> fst (read c w) = Return v).
Proof.
  intros Hwf Hs Hnf.
  destruct (slot_read faulty _ _ _ _ _ Hwf Hs) as (e & Hc & _ & Hval & H).
  destruct (H Hnf) as (Hne & _ & Hbefore & Hafter).
  exists e. split_and!; [done| | |].
  - destruct (read_wf _ _ _ Hwf Hc) as [[_ Hr]|[[E _]|[_ Hr]]]; [|done|].
    + left. by rewrite Hr.
    + right. rewrite Hr. cbn [fst]. f_equal. apply Hval. by rewrite Hr.
  - intros Hd. by destruct (Hbefore Hd) as (_ & _ & Hr).
  - intros Hd. by destruct (Hafter Hd) as (_ & _ & _ & Hr).
Qed.

Lemma reviewer_data_found r :
  r ∈ BE_REVIEWERS -> reviewer_data (rv_id r) = VReviewer r.
Proof.
  unfold BE_REVIEWERS. intros Hr.
  repeat (apply elem_of_cons in Hr as [->|Hr]; [reflexivity|]).
  by apply elem_of_nil in Hr.
Qed.

Lemma NoDup_map_filter {A B} (f : A -> B) (p : A -> bool) (l : list A) :
  NoDup (map f l) -> NoDup (map f (List.filter p l)).
Proof.
  induction l as [|a l IH]; [done|]. cbn [map List.filter].
  intros [Hn Hd]%NoDup_cons. destruct (p a); [|by apply IH].
  cbn [map]. apply NoDup_cons. split; [|by apply IH].
  intros Hin. apply Hn. apply list_elem_of_In in Hin. apply in_map_iff in Hin as (x & Hx & Hin).
  apply filter_In in Hin as [Hin _]. apply list_elem_of_In. apply in_map_iff. eauto.
Qed.

(** X9. [PullRequestReviewer] on a bundle for the key of a backing
    reviewer: rendering either throws the suspender of the reviewer slot,
    which is what happens during the first 300 ms, or gives the heading
    with the name of that reviewer, which is what happens after them; it
    ends in no other way. *)
Theorem X9_reviewer_heading r w0 b w1 acts w :
  reachable no_fault w0 -> r ∈ BE_REVIEWERS ->
  fetchCodeReviewerData (rv_id r) w0 = (b, w1) -> run no_fault acts w1 = Some w ->
  exists e, envs w !! reviewer b = Some e /\
    (PullRequestReviewer b w = (Thrown (VPromise (suspender e)), w) \/
     PullRequestReviewer b w = (Rendered (h1 (String.append "Reviewer: " (rv_name r))), w)) /\
    ((now w < now w0 + 300)%Z ->
       PullRequestReviewer b w = (Thrown (VPromise (suspender e)), w)) /\
    ((now w0 + 300 < now w)%Z ->
       PullRequestReviewer b w = (Rendered (h1 (String.append "Reviewer: " (rv_name r))), w)).
Proof.
  intros Hreach Hr Heq Hrun. pose proof (reachable_wf _ _ Hreach) as Hwf0.
  destruct (bundle_slots no_fault _ _ _ _ _ _ Hwf0 Heq Hrun) as (Hwf & _ & S1 & _).
  rewrite (reviewer_data_found r Hr) in S1.
  destruct (slot_outcome _ _ _ _ _ _ Hwf S1 eq_refl) as (e & Hc & Hor & Hbefore & Hafter).
  exists e. split_and!; [done| | |].
  - destruct Hor as [H|H]; [left; by apply PullRequestReviewer_throw|right].
    by rewrite (PullRequestReviewer_return _ _ _ H).
  - intros Hd. apply PullRequestReviewer_throw. auto.
  - intros Hd. by rewrite (PullRequestReviewer_return _ _ _ (Hafter Hd)).
Qed.

(** X10. [PullRequestReviewer] on a bundle for a key that no backing
    reviewer has: the reviewer slot fulfils with undefined, so from 300 ms
    on every rendering ends with the TypeError of reading [name] of
    undefined, and not with a heading. *)
Theorem X10_reviewer_missing id w0 b w1 acts w :
  id <> 3%Z -> id <> 5%Z -> id <> 7%Z ->
  reachable no_fault w0 -> fetchCodeReviewerData id w0 = (b, w1) ->
  run no_fault acts w1 = Some w ->
  (forall m, PullRequestReviewer b w <> (Rendered m, w)) /\
  ((now w0 + 300 < now w)%Z ->
     read (reviewer b) w = (Return VUndefined, w) /\
     PullRequestReviewer b w = (Thrown (VError "TypeError"), w)).
Proof.
  intros H3 H5 H7 Hreach Heq Hrun. pose proof (reachable_wf _ _ Hreach) as Hwf0.
  destruct (bundle_slots no_fault _ _ _ _ _ _ Hwf0 Heq Hrun) as (Hwf & _ & S1 & _).
  rewrite (reviewer_data_missing id H3 H5 H7) in S1.
  destruct (slot_outcome _ _ _ _ _ _ Hwf S1 eq_refl) as (e & Hc & Hor & Hbefore & Hafter).
  split.
  - intros m. destruct Hor as [H|H].
    + by rewrite (PullRequestReviewer_throw _ _ _ H).
    + by rewrite (PullRequestReviewer_return _ _ _ H).
  - intros Hd. specialize (Hafter Hd). split.
    + by rewrite read_pair, Hafter.
    + by rewrite (PullRequestReviewer_return _ _ _ Hafter).
Qed.

(** X11. [PullRequestComments] and [PullRequestResponses] on a bundle for
    any key: rendering throws the suspender of the slot, or gives the list
    with one item per backing comment (response) of that key, in the
    order of the backing data and with pairwise distinct React keys; after
    800 ms (1500 ms) it gives the list. No key makes them fail: for a key
    without comments the list is empty. *)
Theorem X11_comment_lists id w0 b w1 acts w :
  reachable no_fault w0 -> fetchCodeReviewerData id w0 = (b, w1) ->
  run no_fault acts w1 = Some w ->
  let of_key := fun l => List.filter (fun c => (cm_reviewerId c =? id)%Z) l in
  let items := fun l => map (fun c => li (cm_id c) (Some (cm_text c))) (of_key l) in
  let list1 := Rendered (ul (items BE_COMMENTS)) in
  let list2 := Rendered (fragment [div " User response: "; ul (items BE_RESPONSES)]) in
  exists ec es, envs w !! comments b = Some ec /\ envs w !! responses b = Some es /\
    (PullRequestComments b w = (Thrown (VPromise (suspender ec)), w) \/
     PullRequestComments b w = (list1, w)) /\
    ((now w0 + 800 < now w)%Z -> PullRequestComments b w = (list1, w)) /\
    (PullRequestResponses b w = (Thrown (VPromise (suspender es)), w) \/
     PullRequestResponses b w = (list2, w)) /\
    ((now w0 + 1500 < now w)%Z -> PullRequestResponses b w = (list2, w)) /\
    NoDup (map cm_id (of_key BE_COMMENTS)) /\ NoDup (map cm_id (of_key BE_RESPONSES)) /\
    (id <> 3%Z -> id <> 5%Z -> id <> 7%Z ->
     items BE_COMMENTS = [] /\ items BE_RESPONSES = []).
Proof.
  intros Hreach Heq Hrun of_key items list1 list2.
  pose proof (reachable_wf _ _ Hreach) as Hwf0.
  destruct (bundle_slots no_fault _ _ _ _ _ _ Hwf0 Heq Hrun) as (Hwf & _ & _ & S2 & S3).
  destruct (slot_outcome _ _ _ _ _ _ Hwf S2 eq_refl) as (ec & Hc & Hor & _ & Hafter).
  destruct (slot_outcome _ _ _ _ _ _ Hwf S3 eq_refl) as (es & Hc' & Hor' & _ & Hafter').
  exists ec, es. split_and!; [done|done| | | | | | |].
  - destruct Hor as [H|H]; [left; by apply PullRequestComments_throw|right].
    by rewrite (PullRequestComments_return _ _ _ H).
  - intros Hd. by rewrite (PullRequestComments_return _ _ _ (Hafter Hd)).
  - destruct Hor' as [H|H]; [left; by apply PullRequestResponses_throw|right].
    by rewrite (PullRequestResponses_return _ _ _ H).
  - intros Hd. by rewrite (PullRequestResponses_return _ _ _ (Hafter' Hd)).
  - apply NoDup_map_filter. unfold BE_COMMENTS. cbn [map cm_id].
    repeat (apply NoDup_cons; split;
      [intros Hin; repeat (apply elem_of_cons in Hin as [Hin|Hin]; [discriminate Hin|]);
       by apply elem_of_nil in Hin|]).
    apply NoDup_nil_2.
  - subst of_key. unfold BE_RESPONSES. cbn [List.filter cm_reviewerId].
    destruct (Z.eqb_spec 3 id) as [E3|E3]; destruct (Z.eqb_spec 5 id) as [E5|E5];
      destruct (Z.eqb_spec 7 id) as [E7|E7]; try lia; cbn [map cm_id];
      repeat (apply NoDup_cons; split; [apply not_elem_of_nil|]); apply NoDup_nil_2.
  - intros H3 H5 H7. subst items of_key. unfold BE_COMMENTS, BE_RESPONSES.
    cbn [List.filter cm_reviewerId].
    destruct (Z.eqb_spec 3 id) as [E3|E3]; [lia|].
    destruct (Z.eqb_spec 5 id) as [E5|E5]; [lia|].
    destruct (Z.eqb_spec 7 id) as [E7|E7]; [lia|]. done.
Qed.

(** ** The reviewer-details page *)




Section Page.

Variable faulty : nat -> bool.

(** A run of the page is a run of the run time: a press of the button is
    a call of [fetchCodeReviewerData]. *)
Lemma sys_run_heap evs s s' :
  sys_run faulty evs s = Some s' -> exists acts, run faulty acts (heap s) = Some (heap s').
Proof.
  revert s. induction evs as [|ev evs IH]; intros s Hr.
  - cbn [sys_run] in Hr. injection Hr as <-. by exists [].
  - cbn [sys_run] in Hr. destruct (sys_step faulty ev s) as [s1|] eqn:Hs; [|done].
    destruct (IH _ Hr) as [acts Hacts]. destruct ev as [a|].
    + apply sys_step_run in Hs as [Ha _]. exists (a :: acts). cbn [run]. by rewrite Ha.
    + apply sys_step_click in Hs as (b & Hb & _).
      exists ([Invoke (CallFetchCodeReviewerData (getNextId (b_id (resource (app s)))))]
              ++ acts).
      eapply run_app; [|exact Hacts]. by eapply run_fetchCodeReviewerData.
Qed.

(** The bundle the page holds was built by [fetchCodeReviewerData]. *)
Lemma sys_built w0 evs s :
  reachable faulty w0 -> sys_run faulty evs (sys_init w0) = Some s ->
  exists w_pre w_post acts,
    reachable faulty w_pre /\
    fetchCodeReviewerData (b_id (resource (app s))) w_pre = (resource (app s), w_post) /\
    run faulty acts w_post = Some (heap s).
Proof.
  intros Hreach Hr. apply (sys_run_built _ _ _ _ Hr). unfold sys_init.
  destruct (mount w0) as [a w] eqn:Hm. apply mount_eq in Hm as (b & Hb & ->).
  cbn [heap app resource].
  destruct (fetchCodeReviewerData_frame _ _ _ _ Hb) as [Hid _].
  exists w0, w, []. rewrite Hid. done.
Qed.





End Page.

(** X13. Nothing is cancelled: a bundle that the page has held keeps
    resolving after it has been replaced. There is a time [t], the time
    the bundle was fetched, such that after every further run of the page,
    presses of the button included, its three slots still resolve at
    [t + 300], [t + 800] and [t + 1500] with the data of the key of that
    bundle. *)
Theorem X13_no_cancellation w0 evs s :
  reachable no_fault w0 -> sys_run no_fault evs (sys_init w0) = Some s ->
  exists t, forall evs' s', sys_run no_fault evs' s = Some s' ->
    resolves_at (heap s') (reviewer (resource (app s))) (t + 300)
      (reviewer_data (b_id (resource (app s)))) /\
    resolves_at (heap s') (comments (resource (app s))) (t + 800)
      (comments_data (b_id (resource (app s)))) /\
    resolves_at (heap s') (responses (resource (app s))) (t + 1500)
      (responses_data (b_id (resource (app s)))).
Proof.
  intros Hreach Hr.
  destruct (sys_built no_fault _ _ _ Hreach Hr) as (w_pre & w_post & acts & Hpre & Hb & Hrun).
  exists (now w_pre). intros evs' s' Hr'.
  destruct (sys_run_heap no_fault _ _ _ Hr') as [acts' Hacts'].
  pose proof (run_app no_fault _ _ _ _ _ Hrun Hacts') as Hall.
  destruct (bundle_slots no_fault _ _ _ _ _ _ (reachable_wf _ _ Hpre) Hb Hall)
    as (Hwf & _ & S1 & S2 & S3).
  split_and!.
  - by destruct (slot_resolves _ _ _ _ _ _ Hwf S1 eq_refl) as [H _].
  - by destruct (slot_resolves _ _ _ _ _ _ Hwf S2 eq_refl) as [H _].
  - by destruct (slot_resolves _ _ _ _ _ _ Hwf S3 eq_refl) as [H _].
Qed.

(** X14. On the reviewer-details page [PullRequestReviewer] never fails:
    the key of the bundle is always that of a backing reviewer, so
    rendering the heading of the bundle the page holds either throws the
    suspender of its reviewer slot or gives the heading with the name of
    the reviewer of that key. *)
Theorem X14_page_heading w0 evs s :
  reachable no_fault w0 -> sys_run no_fault evs (sys_init w0) = Some s ->
  exists e r, envs (heap s) !! reviewer (resource (app s)) = Some e /\
    r ∈ BE_REVIEWERS /\ rv_id r = key_after (clicks evs) /\
    (PullRequestReviewer (resource (app s)) (heap s)
       = (Thrown (VPromise (suspender e)), heap s) \/
     PullRequestReviewer (resource (app s)) (heap s)
       = (Rendered (h1 (String.append "Reviewer: " (rv_name r))), heap s)).
Proof.
  intros Hreach Hr.
  destruct (sys_built no_fault _ _ _ Hreach Hr) as (w_pre & w_post & acts & Hpre & Hb & Hrun).
  assert (Hk : b_id (resource (app s)) = key_after (clicks evs)).
  { replace (clicks evs) with (clicks evs + 0) by lia.
    apply (sys_run_key no_fault _ _ _ _ Hr). apply sys_init_key. }
  destruct (bundle_slots no_fault _ _ _ _ _ _ (reachable_wf _ _ Hpre) Hb Hrun)
    as (Hwf & _ & S1 & _).
  assert (Hfound : exists r, r ∈ BE_REVIEWERS /\ rv_id r = key_after (clicks evs)).
  { unfold BE_REVIEWERS. destruct (key_after_cases (clicks evs)) as [E|[E|E]]; rewrite E.
    - exists {| rv_name := "Marioli"; rv_id := 3 |}. split; [|done]. apply list_elem_of_here.
    - exists {| rv_name := "Carlos"; rv_id := 5 |}. split; [|done].
      apply list_elem_of_further, list_elem_of_here.
    - exists {| rv_name := "Lucia"; rv_id := 7 |}. split; [|done].
      do 2 apply list_elem_of_further. apply list_elem_of_here. }
  destruct Hfound as (r & Hin & Hid).
  rewrite Hk, <- Hid, (reviewer_data_found r Hin) in S1.
  destruct (slot_outcome _ _ _ _ _ _ Hwf S1 eq_refl) as (e & Hc & Hor & _).
  exists e, r. split_and!; [done..|].
  destruct Hor as [H|H]; [left; by apply PullRequestReviewer_throw|right].
  by rewrite (PullRequestReviewer_return _ _ _ H).
Qed.

Lemma PullRequestComments_rendered b w m :
  PullRequestComments b w = (Rendered m, w) -> exists x, fst (read (comments b) w) = Return x.
Proof.
  intros H. destruct (fst (read (comments b) w)) as [x|v] eqn:E; [by exists x|].
  by rewrite (PullRequestComments_throw _ _ _ E) in H.
Qed.

Lemma PullRequestResponses_rendered b w m :
  PullRequestResponses b w = (Rendered m, w) -> exists x, fst (read (responses b) w) = Return x.
Proof.
  intros H. destruct (fst (read (responses b) w)) as [x|v] eqn:E; [by exists x|].
  by rewrite (PullRequestResponses_throw _ _ _ E) in H.
Qed.

(** X15. The three components become ready in the order in which the
    reviewer page lists them: on a bundle for the key of a backing
    reviewer, whenever [PullRequestComments] renders its list,
    [PullRequestReviewer] renders the heading, and whenever
    [PullRequestResponses] renders, [PullRequestComments] renders the
    list of the comments of that key. *)
Theorem X15_reveal_order r w0 b w1 acts w :
  reachable no_fault w0 -> r ∈ BE_REVIEWERS ->
  fetchCodeReviewerData (rv_id r) w0 = (b, w1) -> run no_fault acts w1 = Some w ->
  (forall m, PullRequestComments b w = (Rendered m, w) ->
     PullRequestReviewer b w = (Rendered (h1 (String.append "Reviewer: " (rv_name r))), w)) /\
  (forall m, PullRequestResponses b w = (Rendered m, w) ->
     PullRequestComments b w =
       (Rendered (ul (map (fun c => li (cm_id c) (Some (cm_text c)))
                        (List.filter (fun c => (cm_reviewerId c =? rv_id r)%Z) BE_COMMENTS))),
        w)).
Proof.
  intros Hreach Hr Heq Hrun. pose proof (reachable_wf _ _ Hreach) as Hwf0.
  destruct (bundle_slots no_fault _ _ _ _ _ _ Hwf0 Heq Hrun) as (Hwf & _ & S1 & S2 & S3).
  split; intros m Hm.
  - apply PullRequestComments_rendered in Hm as [x Hx].
    assert (H1 : fst (read (reviewer b) w) = Return (reviewer_data (rv_id r))).
    { eapply (slot_order no_fault); [exact Hwf|exact S1|exact S2|lia|done|exact Hx]. }
    rewrite (PullRequestReviewer_return _ _ _ H1), (reviewer_data_found r Hr). reflexivity.
  - apply PullRequestResponses_rendered in Hm as [x Hx].
    assert (H2 : fst (read (comments b) w) = Return (comments_data (rv_id r))).
    { eapply (slot_order no_fault); [exact Hwf|exact S2|exact S3|lia|done|exact Hx]. }
    rewrite (PullRequestComments_return _ _ _ H2). reflexivity.
Qed.

(** ** A resource in the render that follows its construction *)

(** X16. A resource is never ready in the code that follows its
    construction. Right after [fetchCodeReviewerData] each of the three
    components throws the suspender of its slot; right after
    [fetchCodeReviewData] and [getAdd3ToResource] [read] throws the
    suspender. So the first rendering after a press of the button of the
    reviewer-details page always suspends. *)
Theorem X16_fresh_suspends w0 :
  reachable no_fault w0 ->
  (forall id b w1, fetchCodeReviewerData id w0 = (b, w1) ->
     exists e1 e2 e3,
       envs w1 !! reviewer b = Some e1 /\ envs w1 !! comments b = Some e2 /\
       envs w1 !! responses b = Some e3 /\
       PullRequestReviewer b w1 = (Thrown (VPromise (suspender e1)), w1) /\
       PullRequestComments b w1 = (Thrown (VPromise (suspender e2)), w1) /\
       PullRequestResponses b w1 = (Thrown (VPromise (suspender e3)), w1)) /\
  (forall b w1, fetchCodeReviewData w0 = (b, w1) ->
     exists e1 e2,
       envs w1 !! reviewers b = Some e1 /\ envs w1 !! all_comments b = Some e2 /\
       read (reviewers b) w1 = (Throw (VPromise (suspender e1)), w1) /\
       read (all_comments b) w1 = (Throw (VPromise (suspender e2)), w1)) /\
  (forall value c w1, getAdd3ToResource value w0 = (c, w1) ->
     exists e, envs w1 !! c = Some e /\
       read c w1 = (Throw (VPromise (suspender e)), w1)) /\
  (forall s s', heap s = w0 -> sys_step no_fault Click s = Some s' ->
     exists e, envs (heap s') !! reviewer (resource (app s')) = Some e /\
       PullRequestReviewer (resource (app s')) (heap s')
       = (Thrown (VPromise (suspender e)), heap s')).
Proof.
  intros Hreach. pose proof (reachable_wf _ _ Hreach) as Hwf0.
  assert (Hbundle : forall id b w1, fetchCodeReviewerData id w0 = (b, w1) ->
     exists e1 e2 e3,
       envs w1 !! reviewer b = Some e1 /\ envs w1 !! comments b = Some e2 /\
       envs w1 !! responses b = Some e3 /\
       PullRequestReviewer b w1 = (Thrown (VPromise (suspender e1)), w1) /\
       PullRequestComments b w1 = (Thrown (VPromise (suspender e2)), w1) /\
       PullRequestResponses b w1 = (Thrown (VPromise (suspender e3)), w1)).
  { intros id b w1 Heq.
    destruct (fetchCodeReviewerData_spec no_fault _ _ _ _ Hwf0 Heq)
      as (-> & _ & Hwf1 & Hnow & S1 & S2 & S3).
    cbn [reviewer comments responses].
    destruct (slot_outcome _ _ _ _ _ _ Hwf1 S1 eq_refl) as (e1 & Hc1 & _ & H1 & _).
    destruct (slot_outcome _ _ _ _ _ _ Hwf1 S2 eq_refl) as (e2 & Hc2 & _ & H2 & _).
    destruct (slot_outcome _ _ _ _ _ _ Hwf1 S3 eq_refl) as (e3 & Hc3 & _ & H3 & _).
    exists e1, e2, e3. split_and!; [done..| | |].
    - apply PullRequestReviewer_throw. cbn [reviewer]. apply H1. lia.
    - apply PullRequestComments_throw. cbn [comments]. apply H2. lia.
    - apply PullRequestResponses_throw. cbn [responses]. apply H3. lia. }
  split_and!.
  - exact Hbundle.
  - intros b w1 Heq.
    destruct (fetchCodeReviewData_spec no_fault _ _ _ Hwf0 Heq) as (Hwf1 & Hnow & S1 & S2).
    destruct (slot_outcome _ _ _ _ _ _ Hwf1 S1 eq_refl) as (e1 & Hc1 & _ & H1 & _).
    destruct (slot_outcome _ _ _ _ _ _ Hwf1 S2 eq_refl) as (e2 & Hc2 & _ & H2 & _).
    exists e1, e2. split_and!; [done..| |].
    + rewrite read_pair, H1; [done|lia].
    + rewrite read_pair, H2; [done|lia].
  - intros value c w1 Heq.
    destruct (getAdd3ToResource_spec no_fault _ _ _ _ Hwf0 Heq) as (Hwf1 & Hnow & S1).
    destruct (slot_outcome _ _ _ _ _ _ Hwf1 S1 eq_refl) as (e & Hc & _ & H1 & _).
    exists e. split; [done|]. rewrite read_pair, H1; [done|lia].
  - intros s s' Hs (b & Hb & Happ)%sys_step_click. rewrite Hs in Hb.
    destruct (Hbundle _ _ _ Hb) as (e1 & _ & _ & Hc & _ & _ & H & _).
    rewrite Happ. cbn [resource setTab setResource]. by exists e1.
Qed.

(** X17. Rendering again once the thrown promise has settled makes
    progress: on a bundle for the key of a backing reviewer, in any world
    in which the suspender of the reviewer slot is settled,
    [PullRequestReviewer] renders the heading. *)
Theorem X17_retry_progress r w0 b w1 acts w e o :
  reachable no_fault w0 -> r ∈ BE_REVIEWERS ->
  fetchCodeReviewerData (rv_id r) w0 = (b, w1) -> run no_fault acts w1 = Some w ->
  envs w !! reviewer b = Some e ->
  state_at (promises w) (suspender e) = Some (Done o) ->
  PullRequestReviewer b w = (Rendered (h1 (String.append "Reviewer: " (rv_name r))), w).
Proof.
  intros Hreach Hr Heq Hrun Hc Ho. pose proof (reachable_wf _ _ Hreach) as Hwf0.
  destruct (bundle_slots no_fault _ _ _ _ _ _ Hwf0 Heq Hrun) as (Hwf & _ & S1 & _).
  rewrite (reviewer_data_found r Hr) in S1.
  pose proof (reachable_fetch no_fault _ _ _ _ _ _ Hreach Heq Hrun) as Hreach'.
  destruct (reachable_suspender_ok no_fault w Hreach' _ e Hc) as (_ & _ & _ & Hst).
  destruct (slot_outcome _ _ _ _ _ _ Hwf S1 eq_refl) as (e' & Hc' & Hor & _).
  assert (e' = e) as -> by congruence.
  destruct Hor as [H|H].
  - destruct (read_wf _ _ _ Hwf Hc) as [[E _]|[[E Hread]|[E Hread]]].
    + destruct Hst as [[[rs Hp] _]|[[_ Hne]|[Hf _]]]; [congruence|done|done].
    + rewrite Hread in H. cbn [fst] in H.
      destruct (slot_read no_fault _ _ _ _ _ Hwf S1) as (e2 & Hc2 & _ & _ & Hnf).
      assert (e2 = e) as -> by congruence. by destruct (Hnf eq_refl) as (Hne & _).
    + rewrite Hread in H. done.
  - by rewrite (PullRequestReviewer_return _ _ _ H).
Qed.


(** ** The theorems at concrete runs *)

(** A promise of the environment is wrapped, then rejected; after the
    reaction job [read] throws the reason. *)
Lemma C1_read_contract_witness :
  exists w,
    run no_fault [Reject 0 (VError "boom"); RunJob]
        (snd (wrapPromise 0 (snd (new_promise true empty_world)))) = Some w /\
    read 0 w = (Throw (VError "boom"), w).
Proof.
  eexists. split; [vm_compute; reflexivity|].
  match goal with |- read 0 ?w = _ =>
    destruct (C1_read_contract no_fault (snd (new_promise true empty_world)) 0 0
                (snd (wrapPromise 0 (snd (new_promise true empty_world))))
                [Reject 0 (VError "boom"); RunJob] w)
      as (e & He & _ & _ & _ & Herr & _)
  end.
  - exists [NewPromise]. reflexivity.
  - simpl. lia.
  - reflexivity.
  - vm_compute. reflexivity.
  - vm_compute in He. injection He as <-. destruct Herr as [_ H]; [reflexivity|].
    exact H.
Defined.

(** The bundle for key 3 built in the empty world arms three timers. *)
Lemma C2_single_fire_witness :
  exists b w1,
    fetchCodeReviewerData 3 empty_world = (b, w1) /\
    timers w1 =
      [ {| due := 300; callback := FetchedReviewer 3 0 |};
        {| due := 800; callback := FetchedCommentsForReviewer 3 1 |};
        {| due := 1500; callback := FetchedResponses 3 2 |} ].
Proof.
  eexists _, _. split; [vm_compute; reflexivity|].
  assert (Hreach : reachable no_fault empty_world) by (exists []; reflexivity).
  destruct (C2_single_fire no_fault empty_world Hreach) as (_ & _ & H).
  match goal with |- timers ?w1 = _ =>
    destruct (H 3%Z {| b_id := 3; reviewer := 0; comments := 1; responses := 2 |} w1)
      as [Ht _]
  end.
  - vm_compute. reflexivity.
  - exact Ht.
Defined.

(** A promise of the environment is wrapped and resolved with 1: the
    reaction job writes "success" and 1, and the environment is frozen
    afterwards. *)
Lemma C3_status_monotone_witness :
  exists w_mid w,
    run no_fault [Resolve 0 (VNumber 1)]
        (snd (wrapPromise 0 (snd (new_promise true empty_world)))) = Some w_mid /\
    (exists w', step no_fault RunJob w_mid = Some w' /\
       envs w' !! 0 = Some {| promise := 0; status := "success"; result := VNumber 1;
                              suspender := 1 |}) /\
    run no_fault [Resolve 0 (VNumber 1); RunJob]
        (snd (wrapPromise 0 (snd (new_promise true empty_world)))) = Some w /\
    forall acts' w', run no_fault acts' w = Some w' ->
      envs w' !! 0 = Some {| promise := 0; status := "success"; result := VNumber 1;
                             suspender := 1 |}.
Proof.
  eexists _, _. split; [vm_compute; reflexivity|]. split.
  - match goal with |- exists w', step _ _ ?w_mid = _ /\ _ =>
      destruct (C3_status_monotone no_fault (snd (new_promise true empty_world)) 0 0
                  (snd (wrapPromise 0 (snd (new_promise true empty_world))))
                  [Resolve 0 (VNumber 1)] w_mid)
        as (_ & e & He & _ & _ & _ & Hwrite & _)
    end.
    + exists [NewPromise]. reflexivity.
    + simpl. lia.
    + reflexivity.
    + vm_compute. reflexivity.
    + vm_compute in He. injection He as <-.
      destruct (Hwrite {| j_env := 0; j_derived := 1; j_outcome := Fulfilled (VNumber 1) |} [])
        as (_ & _ & w' & Hs & Hw & _).
      * vm_compute. reflexivity.
      * reflexivity.
      * exists w'. split; [exact Hs|exact Hw].
  - split; [vm_compute; reflexivity|].
    match goal with |- forall acts' w', run _ _ ?w = _ -> _ =>
      destruct (C3_status_monotone no_fault (snd (new_promise true empty_world)) 0 0
                  (snd (wrapPromise 0 (snd (new_promise true empty_world))))
                  [Resolve 0 (VNumber 1); RunJob] w)
        as (_ & e & He & _ & _ & Hfrozen & _)
    end.
    + exists [NewPromise]. reflexivity.
    + simpl. lia.
    + reflexivity.
    + vm_compute. reflexivity.
    + vm_compute in He. injection He as <-. apply Hfrozen. discriminate.
Defined.

(** Three calls of [read] on a fulfilled resource. *)
Lemma C4_read_idempotent_witness :
  exists w,
    run no_fault [NewPromise; Invoke (CallWrapPromise 0); Resolve 0 (VNumber 1); RunJob]
        empty_world = Some w /\
    read_many 3 0 w = ([Return (VNumber 1); Return (VNumber 1); Return (VNumber 1)], w).
Proof.
  eexists. split; [vm_compute; reflexivity|].
  match goal with |- read_many 3 0 ?w = _ =>
    destruct (C4_read_idempotent no_fault w 0
                {| promise := 0; status := "success"; result := VNumber 1; suspender := 1 |})
      as (r & [[_ Hr]|[Hs _]] & Hmany & _)
  end.
  - exists [NewPromise; Invoke (CallWrapPromise 0); Resolve 0 (VNumber 1); RunJob].
    vm_compute. reflexivity.
  - reflexivity.
  - discriminate.
  - subst r. exact (Hmany 3).
  - discriminate.
Defined.

(** The status of a fulfilled resource is one that [read] tests. *)
Lemma C8_read_exhaustive_witness :
  falls_through {| promise := 0; status := "success"; result := VNumber 1; suspender := 1 |}
  = false.
Proof.
  refine (proj1 (C8_read_exhaustive no_fault
    {| now := 0;
       promises := [ {| p_state := Done (Fulfilled (VNumber 1)); p_open := true |};
                     {| p_state := Done (Fulfilled VUndefined); p_open := false |} ];
       envs := [ {| promise := 0; status := "success"; result := VNumber 1;
                    suspender := 1 |} ];
       timers := []; jobs := []; console := [] |} 0 _ _ _)).
  - exists [NewPromise; Invoke (CallWrapPromise 0); Resolve 0 (VNumber 1); RunJob].
    vm_compute. reflexivity.
  - reflexivity.
Defined.

(** The operation of the reviewer slot fails at once; the comments slot
    still resolves after 800 time units with the comments of key 3. *)
Lemma C5_slot_independence_witness :
  exists b w1 w,
    fetchCodeReviewerData 3 empty_world = (b, w1) /\
    run (fun p => p =? 0)
        [Fail 0 (VError "down"); RunJob; Advance 300; Fire 0; Advance 800; Fire 0; RunJob;
         Advance 801] w1 = Some w /\
    read (reviewer b) w = (Throw (VError "down"), w) /\
    read (comments b) w = (Return (comments_data 3), w).
Proof.
  eexists _, _, _. split; [vm_compute; reflexivity|]. split; [vm_compute; reflexivity|].
  split; [vm_compute; reflexivity|].
  match goal with |- read _ ?w = _ =>
    destruct (C5_slot_independence (fun p => p =? 0) empty_world 3
                {| b_id := 3; reviewer := 0; comments := 1; responses := 2 |}
                (snd (fetchCodeReviewerData 3 empty_world))
                [Fail 0 (VError "down"); RunJob; Advance 300; Fire 0; Advance 800; Fire 0;
                 RunJob; Advance 801] w)
      as (_ & _ & Hc & _)
  end.
  - exists []. reflexivity.
  - vm_compute. reflexivity.
  - vm_compute. reflexivity.
  - destruct (Hc eq_refl) as (e & _ & _ & _ & Hafter). apply Hafter. vm_compute. reflexivity.
Defined.

(** The reviewer slot of the bundle for key 3, read at time 301. *)
Lemma C7_bundle_of_key_3_witness :
  exists b w1 w,
    fetchCodeReviewerData 3 empty_world = (b, w1) /\
    run no_fault [Advance 300; Fire 0; RunJob; Advance 301] w1 = Some w /\
    read (reviewer b) w = (Return (VReviewer {| rv_name := "Marioli"; rv_id := 3 |}), w).
Proof.
  eexists _, _, _. split; [vm_compute; reflexivity|]. split; [vm_compute; reflexivity|].
  match goal with |- read _ ?w = _ =>
    destruct (C7_bundle_of_key_3 empty_world
                {| b_id := 3; reviewer := 0; comments := 1; responses := 2 |}
                (snd (fetchCodeReviewerData 3 empty_world))
                [Advance 300; Fire 0; RunJob; Advance 301] w)
      as ((e & _ & _ & _ & Hafter) & _ & _)
  end.
  - exists []. reflexivity.
  - vm_compute. reflexivity.
  - vm_compute. reflexivity.
  - apply Hafter. vm_compute. reflexivity.
Defined.

(** No reviewer has id 4: the slot is fulfilled with undefined. *)
Lemma C9_missing_reviewer_witness :
  exists b w1 w,
    fetchCodeReviewerData 4 empty_world = (b, w1) /\
    run no_fault [Advance 300; Fire 0; RunJob; Advance 301] w1 = Some w /\
    read (reviewer b) w = (Return VUndefined, w).
Proof.
  eexists _, _, _. split; [vm_compute; reflexivity|]. split; [vm_compute; reflexivity|].
  match goal with |- read _ ?w = _ =>
    destruct (C9_missing_reviewer 4 empty_world
                {| b_id := 4; reviewer := 0; comments := 1; responses := 2 |}
                (snd (fetchCodeReviewerData 4 empty_world))
                [Advance 300; Fire 0; RunJob; Advance 301] w)
      as (_ & _ & _ & _ & e & _ & _ & _ & Hafter)
  end.
  - lia.
  - lia.
  - lia.
  - exists []. reflexivity.
  - vm_compute. reflexivity.
  - vm_compute. reflexivity.
  - apply Hafter. vm_compute. reflexivity.
Defined.

(** Four presses of the button: 3, 5, 7, 3, 5. *)
Lemma C10_key_cycle_witness :
  exists s,
    sys_run no_fault [Click; Run (Advance 10); Click; Click; Click] (sys_init empty_world)
    = Some s /\
    b_id (resource (app s)) = 5%Z.
Proof.
  eexists. split; [vm_compute; reflexivity|].
  match goal with |- b_id (resource (app ?s)) = _ =>
    destruct (C10_key_cycle no_fault empty_world
                [Click; Run (Advance 10); Click; Click; Click] s)
      as (_ & _ & _ & _ & _ & Hk & _)
  end.
  - vm_compute. reflexivity.
  - exact Hk.
Defined.

(** After a press and some time, the page holds the bundle of key 5. *)
Lemma C6_atomic_swap_witness :
  exists s,
    sys_run no_fault [Click; Run (Advance 300); Run (Fire 0)] (sys_init empty_world) = Some s /\
    b_id (resource (app s)) = 5%Z /\
    paired no_fault (heap s) (resource (app s)).
Proof.
  eexists. split; [vm_compute; reflexivity|]. split; [reflexivity|].
  match goal with |- paired _ (heap ?s) _ =>
    refine (proj1 (C6_atomic_swap no_fault empty_world
                     [Click; Run (Advance 300); Run (Fire 0)] s _ _))
  end.
  - exists []. reflexivity.
  - vm_compute. reflexivity.
Defined.

(** 2^53 + 3, read at time 1801: the sum of the doubles is 2^53 + 4. *)
Lemma X1_add3_resolves_witness :
  exists c w1 w,
    getAdd3ToResource 9007199254740992 empty_world = (c, w1) /\
    run no_fault [Advance 1800; Fire 0; RunJob; Advance 1801] w1 = Some w /\
    read c w = (Return (VNumber 9007199254740996), w).
Proof.
  eexists _, _, _. split; [vm_compute; reflexivity|]. split; [vm_compute; reflexivity|].
  match goal with |- read _ ?w = _ =>
    destruct (X1_add3_resolves 9007199254740992 empty_world 0
                (snd (getAdd3ToResource 9007199254740992 empty_world))
                [Advance 1800; Fire 0; RunJob; Advance 1801] w)
      as (e & _ & _ & _ & Hafter)
  end.
  - exists []. reflexivity.
  - vm_compute. reflexivity.
  - vm_compute. reflexivity.
  - apply Hafter. vm_compute. reflexivity.
Defined.

(** The comments slot of [fetchCodeReviewData], read at time 2001. *)
Lemma X2_review_data_resolves_witness :
  exists b w1 w,
    fetchCodeReviewData empty_world = (b, w1) /\
    run no_fault [Advance 1000; Fire 0; RunJob; Advance 2000; Fire 0; RunJob; Advance 2001] w1
    = Some w /\
    read (all_comments b) w = (Return (VComments BE_COMMENTS), w).
Proof.
  eexists _, _, _. split; [vm_compute; reflexivity|]. split; [vm_compute; reflexivity|].
  match goal with |- read _ ?w = _ =>
    destruct (X2_review_data_resolves empty_world {| reviewers := 0; all_comments := 1 |}
                (snd (fetchCodeReviewData empty_world))
                [Advance 1000; Fire 0; RunJob; Advance 2000; Fire 0; RunJob; Advance 2001] w)
      as (_ & (e & _ & _ & _ & Hafter) & _)
  end.
  - exists []. reflexivity.
  - vm_compute. reflexivity.
  - vm_compute. reflexivity.
  - apply Hafter. vm_compute. reflexivity.
Defined.

(** The comments of key 3 have arrived at time 800: so has the reviewer. *)
Lemma X3_bundle_order_witness :
  exists b w1 w,
    fetchCodeReviewerData 3 empty_world = (b, w1) /\
    run no_fault [Advance 300; Fire 0; RunJob; Advance 800; Fire 0; RunJob] w1 = Some w /\
    fst (read (reviewer b) w) = Return (VReviewer {| rv_name := "Marioli"; rv_id := 3 |}).
Proof.
  eexists _, _, _. split; [vm_compute; reflexivity|]. split; [vm_compute; reflexivity|].
  match goal with |- fst (read _ ?w) = _ =>
    destruct (X3_bundle_order 3 empty_world
                {| b_id := 3; reviewer := 0; comments := 1; responses := 2 |}
                (snd (fetchCodeReviewerData 3 empty_world))
                [Advance 300; Fire 0; RunJob; Advance 800; Fire 0; RunJob] w)
      as (Hfirst & _)
  end.
  - exists []. reflexivity.
  - vm_compute. reflexivity.
  - vm_compute. reflexivity.
  - apply (Hfirst (comments_data 3)). vm_compute. reflexivity.
Defined.

(** The comments of key 5, read at time 800. *)
Lemma X4_lists_of_key_witness :
  exists b w1 w,
    fetchCodeReviewerData 5 empty_world = (b, w1) /\
    run no_fault [Advance 300; Fire 0; RunJob; Advance 800; Fire 0; RunJob] w1 = Some w /\
    exists l, fst (read (comments b) w) = Return (VComments l) /\
      forall c, c ∈ l <-> c ∈ BE_COMMENTS /\ cm_reviewerId c = 5%Z.
Proof.
  eexists _, _, _. split; [vm_compute; reflexivity|]. split; [vm_compute; reflexivity|].
  match goal with |- context [read _ ?w] =>
    destruct (X4_lists_of_key no_fault 5 empty_world
                {| b_id := 5; reviewer := 0; comments := 1; responses := 2 |}
                (snd (fetchCodeReviewerData 5 empty_world))
                [Advance 300; Fire 0; RunJob; Advance 800; Fire 0; RunJob] w)
      as (Hfirst & _)
  end.
  - exists []. reflexivity.
  - vm_compute. reflexivity.
  - vm_compute. reflexivity.
  - destruct (Hfirst (comments_data 5)) as (l & Hl & Hiff & _).
    + vm_compute. reflexivity.
    + exists l. split; [|exact Hiff]. rewrite <- Hl. vm_compute. reflexivity.
Defined.

(** The reviewer of key 7 is Lucia. *)
Lemma X5_reviewer_of_key_witness :
  exists b w1 w,
    fetchCodeReviewerData 7 empty_world = (b, w1) /\
    run no_fault [Advance 300; Fire 0; RunJob] w1 = Some w /\
    fst (read (reviewer b) w) = Return (VReviewer {| rv_name := "Lucia"; rv_id := 7 |}) /\
    ((exists r, VReviewer {| rv_name := "Lucia"; rv_id := 7 |} = VReviewer r /\
                r ∈ BE_REVIEWERS /\ rv_id r = 7%Z)
     \/ (VReviewer {| rv_name := "Lucia"; rv_id := 7 |} = VUndefined /\
         forall r, r ∈ BE_REVIEWERS -> rv_id r <> 7%Z)).
Proof.
  eexists _, _, _. split; [vm_compute; reflexivity|]. split; [vm_compute; reflexivity|].
  match goal with |- fst (read _ ?w) = _ /\ _ =>
    pose proof (X5_reviewer_of_key no_fault 7 empty_world
                  {| b_id := 7; reviewer := 0; comments := 1; responses := 2 |}
                  (snd (fetchCodeReviewerData 7 empty_world))
                  [Advance 300; Fire 0; RunJob] w
                  (VReviewer {| rv_name := "Lucia"; rv_id := 7 |})) as H
  end.
  split; [vm_compute; reflexivity|]. apply H.
  - exists []. reflexivity.
  - vm_compute. reflexivity.
  - vm_compute. reflexivity.
  - vm_compute. reflexivity.
Defined.

(** The suspender of a reviewer resource after the reviewer has arrived. *)
Lemma X6_suspender_contract_witness :
  exists w e,
    run no_fault [Invoke (CallFetchCodeReviewerData 3); Advance 300; Fire 0; RunJob] empty_world
    = Some w /\
    envs w !! 0 = Some e /\
    (status e = "pending"%string <->
       exists rs, state_at (promises w) (suspender e) = Some (Pending rs)) /\
    forall o, state_at (promises w) (suspender e) = Some (Done o) -> o = Fulfilled VUndefined.
Proof.
  eexists _, _. split; [vm_compute; reflexivity|]. split; [vm_compute; reflexivity|].
  match goal with |- (status ?e = _ <-> _) /\ (forall o, state_at (promises ?w) _ = _ -> _) =>
    destruct (X6_suspender_contract no_fault w 0 e) as (H1 & H2 & _)
  end.
  - exists [Invoke (CallFetchCodeReviewerData 3); Advance 300; Fire 0; RunJob].
    vm_compute. reflexivity.
  - vm_compute. reflexivity.
  - reflexivity.
  - split; [exact H1|exact H2].
Defined.

(** A promise resolved with 7 and wrapped afterwards. *)
Lemma X7_wrap_settled_witness :
  exists w0 w1,
    run no_fault [NewPromise; Resolve 0 (VNumber 7)] empty_world = Some w0 /\
    wrapPromise 0 w0 = (0, w1) /\
    read 0 w1 = (Throw (VPromise 1), w1) /\
    exists w2, step no_fault RunJob w1 = Some w2 /\ read 0 w2 = (Return (VNumber 7), w2).
Proof.
  eexists _, _. split; [vm_compute; reflexivity|]. split; [vm_compute; reflexivity|].
  match goal with |- read 0 ?w1 = _ /\ _ =>
    destruct (X7_wrap_settled no_fault
                (snd (settle 0 (Fulfilled (VNumber 7)) (snd (new_promise true empty_world))))
                0 (Fulfilled (VNumber 7)) 0 w1)
      as (H1 & _ & H2)
  end.
  - vm_compute. reflexivity.
  - vm_compute. reflexivity.
  - split; [exact H1|]. apply H2. vm_compute. reflexivity.
Defined.

(** One promise wrapped twice and resolved with 1. *)
Lemma X8_quiet_mirror_witness :
  exists w e,
    run no_fault [NewPromise; Invoke (CallWrapPromise 0); Invoke (CallWrapPromise 0);
                  Resolve 0 (VNumber 1); RunJob; RunJob] empty_world = Some w /\
    envs w !! 1 = Some e /\
    read 1 w = (Return (VNumber 1), w).
Proof.
  eexists _, _. split; [vm_compute; reflexivity|]. split; [vm_compute; reflexivity|].
  match goal with |- read 1 ?w = _ =>
    destruct (X8_quiet_mirror no_fault w 1
                {| promise := 0; status := "success"; result := VNumber 1; suspender := 2 |})
      as (H1 & _)
  end.
  - exists [NewPromise; Invoke (CallWrapPromise 0); Invoke (CallWrapPromise 0);
            Resolve 0 (VNumber 1); RunJob; RunJob].
    vm_compute. reflexivity.
  - vm_compute. reflexivity.
  - vm_compute. reflexivity.
  - apply H1. vm_compute. reflexivity.
Defined.

(** The heading of the bundle of key 3 at time 301. *)
Lemma X9_reviewer_heading_witness :
  exists b w1 w,
    fetchCodeReviewerData 3 empty_world = (b, w1) /\
    run no_fault [Advance 300; Fire 0; RunJob; Advance 301] w1 = Some w /\
    PullRequestReviewer b w = (Rendered (h1 "Reviewer: Marioli"), w).
Proof.
  eexists _, _, _. split; [vm_compute; reflexivity|]. split; [vm_compute; reflexivity|].
  match goal with |- PullRequestReviewer _ ?w = _ =>
    destruct (X9_reviewer_heading {| rv_name := "Marioli"; rv_id := 3 |} empty_world
                {| b_id := 3; reviewer := 0; comments := 1; responses := 2 |}
                (snd (fetchCodeReviewerData 3 empty_world))
                [Advance 300; Fire 0; RunJob; Advance 301] w)
      as (e & _ & _ & _ & Hafter)
  end.
  - exists []. reflexivity.
  - apply list_elem_of_here.
  - vm_compute. reflexivity.
  - vm_compute. reflexivity.
  - apply Hafter. vm_compute. reflexivity.
Defined.

(** No reviewer has id 4: the heading fails at time 301. *)
Lemma X10_reviewer_missing_witness :
  exists b w1 w,
    fetchCodeReviewerData 4 empty_world = (b, w1) /\
    run no_fault [Advance 300; Fire 0; RunJob; Advance 301] w1 = Some w /\
    PullRequestReviewer b w = (Thrown (VError "TypeError"), w).
Proof.
  eexists _, _, _. split; [vm_compute; reflexivity|]. split; [vm_compute; reflexivity|].
  match goal with |- PullRequestReviewer _ ?w = _ =>
    destruct (X10_reviewer_missing 4 empty_world
                {| b_id := 4; reviewer := 0; comments := 1; responses := 2 |}
                (snd (fetchCodeReviewerData 4 empty_world))
                [Advance 300; Fire 0; RunJob; Advance 301] w)
      as (_ & Hafter)
  end.
  - lia.
  - lia.
  - lia.
  - exists []. reflexivity.
  - vm_compute. reflexivity.
  - vm_compute. reflexivity.
  - apply Hafter. vm_compute. reflexivity.
Defined.

(** The comments of key 7 at time 801: one item. *)
Lemma X11_comment_lists_witness :
  exists b w1 w,
    fetchCodeReviewerData 7 empty_world = (b, w1) /\
    run no_fault [Advance 300; Fire 0; RunJob; Advance 800; Fire 0; RunJob; Advance 801] w1
    = Some w /\
    PullRequestComments b w = (Rendered (ul [li 5 (Some "No comments"%string)]), w).
Proof.
  eexists _, _, _. split; [vm_compute; reflexivity|]. split; [vm_compute; reflexivity|].
  match goal with |- PullRequestComments _ ?w = _ =>
    destruct (X11_comment_lists 7 empty_world
                {| b_id := 7; reviewer := 0; comments := 1; responses := 2 |}
                (snd (fetchCodeReviewerData 7 empty_world))
                [Advance 300; Fire 0; RunJob; Advance 800; Fire 0; RunJob; Advance 801] w)
      as (ec & es & _ & _ & _ & Hafter & _)
  end.
  - exists []. reflexivity.
  - vm_compute. reflexivity.
  - vm_compute. reflexivity.
  - apply Hafter. vm_compute. reflexivity.
Defined.


(** The bundle of key 3, fetched at load time, and what follows a press. *)
Lemma X13_no_cancellation_witness :
  exists t, forall evs s,
    sys_run no_fault evs (sys_init empty_world) = Some s ->
    resolves_at (heap s) 0 (t + 300) (VReviewer {| rv_name := "Marioli"; rv_id := 3 |}).
Proof.
  destruct (X13_no_cancellation empty_world [] (sys_init empty_world)) as [t Ht].
  - exists []. reflexivity.
  - reflexivity.
  - exists t. intros evs s Hr. destruct (Ht evs s Hr) as (H & _). exact H.
Defined.

(** The page after a press: the heading is pending or names Carlos. *)
Lemma X14_page_heading_witness :
  exists s,
    sys_run no_fault [Click; Run (Advance 300); Run (Fire 3); Run RunJob] (sys_init empty_world)
    = Some s /\
    exists e r, envs (heap s) !! reviewer (resource (app s)) = Some e /\
      r ∈ BE_REVIEWERS /\ rv_id r = 5%Z /\
      (PullRequestReviewer (resource (app s)) (heap s)
         = (Thrown (VPromise (suspender e)), heap s) \/
       PullRequestReviewer (resource (app s)) (heap s)
         = (Rendered (h1 (String.append "Reviewer: " (rv_name r))), heap s)).
Proof.
  eexists. split; [vm_compute; reflexivity|].
  match goal with |- context [envs (heap ?s)] =>
    apply (X14_page_heading empty_world
             [Click; Run (Advance 300); Run (Fire 3); Run RunJob] s)
  end.
  - exists []. reflexivity.
  - vm_compute. reflexivity.
Defined.

(** The comments of key 3 are listed at time 800: so is the heading. *)
Lemma X15_reveal_order_witness :
  exists b w1 w,
    fetchCodeReviewerData 3 empty_world = (b, w1) /\
    run no_fault [Advance 300; Fire 0; RunJob; Advance 800; Fire 0; RunJob] w1 = Some w /\
    PullRequestReviewer b w = (Rendered (h1 "Reviewer: Marioli"), w).
Proof.
  eexists _, _, _. split; [vm_compute; reflexivity|]. split; [vm_compute; reflexivity|].
  match goal with |- PullRequestReviewer _ ?w = _ =>
    destruct (X15_reveal_order {| rv_name := "Marioli"; rv_id := 3 |} empty_world
                {| b_id := 3; reviewer := 0; comments := 1; responses := 2 |}
                (snd (fetchCodeReviewerData 3 empty_world))
                [Advance 300; Fire 0; RunJob; Advance 800; Fire 0; RunJob] w)
      as (Hfirst & _)
  end.
  - exists []. reflexivity.
  - apply list_elem_of_here.
  - vm_compute. reflexivity.
  - vm_compute. reflexivity.
  - eapply Hfirst. vm_compute. reflexivity.
Defined.

(** The page right after a press. *)
Lemma X16_fresh_suspends_witness :
  exists s,
    sys_step no_fault Click (sys_init empty_world) = Some s /\
    PullRequestReviewer (resource (app s)) (heap s) = (Thrown (VPromise 9), heap s).
Proof.
  eexists. split; [vm_compute; reflexivity|].
  match goal with |- PullRequestReviewer _ (heap ?s) = _ =>
    destruct (X16_fresh_suspends (heap (sys_init empty_world))) as (_ & _ & _ & H)
  end.
  - exists [Invoke (CallFetchCodeReviewerData 3)]. vm_compute. reflexivity.
  - match goal with |- PullRequestReviewer _ (heap ?s) = _ =>
      destruct (H (sys_init empty_world) s) as (e & He & Hthrow)
    end.
    + reflexivity.
    + vm_compute. reflexivity.
    + rewrite Hthrow. vm_compute in He. injection He as <-. reflexivity.
Defined.

(** The suspender of the reviewer slot of key 3 is settled at time 300. *)
Lemma X17_retry_progress_witness :
  exists b w1 w,
    fetchCodeReviewerData 3 empty_world = (b, w1) /\
    run no_fault [Advance 300; Fire 0; RunJob] w1 = Some w /\
    PullRequestReviewer b w = (Rendered (h1 "Reviewer: Marioli"), w).
Proof.
  eexists _, _, _. split; [vm_compute; reflexivity|]. split; [vm_compute; reflexivity|].
  match goal with |- PullRequestReviewer _ ?w = _ =>
    apply (X17_retry_progress {| rv_name := "Marioli"; rv_id := 3 |} empty_world
             {| b_id := 3; reviewer := 0; comments := 1; responses := 2 |}
             (snd (fetchCodeReviewerData 3 empty_world))
             [Advance 300; Fire 0; RunJob] w
             {| promise := 0; status := "success";
                result := VReviewer {| rv_name := "Marioli"; rv_id := 3 |};
                suspender := 3 |}
             (Fulfilled VUndefined))
  end.
  - exists []. reflexivity.
  - apply list_elem_of_here.
  - vm_compute. reflexivity.
  - vm_compute. reflexivity.
  - vm_compute. reflexivity.
  - vm_compute. reflexivity.
Defined.
